(** * Order-to-notification pipeline: a shallow embedding

    The development follows the JavaScript sources of the order service
    (OrderService, EventPublisher, OrderController, the rate limiter of its
    middleware), the shared event schemas (EventValidator, EventBuilder),
    the notification service (OrderEventConsumer, OrderEventHandler,
    NotificationService) and the cart of the storefront (the cart slice and
    the checkout).

    Conventions.
    - A JavaScript call that may [throw] returns a [Completion]:
      [Normal v] for a normal return, [Throw msg] for a thrown [Error]
      carrying [msg] as its message.
    - Calls to collaborators (repository, Kafka producer, notification
      channels) are recorded in an explicit trace of effects, in call order.
    - JSON numbers are modelled by exact rationals [Q], except in
      [OrderRequest], where the order service is followed on the raw
      request body and numbers are IEEE 754 doubles with their rounding. *)

From Stdlib Require Import List String Ascii Bool Arith ZArith QArith Lia.
From Stdlib Require Import SetoidList.
From Stdlib Require PrimFloat FloatOps SpecFloat.
From Stdlib Require Import DecimalString.
Import ListNotations.

Set Warnings "-register-all".
Set Warnings "-inexact-float".

Open Scope string_scope.
Open Scope list_scope.

(** ** Completions and JavaScript values *)

Inductive Completion (A : Type) : Type :=
| Normal (a : A)
| Throw (message : string).

Arguments Normal {A} a.
Arguments Throw {A} message.

Definition isNormal {A} (c : Completion A) : bool :=
  match c with Normal _ => true | Throw _ => false end.

Definition bindC {A B} (c : Completion A) (k : A -> Completion B) : Completion B :=
  match c with
  | Normal a => k a
  | Throw m => Throw m
  end.

Notation "'try!' x <- c ;; k" := (bindC c (fun x => k))
  (at level 61, x name, c at next level, right associativity).

(** Decimal rendering of an array index, as a template literal does. *)
Definition nat_to_string (n : nat) : string :=
  NilEmpty.string_of_uint (Nat.to_uint n).

(** Values produced by [JSON.parse]. *)
Inductive JsVal : Type :=
| JUndefined
| JNull
| JBool (b : bool)
| JNum (q : Q)
| JStr (s : string)
| JArr (elems : list JsVal)
| JObj (props : list (string * JsVal)).

(** Property lookup in a property list; later bindings of the same key are
    shadowed by the first one. *)
Fixpoint lookup (k : string) (props : list (string * JsVal)) : option JsVal :=
  match props with
  | [] => None
  | (k', v) :: rest => if String.eqb k k' then Some v else lookup k rest
  end.

(** [v.k] for a value that is not [null]/[undefined]: a missing property and
    a property of a non-object both read as [undefined]. *)
Definition getProp (v : JsVal) (k : string) : JsVal :=
  match v with
  | JObj props => match lookup k props with Some x => x | None => JUndefined end
  | _ => JUndefined
  end.

(** [obj[k] = v] on a property list. *)
Fixpoint setProp (k : string) (v : JsVal) (props : list (string * JsVal))
  : list (string * JsVal) :=
  match props with
  | [] => [(k, v)]
  | (k', x) :: rest =>
      if String.eqb k k' then (k, v) :: rest else (k', x) :: setProp k v rest
  end.

(** ToBoolean. *)
Definition truthy (v : JsVal) : bool :=
  match v with
  | JUndefined | JNull => false
  | JBool b => b
  | JNum q => negb (Qeq_bool q 0)
  | JStr s => negb (String.eqb s "")
  | JArr _ | JObj _ => true
  end.

(** [v === s] for a string literal [s]. *)
Definition strictEqStr (v : JsVal) (s : string) : bool :=
  match v with
  | JStr x => String.eqb x s
  | _ => false
  end.

(** [typeof v === 'object'] *)
Definition typeofObject (v : JsVal) : bool :=
  match v with
  | JNull | JArr _ | JObj _ => true
  | _ => false
  end.

(** The message of the [TypeError] of a property read on [null] or
    [undefined]. *)
Definition cannotRead (v : JsVal) (k : string) : string :=
  ("Cannot read properties of " ++
   match v with JNull => "null" | _ => "undefined" end ++
   " (reading '" ++ k ++ "')")%string.

(** The message of the [TypeError] of a conversion that finds neither a
    callable [toString] nor a [valueOf] that returns a primitive. *)
Definition cannotConvert : string := "Cannot convert object to primitive value".

(** ToString, the conversion of a template literal. A parsed object holds
    no function: when it has a [toString] property of its own, that property
    hides [Object.prototype.toString], [valueOf] returns the object itself,
    and the conversion throws; otherwise it renders as ["[object Object]"].
    An array is joined with commas, [null] and [undefined] elements
    rendering as the empty string, and the conversion of an element may
    throw in turn. [numToString] renders a number. *)
Fixpoint toStr (numToString : Q -> string) (v : JsVal) : Completion string :=
  match v with
  | JUndefined => Normal "undefined"
  | JNull => Normal "null"
  | JBool true => Normal "true"
  | JBool false => Normal "false"
  | JNum q => Normal (numToString q)
  | JStr s => Normal s
  | JObj props =>
      match lookup "toString" props with
      | Some _ => Throw cannotConvert
      | None => Normal "[object Object]"
      end
  | JArr elems =>
      (fix join (l : list JsVal) : Completion string :=
         match l with
         | [] => Normal ""
         | x :: rest =>
             match match x with
                   | JUndefined | JNull => Normal ""
                   | _ => toStr numToString x
                   end with
             | Throw m => Throw m
             | Normal sx =>
                 match rest with
                 | [] => Normal sx
                 | _ :: _ =>
                     match join rest with
                     | Throw m => Throw m
                     | Normal sr => Normal (sx ++ "," ++ sr)%string
                     end
                 end
             end
         end) elems
  end.

(** A rendering of numbers for the samples: integers render in decimal,
    and the samples hold no other number. *)
Definition renderInteger (q : Q) : string :=
  match Qnum q with
  | Z0 => "0"
  | Zpos p => nat_to_string (Pos.to_nat p)
  | Zneg p => ("-" ++ nat_to_string (Pos.to_nat p))%string
  end.

(** ** Order intake: OrderService and EventPublisher

    The two services on request bodies of the data model: every field has
    the type that the data model gives it (a missing one is [None]), and
    amounts are exact. What the order service does with any other body, and
    with the rounding of doubles, is followed in [OrderRequest] below. *)

Module OrderIntake.

(** An item id arrives as a JSON number (the storefront) or a string. *)
Inductive ItemId : Type :=
| IdNum (q : Q)
| IdStr (s : string).

(** An element of [orderData.items]; [None] is an absent property. *)
Record RawItem : Type := mkRawItem {
  item_id : option ItemId;
  item_title : option string;
  item_quantity : option Q;
  item_price : option Q
}.

(** The [items] property of the request body. *)
Inductive RawItems : Type :=
| ItemsMissing
| ItemsNotArray
| ItemsArray (l : list RawItem).

(** The request body handed to [createOrder]. [od_totalAmount] is a total
    supplied by the client. *)
Record OrderData : Type := mkOrderData {
  od_userId : option string;
  od_items : RawItems;
  od_customerEmail : option string;
  od_customerName : option string;
  od_totalAmount : option Q
}.

(** A JavaScript number; [None] is [NaN]. An absent property reads
    [undefined], which converts to [NaN] in arithmetic. *)
Definition Num : Type := option Q.

Definition addNum (a b : Num) : Num :=
  match a, b with
  | Some x, Some y => Some (x + y)
  | _, _ => None
  end.

Definition mulNum (a b : Num) : Num :=
  match a, b with
  | Some x, Some y => Some (x * y)
  | _, _ => None
  end.

(** The object literal [orderToSave]. *)
Record OrderToSave : Type := mkOrderToSave {
  userId : option string;
  items : list RawItem;
  totalAmount : Num;
  customerEmail : option string;
  customerName : option string;
  status : string
}.

(** The record handed to [producer.send]. *)
Record KafkaMessage : Type := mkKafkaMessage {
  msg_key : string;
  msg_value : string;
  msg_timestamp : string;
  msg_headers : list (string * JsVal)
}.

Record ProducerRecord : Type := mkProducerRecord {
  pr_topic : string;
  pr_messages : list KafkaMessage
}.

Record RecordMetadata : Type := mkRecordMetadata {
  partition : Z;
  offset : string
}.

(** [!s] for an optional string property. *)
Definition missingStr (s : option string) : bool :=
  match s with
  | None => true
  | Some s => String.eqb s ""
  end.

(** [!item.id] *)
Definition missingId (i : option ItemId) : bool :=
  match i with
  | None => true
  | Some (IdNum q) => Qeq_bool q 0
  | Some (IdStr s) => String.eqb s ""
  end.

(** [!n || n <= 0] for an optional number property. *)
Definition notPositive (n : option Q) : bool :=
  match n with
  | None => true
  | Some q => Qeq_bool q 0 || Qle_bool q 0
  end.

(** The callback of [orderData.items.forEach] in [validateOrderData]. *)
Definition validateItem (index : nat) (item : RawItem) : Completion unit :=
  let n := nat_to_string (index + 1)%nat in
  if missingId (item_id item) then
    Throw ("Item " ++ n ++ ": Product ID is required")
  else if missingStr (item_title item) then
    Throw ("Item " ++ n ++ ": Product title is required")
  else if notPositive (item_quantity item) then
    Throw ("Item " ++ n ++ ": Valid quantity is required")
  else if notPositive (item_price item) then
    Throw ("Item " ++ n ++ ": Valid price is required")
  else Normal tt.

(** [forEach] with a throwing callback stops at the first throw. *)
Fixpoint validateItems (index : nat) (l : list RawItem) : Completion unit :=
  match l with
  | [] => Normal tt
  | item :: rest =>
      try! _ <- validateItem index item ;;
      validateItems (S index) rest
  end.

(** [validateOrderData]: on success the checked item array is returned, so
    that the caller reads [orderData.items] as an array. *)
Definition validateOrderData (orderData : OrderData) : Completion (list RawItem) :=
  if missingStr (od_userId orderData) then Throw "User ID is required"
  else
    match od_items orderData with
    | ItemsMissing | ItemsNotArray => Throw "Order must contain at least one item"
    | ItemsArray [] => Throw "Order must contain at least one item"
    | ItemsArray l =>
        if missingStr (od_customerEmail orderData) then
          Throw "Customer email is required"
        else if missingStr (od_customerName orderData) then
          Throw "Customer name is required"
        else
          try! _ <- validateItems 0 l ;;
          Normal l
    end.

(** [calculateTotal]:
    [items.reduce((total, item) => total + (item.quantity * item.price), 0)]. *)
Definition calculateTotal (l : list RawItem) : Num :=
  fold_left
    (fun total item => addNum total (mulNum (item_quantity item) (item_price item)))
    l (Some 0).

(** The sum of the spec, [Σ quantity × price], written as the usual
    recursive sum over the items of the data model; an item without a
    quantity or a price, which the data model excludes, adds nothing. *)
Definition lineAmount (item : RawItem) : Q :=
  match item_quantity item, item_price item with
  | Some q, Some p => q * p
  | _, _ => 0
  end.

Fixpoint itemSum (l : list RawItem) : Q :=
  match l with
  | [] => 0
  | item :: rest => lineAmount item + itemSum rest
  end.

Section Services.

(** The stored order returned by the repository, with the methods the
    services call on it. *)
Variable SavedOrder : Type.
Variable orderId : SavedOrder -> string.
Variable toEventData : SavedOrder -> JsVal.

(** Collaborators: [orderRepository.save], [producer.send]. *)
Variable save : OrderToSave -> Completion SavedOrder.
Variable send : ProducerRecord -> Completion (list RecordMetadata).

(** Clock readings and serialisation: [new Date().toISOString()],
    [Date.now().toString()], [JSON.stringify]. *)
Variable nowISO : string.
Variable nowMillis : string.
Variable stringify : JsVal -> string.

(** Calls made to the collaborators. *)
Inductive Effect : Type :=
| RepoSave (order : OrderToSave)
| ProducerSend (record : ProducerRecord).

(** The object literal [event] of [publishOrderCreated]. *)
Definition orderCreatedEvent (order : SavedOrder) : JsVal :=
  JObj [ ("type", JStr "ORDER_CREATED");
         ("timestamp", JStr nowISO);
         ("version", JStr "1.0");
         ("source", JStr "order-service");
         ("data", toEventData order) ].

(** [publishEvent(event, key)] *)
Definition publishEvent (event : JsVal) (key : string)
  : Completion (list RecordMetadata) * list Effect :=
  let message :=
    mkProducerRecord "order-events"
      [ mkKafkaMessage key (stringify event) nowMillis
          [ ("event-type", getProp event "type");
            ("event-version", getProp event "version");
            ("source-service", getProp event "source") ] ] in
  match send message with
  | Normal result =>
      match result with
      | _ :: _ => (Normal result, [ProducerSend message])
      | [] =>
          (Throw ("Event publishing failed: " ++
                  "Cannot read properties of undefined (reading 'partition')"),
           [ProducerSend message])
      end
  | Throw m => (Throw ("Event publishing failed: " ++ m), [ProducerSend message])
  end.

(** [publishOrderCreated(order)] *)
Definition publishOrderCreated (order : SavedOrder)
  : Completion (list RecordMetadata) * list Effect :=
  publishEvent (orderCreatedEvent order) (orderId order).

(** [createOrder(orderData)]; the [catch] block logs and re-throws. *)
Definition createOrder (orderData : OrderData)
  : Completion SavedOrder * list Effect :=
  match validateOrderData orderData with
  | Throw m => (Throw m, [])
  | Normal l =>
      let orderToSave :=
        mkOrderToSave (od_userId orderData) l (calculateTotal l)
          (od_customerEmail orderData) (od_customerName orderData) "PENDING" in
      match save orderToSave with
      | Throw m => (Throw m, [RepoSave orderToSave])
      | Normal savedOrder =>
          match publishOrderCreated savedOrder with
          | (Throw m, tr) => (Throw m, RepoSave orderToSave :: tr)
          | (Normal _, tr) => (Normal savedOrder, RepoSave orderToSave :: tr)
          end
      end
  end.

(** The object literal [message] of [publishEvent]: the record that carries
    an event under a key. *)
Definition recordOf (event : JsVal) (key : string) : ProducerRecord :=
  mkProducerRecord "order-events"
    [ mkKafkaMessage key (stringify event) nowMillis
        [ ("event-type", getProp event "type");
          ("event-version", getProp event "version");
          ("source-service", getProp event "source") ] ].

(** The object literal [healthEvent] of [isHealthy]. *)
Definition healthEvent : JsVal :=
  JObj [ ("type", JStr "HEALTH_CHECK");
         ("timestamp", JStr nowISO);
         ("version", JStr "1.0");
         ("source", JStr "order-service");
         ("data", JObj [("status", JStr "healthy")]) ].

(** [EventPublisher.isHealthy()]: the probe publishes a health event and
    turns a failure into [false]. *)
Definition isHealthy : bool * list Effect :=
  match publishEvent healthEvent "health-check" with
  | (Normal _, tr) => (true, tr)
  | (Throw _, tr) => (false, tr)
  end.

(** The stored document as the controller reads its properties. *)
Variable orderDocument : SavedOrder -> JsVal.

(** What the controller hands to [res.status(...).json(...)]. *)
Record Response : Type := mkResponse {
  statusCode : nat;
  body : JsVal
}.

(** [OrderController.createOrder(req, res)], on the body of the request. *)
Definition respondCreateOrder (reqBody : OrderData) : Response * list Effect :=
  match createOrder reqBody with
  | (Normal order, tr) =>
      (mkResponse 201
         (JObj [ ("success", JBool true);
                 ("message", JStr "Order created successfully");
                 ("data",
                  JObj [ ("orderId", JStr (orderId order));
                         ("status", getProp (orderDocument order) "status");
                         ("totalAmount", getProp (orderDocument order) "totalAmount");
                         ("items", getProp (orderDocument order) "items");
                         ("createdAt", getProp (orderDocument order) "createdAt") ]) ]),
       tr)
  | (Throw m, tr) =>
      (mkResponse 400
         (JObj [ ("success", JBool false);
                 ("message",
                  JStr (if String.eqb m "" then "Failed to create order" else m));
                 ("details", JNull) ]),
       tr)
  end.

End Services.


(** *** Vocabulary of the data model *)

(** An item as the data model wants it: identified, titled, with a positive
    quantity and a positive price. *)
Definition ItemOk (item : RawItem) : Prop :=
  missingId (item_id item) = false /\
  missingStr (item_title item) = false /\
  (exists q, item_quantity item = Some q /\ 0 < q) /\
  (exists p, item_price item = Some p /\ 0 < p).

(** An item that the data model excludes. *)
Inductive ItemRejected (item : RawItem) : Prop :=
| NoItemId : item_id item = None -> ItemRejected item
| NoItemTitle : item_title item = None -> ItemRejected item
| NoQuantity : item_quantity item = None -> ItemRejected item
| BadQuantity q : item_quantity item = Some q -> q <= 0 -> ItemRejected item
| NoPrice : item_price item = None -> ItemRejected item
| BadPrice p : item_price item = Some p -> p <= 0 -> ItemRejected item.

(** A request body that the data model excludes. *)
Inductive InputRejected (orderData : OrderData) : Prop :=
| NoUserId : od_userId orderData = None -> InputRejected orderData
| NoCustomerEmail : od_customerEmail orderData = None -> InputRejected orderData
| NoCustomerName : od_customerName orderData = None -> InputRejected orderData
| NoItemsProperty : od_items orderData = ItemsMissing -> InputRejected orderData
| ZeroItems : od_items orderData = ItemsArray [] -> InputRejected orderData
| RejectedItem l item :
    od_items orderData = ItemsArray l -> In item l -> ItemRejected item ->
    InputRejected orderData.

(** The same body with another client-supplied total. *)
Definition withClientTotal (t : option Q) (orderData : OrderData) : OrderData :=
  mkOrderData (od_userId orderData) (od_items orderData)
    (od_customerEmail orderData) (od_customerName orderData) t.

(** The validation messages of an item, without the ["Item n: "] prefix. *)
Definition itemReasons : list string :=
  [ "Product ID is required"; "Product title is required";
    "Valid quantity is required"; "Valid price is required" ].

(** *** A test double for the collaborators

    An in-memory repository that assigns the id ["order-1"], and a producer
    that acknowledges every record on partition 0. *)

Definition memorySave (o : OrderToSave) : Completion (string * OrderToSave) :=
  Normal ("order-1", o).

Definition memoryEventData (saved : string * OrderToSave) : JsVal :=
  JObj [ ("orderId", JStr (fst saved));
         ("customerEmail",
          match customerEmail (snd saved) with Some e => JStr e | None => JUndefined end);
         ("totalAmount",
          match totalAmount (snd saved) with Some t => JNum t | None => JNull end) ].

Definition ackSend (r : ProducerRecord) : Completion (list RecordMetadata) :=
  Normal [mkRecordMetadata 0 "0"].

Definition noStringify (v : JsVal) : string := "{}".

(** The scenario of the spec: two widgets at 9.99. *)
Definition widgetItems : list RawItem :=
  [mkRawItem (Some (IdNum 1)) (Some "Widget") (Some 2) (Some (999 # 100))].

Definition widgetOrder : OrderData :=
  mkOrderData (Some "u1") (ItemsArray widgetItems) (Some "a@b.com") (Some "A") None.

Definition widgetSaved : string * OrderToSave :=
  ("order-1",
   mkOrderToSave (Some "u1") widgetItems (Some (1998 # 100)) (Some "a@b.com") (Some "A")
     "PENDING").

(** A producer whose broker is unreachable. *)
Definition brokerDown (r : ProducerRecord) : Completion (list RecordMetadata) :=
  Throw "Connection timeout".

(** A repository whose database is unreachable. *)
Definition repositoryDown (o : OrderToSave) : Completion (string * OrderToSave) :=
  Throw "MongoDB connection lost".

(** The widget order followed by an item without a price. *)
Definition unpricedItem : RawItem :=
  mkRawItem (Some (IdNum 2)) (Some "Gadget") (Some 1) None.

Definition widgetAndUnpriced : OrderData :=
  mkOrderData (Some "u1") (ItemsArray (widgetItems ++ [unpricedItem]))
    (Some "a@b.com") (Some "A") None.

(** The stored document of the in-memory repository. *)
Definition memoryDocument (saved : string * OrderToSave) : JsVal :=
  JObj [ ("orderId", JStr (fst saved));
         ("status", JStr (status (snd saved)));
         ("totalAmount",
          match totalAmount (snd saved) with Some t => JNum t | None => JNull end) ].

End OrderIntake.

(** ** The order service on the raw request body

    [OrderIntake] above reads the request body through the data model: the
    fields have their types and amounts are exact. Here the body is what
    [JSON.parse] hands to the service, any value at all, and numbers are
    IEEE 754 doubles, so that the conversions and the rounding of the
    JavaScript operators are those of the code. *)

Module OrderRequest.
Import PrimFloat.

(** A parsed request body. *)
Inductive Value : Type :=
| VUndefined
| VNull
| VBool (b : bool)
| VNum (x : float)
| VStr (s : string)
| VArr (elems : list Value)
| VObj (props : list (string * Value)).

(** The own property [k] of an object; the first binding counts. *)
Fixpoint own (k : string) (props : list (string * Value)) : option Value :=
  match props with
  | [] => None
  | (k', v) :: rest => if String.eqb k k' then Some v else own k rest
  end.

(** [v.k]: a [TypeError] on [null] and [undefined]; a missing property, and
    a property of a primitive or of an array that is none of its own, read
    as [undefined]. *)
Definition get (v : Value) (k : string) : Completion Value :=
  match v with
  | VUndefined =>
      Throw ("Cannot read properties of undefined (reading '" ++ k ++ "')")
  | VNull => Throw ("Cannot read properties of null (reading '" ++ k ++ "')")
  | VObj props => Normal (match own k props with Some x => x | None => VUndefined end)
  | _ => Normal VUndefined
  end.

(** ToBoolean: [0], [-0] and [NaN] are the numbers that are not truthy. *)
Definition truthy (v : Value) : bool :=
  match v with
  | VUndefined | VNull => false
  | VBool b => b
  | VNum x => negb (PrimFloat.eqb x 0 || is_nan x)
  | VStr s => negb (String.eqb s "")
  | VArr _ | VObj _ => true
  end.

Section Conversions.

(** Number::toString and StringToNumber, the two conversions of the
    language between a number and its text. *)
Variable numberToString : float -> string.
Variable stringToNumber : string -> float.

(** ToString. An object that has a [toString] property of its own (a
    parsed body holds no function) does not convert; any other object
    renders as ["[object Object]"]; an array is joined with commas. *)
Fixpoint toStr (v : Value) : Completion string :=
  match v with
  | VUndefined => Normal "undefined"
  | VNull => Normal "null"
  | VBool true => Normal "true"
  | VBool false => Normal "false"
  | VNum x => Normal (numberToString x)
  | VStr s => Normal s
  | VObj props =>
      match own "toString" props with
      | Some _ => Throw cannotConvert
      | None => Normal "[object Object]"
      end
  | VArr elems =>
      (fix join (l : list Value) : Completion string :=
         match l with
         | [] => Normal ""
         | x :: rest =>
             match match x with
                   | VUndefined | VNull => Normal ""
                   | _ => toStr x
                   end with
             | Throw m => Throw m
             | Normal sx =>
                 match rest with
                 | [] => Normal sx
                 | _ :: _ =>
                     match join rest with
                     | Throw m => Throw m
                     | Normal sr => Normal (sx ++ "," ++ sr)%string
                     end
                 end
             end
         end) elems
  end.

(** ToNumber, the conversion of the operands of [<=] and [*]. An object or
    an array goes through its text. *)
Definition toNumber (v : Value) : Completion float :=
  match v with
  | VUndefined => Normal nan
  | VNull => Normal 0%float
  | VBool true => Normal 1%float
  | VBool false => Normal 0%float
  | VNum x => Normal x
  | VStr s => Normal (stringToNumber s)
  | VArr _ | VObj _ =>
      try! text <- toStr v ;;
      Normal (stringToNumber text)
  end.

(** [!x || x <= 0] *)
Definition notPositive (x : Value) : Completion bool :=
  if negb (truthy x) then Normal true
  else
    try! n <- toNumber x ;;
    Normal (PrimFloat.leb n 0).

(** The callback of [orderData.items.forEach] in [validateOrderData]. *)
Definition validateItem (index : nat) (item : Value) : Completion unit :=
  let n := nat_to_string (index + 1)%nat in
  try! id <- get item "id" ;;
  if negb (truthy id) then Throw ("Item " ++ n ++ ": Product ID is required")
  else
    try! title <- get item "title" ;;
    if negb (truthy title) then Throw ("Item " ++ n ++ ": Product title is required")
    else
      try! quantity <- get item "quantity" ;;
      try! badQuantity <- notPositive quantity ;;
      if badQuantity then Throw ("Item " ++ n ++ ": Valid quantity is required")
      else
        try! price <- get item "price" ;;
        try! badPrice <- notPositive price ;;
        if badPrice then Throw ("Item " ++ n ++ ": Valid price is required")
        else Normal tt.

(** [forEach] with a throwing callback stops at the first throw. *)
Fixpoint validateItems (index : nat) (l : list Value) : Completion unit :=
  match l with
  | [] => Normal tt
  | item :: rest =>
      try! _ <- validateItem index item ;;
      validateItems (S index) rest
  end.

(** [validateOrderData(orderData)] *)
Definition validateOrderData (orderData : Value) : Completion unit :=
  try! userId <- get orderData "userId" ;;
  if negb (truthy userId) then Throw "User ID is required"
  else
    try! items <- get orderData "items" ;;
    match items with
    | VArr (item :: rest) =>
        try! customerEmail <- get orderData "customerEmail" ;;
        if negb (truthy customerEmail) then Throw "Customer email is required"
        else
          try! customerName <- get orderData "customerName" ;;
          if negb (truthy customerName) then Throw "Customer name is required"
          else validateItems 0 (item :: rest)
    | _ => Throw "Order must contain at least one item"
    end.

(** One step of the [reduce] of [calculateTotal]:
    [total + (item.quantity * item.price)], both operands read and then
    converted from left to right. *)
Definition addItem (total : float) (item : Value) : Completion float :=
  try! quantity <- get item "quantity" ;;
  try! price <- get item "price" ;;
  try! q <- toNumber quantity ;;
  try! p <- toNumber price ;;
  Normal (total + q * p)%float.

(** [calculateTotal(items)], on the elements of the array. *)
Fixpoint reduceFrom (total : float) (items : list Value) : Completion float :=
  match items with
  | [] => Normal total
  | item :: rest =>
      try! total' <- addItem total item ;;
      reduceFrom total' rest
  end.

Definition calculateTotal (items : list Value) : Completion float :=
  reduceFrom 0%float items.

(** The object literal [orderToSave]. *)
Record OrderToSave : Type := mkOrderToSave {
  userId : Value;
  items : Value;
  totalAmount : float;
  customerEmail : Value;
  customerName : Value;
  status : string
}.

(** Calls made to the collaborators. *)
Inductive Effect : Type :=
| RepoSave (order : OrderToSave)
| ProducerSend (record : OrderIntake.ProducerRecord).

(** The stored order, the repository and the publisher of [OrderIntake]. *)
Variable SavedOrder : Type.
Variable orderId : SavedOrder -> string.
Variable toEventData : SavedOrder -> JsVal.
Variable save : OrderToSave -> Completion SavedOrder.
Variable send :
  OrderIntake.ProducerRecord -> Completion (list OrderIntake.RecordMetadata).
Variable nowISO : string.
Variable nowMillis : string.
Variable stringify : JsVal -> string.

(** The sends of the publisher, in this module's trace. *)
Definition published (tr : list OrderIntake.Effect) : list Effect :=
  flat_map (fun e => match e with
                     | OrderIntake.ProducerSend r => [ProducerSend r]
                     | OrderIntake.RepoSave _ => []
                     end) tr.

(** What a property read gives once the object is known to allow it. *)
Definition field (v : Value) (k : string) : Value :=
  match get v k with
  | Normal x => x
  | Throw _ => VUndefined
  end.

(** [createOrder(orderData)]; the [catch] block logs and re-throws. After
    [validateOrderData] returned, [orderData.items] is an array. *)
Definition createOrder (orderData : Value) : Completion SavedOrder * list Effect :=
  match validateOrderData orderData with
  | Throw m => (Throw m, [])
  | Normal _ =>
      match calculateTotal (match field orderData "items" with
                            | VArr l => l
                            | _ => []
                            end) with
      | Throw m => (Throw m, [])
      | Normal total =>
          let orderToSave :=
            mkOrderToSave (field orderData "userId") (field orderData "items") total
              (field orderData "customerEmail") (field orderData "customerName")
              "PENDING" in
          match save orderToSave with
          | Throw m => (Throw m, [RepoSave orderToSave])
          | Normal savedOrder =>
              match OrderIntake.publishOrderCreated SavedOrder orderId toEventData
                      send nowISO nowMillis stringify savedOrder with
              | (Throw m, tr) => (Throw m, RepoSave orderToSave :: published tr)
              | (Normal _, tr) =>
                  (Normal savedOrder, RepoSave orderToSave :: published tr)
              end
          end
      end
  end.

End Conversions.

(** *** Vocabulary of the statements *)

(** [obj[k] = v] on a property list. *)
Fixpoint setOwn (k : string) (v : Value) (props : list (string * Value))
  : list (string * Value) :=
  match props with
  | [] => [(k, v)]
  | (k', x) :: rest =>
      if String.eqb k k' then (k, v) :: rest else (k', x) :: setOwn k v rest
  end.

(** The same body with another client-supplied total. *)
Definition withClientTotal (t : Value) (orderData : Value) : Value :=
  match orderData with
  | VObj props => VObj (setOwn "totalAmount" t props)
  | _ => orderData
  end.

(** The quantity and the price of an item of the data model, both
    numbers. *)
Definition priced (item : Value) : option (float * float) :=
  match item with
  | VObj props =>
      match own "quantity" props, own "price" props with
      | Some (VNum q), Some (VNum p) => Some (q, p)
      | _, _ => None
      end
  | _ => None
  end.

(** The rational that a double stands for; none for the infinities and
    [NaN]. *)
Definition exactValue (x : float) : option Q :=
  match FloatOps.Prim2SF x with
  | SpecFloat.S754_zero _ => Some 0
  | SpecFloat.S754_finite s m e =>
      Some ((if s then -1 else 1) * (Zpos m # 1) * Qpower 2 e)
  | _ => None
  end.

(** The sum of the spec, [Σ quantity × price], taken exactly over the
    values that the quantities and prices stand for. *)
Fixpoint itemSum (l : list (float * float)) : option Q :=
  match l with
  | [] => Some 0
  | (q, p) :: rest =>
      match exactValue q, exactValue p, itemSum rest with
      | Some a, Some b, Some s => Some (a * b + s)
      | _, _, _ => None
      end
  end.

Section Refusals.

Variable numberToString : float -> string.
Variable stringToNumber : string -> float.

(** An item that [validateOrderData] refuses: it is [null] or [undefined];
    or its id, title, quantity or price is not truthy; or its quantity or
    price converts to a number that is at most 0, or does not convert. *)
Inductive ItemRefused (item : Value) : Prop :=
| NotAnItem : item = VNull \/ item = VUndefined -> ItemRefused item
| FalsyField k :
    In k ["id"; "title"; "quantity"; "price"] ->
    truthy (field item k) = false -> ItemRefused item
| NotPositiveAmount k n :
    In k ["quantity"; "price"] ->
    toNumber numberToString stringToNumber (field item k) = Normal n ->
    PrimFloat.leb n 0 = true -> ItemRefused item
| UnconvertibleAmount k m :
    In k ["quantity"; "price"] ->
    toNumber numberToString stringToNumber (field item k) = Throw m ->
    ItemRefused item.

(** A body that [validateOrderData] refuses: it is [null] or [undefined];
    or its user id, customer e-mail or customer name is not truthy; or its
    items are not an array with at least one element; or one of the items
    is refused. *)
Inductive BodyRefused (orderData : Value) : Prop :=
| NoBody : orderData = VNull \/ orderData = VUndefined -> BodyRefused orderData
| FalsyRequired k :
    In k ["userId"; "customerEmail"; "customerName"] ->
    truthy (field orderData k) = false -> BodyRefused orderData
| NoItems :
    (forall item rest, field orderData "items" <> VArr (item :: rest)) ->
    BodyRefused orderData
| RefusedItem l item :
    field orderData "items" = VArr l -> In item l -> ItemRefused item ->
    BodyRefused orderData.

(** An item, and a body, as they are when the checks have passed. *)
Definition ItemChecked (item : Value) : Prop :=
  item <> VNull /\ item <> VUndefined /\
  truthy (field item "id") = true /\
  truthy (field item "title") = true /\
  (truthy (field item "quantity") = true /\
   exists q, toNumber numberToString stringToNumber (field item "quantity") = Normal q /\
             PrimFloat.leb q 0 = false) /\
  (truthy (field item "price") = true /\
   exists p, toNumber numberToString stringToNumber (field item "price") = Normal p /\
             PrimFloat.leb p 0 = false).

Definition BodyChecked (orderData : Value) : Prop :=
  orderData <> VNull /\ orderData <> VUndefined /\
  truthy (field orderData "userId") = true /\
  truthy (field orderData "customerEmail") = true /\
  truthy (field orderData "customerName") = true /\
  exists item rest,
    field orderData "items" = VArr (item :: rest) /\
    Forall ItemChecked (item :: rest).

End Refusals.

(** *** Fixtures *)

(** The conversions of the samples. The one text that the samples convert
    is ["abc"], which is no numeric literal, and they render no number. *)
Definition sampleNumber (text : string) : float := nan.

Definition sampleText (x : float) : string := "0".

Definition memorySave (o : OrderToSave) : Completion (string * OrderToSave) :=
  Normal ("order-1", o).

Definition memoryEventData (saved : string * OrderToSave) : JsVal :=
  JObj [ ("orderId", JStr (fst saved)) ].

Definition orderOf (items : list Value) : Value :=
  VObj [ ("userId", VStr "u1");
         ("items", VArr items);
         ("customerEmail", VStr "a@b.com");
         ("customerName", VStr "A") ].

Definition line (quantity price : Value) : Value :=
  VObj [ ("id", VNum 1); ("title", VStr "Pen");
         ("quantity", quantity); ("price", price) ].

(** Three pens at 0.1. *)
Definition tenthsOrder : Value := orderOf [line (VNum 3) (VNum 0.1)].

(** A quantity that is not a number. *)
Definition wordQuantityOrder : Value := orderOf [line (VStr "abc") (VNum 2)].

(** No pen at all. *)
Definition zeroQuantityOrder : Value := orderOf [line (VNum 0) (VNum 2)].

End OrderRequest.

(** ** Notification orchestrator: NotificationService *)

Module Notification.

(** What a channel sender returns. *)
Record SendResult : Type := mkSendResult {
  success : bool;
  messageId : string;
  recipient : JsVal;
  subject : string
}.

(** An element of [results.notifications]. *)
Record ChannelOutcome : Type := mkChannelOutcome {
  channel : string;
  status : string;
  result : option SendResult;
  error : option string
}.

(** The object [results] built and returned by [sendOrderConfirmation]. *)
Record NotificationRecord : Type := mkNotificationRecord {
  orderId : JsVal;
  notifications : list ChannelOutcome;
  timestamp : string
}.

(** An element of a history array. *)
Record HistoryEntry : Type := mkHistoryEntry {
  entry_type : string;
  entry_result : NotificationRecord;
  entry_timestamp : string
}.

(** Key equality of a JavaScript [Map] on parsed JSON values: primitives
    compare by value; two objects or arrays coming from different parses are
    different keys. *)
Definition sameKey (a b : JsVal) : bool :=
  match a, b with
  | JUndefined, JUndefined => true
  | JNull, JNull => true
  | JBool x, JBool y => Bool.eqb x y
  | JNum x, JNum y => Qeq_bool x y
  | JStr x, JStr y => String.eqb x y
  | _, _ => false
  end.

(** [notificationHistory]: a [Map] from order id to an array of entries. *)
Definition History : Type := list (JsVal * list HistoryEntry).

(** [getNotificationHistory(orderId)] *)
Fixpoint getNotificationHistory (h : History) (id : JsVal) : list HistoryEntry :=
  match h with
  | [] => []
  | (k, entries) :: rest =>
      if sameKey k id then entries else getNotificationHistory rest id
  end.

(** [Map.has] *)
Definition historyHas (h : History) (id : JsVal) : bool :=
  existsb (fun kv => sameKey (fst kv) id) h.

(** [notificationHistory.get(orderId).push(entry)] on a key that
    [sameKey] finds. *)
Fixpoint historyPush (h : History) (id : JsVal) (e : HistoryEntry) : History :=
  match h with
  | [] => []
  | (k, entries) :: rest =>
      if sameKey k id then (k, entries ++ [e]) :: rest
      else (k, entries) :: historyPush rest id e
  end.

(** The channel senders handed to the constructor, as the orchestrator
    uses them: [emailService.sendOrderConfirmation] and
    [smsService.sendOrderConfirmationSMS]. *)
Record Channels : Type := mkChannels {
  emailSend : JsVal -> Completion SendResult;
  smsSend : JsVal -> Completion SendResult
}.

Section Orchestrator.

Variable channels : Channels.
Variable nowISO : string.
Variable numToString : Q -> string.

(** [storeNotificationHistory(orderId, type, result)]: a key that the map
    does not hold is added with an empty array, and the entry is pushed on
    the array found under the key. An object or array id is a reference of
    its own at every call: it is never found among the keys held, and the
    array just added for it receives the entry. *)
Definition storeNotificationHistory
    (h : History) (id : JsVal) (type : string) (r : NotificationRecord) : History :=
  if historyHas h id then historyPush h id (mkHistoryEntry type r nowISO)
  else h ++ [(id, [mkHistoryEntry type r nowISO])].

(** The first statement of the three senders: a template literal that reads
    [orderData.orderId] and converts it, outside every [try]. It throws on
    [null] and [undefined] order data and on an order id that does not
    convert. *)
Definition announced (orderData : JsVal) : Completion string :=
  match orderData with
  | JUndefined | JNull => Throw (cannotRead orderData "orderId")
  | _ => toStr numToString (getProp orderData "orderId")
  end.

(** [sendOrderConfirmation(orderData)]: the email sender is the only
    channel invoked; its failure is caught and turned into an entry. *)
Definition sendOrderConfirmation (orderData : JsVal) (h : History)
  : Completion NotificationRecord * History :=
  match announced orderData with
  | Throw m => (Throw m, h)
  | Normal _ =>
      let id := getProp orderData "orderId" in
      let outcome :=
        match emailSend channels orderData with
        | Normal emailResult =>
            mkChannelOutcome "email" "success" (Some emailResult) None
        | Throw m => mkChannelOutcome "email" "failed" None (Some m)
        end in
      let results := mkNotificationRecord id [outcome] nowISO in
      (Normal results, storeNotificationHistory h id "ORDER_CONFIRMATION" results)
  end.

End Orchestrator.

(** Number of entries of a record with a given status. *)
Definition countStatus (s : string) (r : NotificationRecord) : nat :=
  List.length (filter (fun n => String.eqb (status n) s) (notifications r)).

(** *** Test doubles: a sender that delivers and senders that fail as the
    mock transports do. *)

Definition deliver (prefix : string) (orderData : JsVal) : Completion SendResult :=
  Normal (mkSendResult true (prefix ++ "-1") (getProp orderData "customerEmail")
            "Order Confirmation").

Definition emailDown (orderData : JsVal) : Completion SendResult :=
  Throw "Mock email service temporarily unavailable".

Definition smsDown (orderData : JsVal) : Completion SendResult :=
  Throw "Mock SMS service temporarily unavailable".

Definition sampleOrder : JsVal :=
  JObj [("orderId", JStr "order-1"); ("customerEmail", JStr "a@b.com")].

(** *** Status updates, cancellations, statistics and health *)

(** All channel outcomes held by a history, order by order. *)
Definition outcomesOf (h : History) : list ChannelOutcome :=
  flat_map (fun kv => flat_map (fun e => notifications (entry_result e)) (snd kv)) h.

(** The object returned by [getNotificationStats()]. [successRate] is the
    percentage before it is rendered with two decimals. *)
Record Stats : Type := mkStats {
  totalNotifications : nat;
  successfulNotifications : nat;
  failedNotifications : nat;
  successRate : Q;
  totalOrders : nat
}.

(** [getNotificationStats()]: an outcome counts as successful when its
    status is ['success'] and as failed otherwise. *)
Definition getNotificationStats (h : History) : Stats :=
  let counted :=
    fold_left
      (fun acc o =>
         let '(total, successful, failed) := acc in
         if String.eqb (status o) "success"
         then (S total, S successful, failed)
         else (S total, successful, S failed))
      (outcomesOf h) (0, 0, 0)%nat in
  let '(total, successful, failed) := counted in
  mkStats total successful failed
    (if (0 <? total)%nat
     then inject_Z (Z.of_nat successful) / inject_Z (Z.of_nat total) * 100
     else 0)
    (List.length h).

(** The object returned by [checkHealth()]; [services] is absent from the
    answer given when a probe threw. *)
Record Health : Type := mkHealth {
  health_status : string;
  health_services : option (string * string);
  health_error : option string
}.

Section Senders.

Variable channels : Channels.
Variable nowISO : string.
Variable numToString : Q -> string.

(** The other senders of the two services: [sendStatusUpdateEmail],
    [sendCancellationEmail], [sendShippingNotificationSMS], and the answers
    of the two [isHealthy()] probes. *)
Variable statusEmail : JsVal -> Completion SendResult.
Variable cancellationEmail : JsVal -> Completion SendResult.
Variable shippingSms : JsVal -> Completion SendResult.
Variable emailHealthy : Completion bool.
Variable smsHealthy : Completion bool.

(** The entry pushed for one attempt on a channel. *)
Definition outcomeOf (name : string) (attempt : Completion SendResult) : ChannelOutcome :=
  match attempt with
  | Normal r => mkChannelOutcome name "success" (Some r) None
  | Throw m => mkChannelOutcome name "failed" None (Some m)
  end.

(** [sendStatusUpdateNotification(orderData)]: the email is always tried,
    the SMS only when the status is ['shipped']. The result object also
    carries [newStatus], returned here beside the record; the history keeps
    the record. *)
Definition sendStatusUpdateNotification (orderData : JsVal) (h : History)
  : Completion (NotificationRecord * JsVal) * History :=
  match announced numToString orderData with
  | Throw m => (Throw m, h)
  | Normal _ =>
      match toStr numToString (getProp orderData "status") with
      | Throw m => (Throw m, h)
      | Normal _ =>
          let id := getProp orderData "orderId" in
          let email := [outcomeOf "email" (statusEmail orderData)] in
          let sms :=
            if strictEqStr (getProp orderData "status") "shipped"
            then [outcomeOf "sms" (shippingSms orderData)]
            else [] in
          let results := mkNotificationRecord id (email ++ sms) nowISO in
          (Normal (results, getProp orderData "status"),
           storeNotificationHistory nowISO h id "STATUS_UPDATE" results)
      end
  end.

(** [sendCancellationNotification(orderData)]; the result object also
    carries [cancellationReason], returned here beside the record. *)
Definition sendCancellationNotification (orderData : JsVal) (h : History)
  : Completion (NotificationRecord * JsVal) * History :=
  match announced numToString orderData with
  | Throw m => (Throw m, h)
  | Normal _ =>
      let id := getProp orderData "orderId" in
      let results :=
        mkNotificationRecord id [outcomeOf "email" (cancellationEmail orderData)]
          nowISO in
      (Normal (results, getProp orderData "cancellationReason"),
       storeNotificationHistory nowISO h id "ORDER_CANCELLATION" results)
  end.

(** [checkHealth()]: the SMS probe is awaited after the email probe; a probe
    that throws ends the [try] block. *)
Definition checkHealth : Health :=
  match emailHealthy with
  | Throw m => mkHealth "unhealthy" None (Some m)
  | Normal emailHealth =>
      match smsHealthy with
      | Throw m => mkHealth "unhealthy" None (Some m)
      | Normal smsHealth =>
          mkHealth
            (if emailHealth && smsHealth then "healthy" else "degraded")
            (Some (if emailHealth then "healthy" else "unhealthy",
                   if smsHealth then "healthy" else "unhealthy"))
            None
      end
  end.

End Senders.

(** A shipped order and a confirmed one. *)
Definition shippedOrder : JsVal :=
  JObj [("orderId", JStr "order-1"); ("status", JStr "shipped")].

Definition confirmedOrder : JsVal :=
  JObj [("orderId", JStr "order-1"); ("status", JStr "confirmed")].

End Notification.

(** ** Event handler: OrderEventHandler *)

Module Handler.

(** [processedEvents] is a JavaScript [Set] of strings: it iterates in
    insertion order and holds no duplicates. *)
Definition StringSet : Type := list string.

Definition setHas (x : string) (s : StringSet) : bool :=
  existsb (String.eqb x) s.

Definition setAdd (x : string) (s : StringSet) : StringSet :=
  if setHas x s then s else s ++ [x].

(** [arr.slice(-n)]: the last [n] elements (all of them when shorter). *)
Definition sliceLast {A} (n : nat) (l : list A) : list A :=
  skipn (List.length l - n)%nat l.

(** The clean-up block: when the set holds more than 1000 identities it is
    cleared and refilled from the last 500 of its insertion order. *)
Definition trim (s : StringSet) : StringSet :=
  if (1000 <? List.length s)%nat then
    fold_left (fun acc id => setAdd id acc) (sliceLast 500 s) []
  else s.

Section Handler.

(** State of the injected notification service and its
    [sendOrderConfirmation]. *)
Variable NS : Type.
Variable sendOrderConfirmation :
  JsVal -> NS -> Completion Notification.NotificationRecord * NS.

(** Rendering of a number inside a template literal. *)
Variable numToString : Q -> string.

(** [isValidEvent(event)] *)
Definition isValidEvent (event : JsVal) : bool :=
  truthy event &&
  typeofObject event &&
  truthy (getProp event "type") &&
  truthy (getProp event "timestamp") &&
  truthy (getProp event "data") &&
  typeofObject (getProp event "data").

(** [a || b] on values. *)
Definition orElse (a b : JsVal) : JsVal := if truthy a then a else b.

(** [event.data?.orderId] *)
Definition dataOrderId (event : JsVal) : JsVal :=
  match getProp event "data" with
  | JUndefined | JNull => JUndefined
  | d => getProp d "orderId"
  end.

(** [generateEventId(event)]; [dateNow] is the reading of [Date.now()].
    The template literal converts its three values from left to right and
    throws at the first one that does not convert. *)
Definition generateEventId (dateNow : Q) (event : JsVal) : Completion string :=
  let orderId := orElse (dataOrderId event) (JStr "unknown") in
  let timestamp := orElse (getProp event "timestamp") (JNum dateNow) in
  let type := getProp event "type" in
  try! t <- toStr numToString type ;;
  try! o <- toStr numToString orderId ;;
  try! ts <- toStr numToString timestamp ;;
  Normal (t ++ "-" ++ o ++ "-" ++ ts)%string.

(** What one call of [handle] prints and whom it calls, in order. *)
Inductive Effect : Type :=
| WarnInvalid (event : JsVal)
| LogDuplicate (type : JsVal) (eventId : string)
| LogProcessing (type orderId : JsVal)
| LogIgnoring (type : JsVal)
| LogNewOrder (orderId customerEmail : string)
| CallSendOrderConfirmation (orderData : JsVal)
| LogSent (n successful : nat)
| LogSendFailed (message : string)
| LogSuccess (type : JsVal) (eventId : string)
| LogFailed (message : string).

(** The handler object: its dedup set and its notification service. *)
Record State : Type := mkState {
  processedEvents : StringSet;
  notificationService : NS
}.

(** The template literal that opens [handleOrderCreated]: the order id,
    then the customer e-mail, each converted as it is read. *)
Definition newOrderLine (orderData : JsVal) : Completion (string * string) :=
  try! o <- toStr numToString (getProp orderData "orderId") ;;
  try! c <- toStr numToString (getProp orderData "customerEmail") ;;
  Normal (o, c).

(** [handleOrderCreated(event)]: the opening line is printed outside the
    [try] block, so a conversion that throws there leaves the function
    before the notification service is called. *)
Definition handleOrderCreated (event : JsVal) (ns : NS)
  : Completion unit * NS * list Effect :=
  let orderData := getProp event "data" in
  match newOrderLine orderData with
  | Throw m => (Throw m, ns, [])
  | Normal (o, c) =>
      match sendOrderConfirmation orderData ns with
      | (Normal r, ns') =>
          (Normal tt, ns',
           [ LogNewOrder o c;
             CallSendOrderConfirmation orderData;
             LogSent (List.length (Notification.notifications r))
                     (Notification.countStatus "success" r) ])
      | (Throw m, ns') =>
          (Throw m, ns',
           [LogNewOrder o c; CallSendOrderConfirmation orderData; LogSendFailed m])
      end
  end.

(** [handle(event)]. Every statement after the validity test is inside the
    [try] block, whose [catch] prints the error and re-throws it. The lines
    printed for a duplicate, for the processing and for an ignored type
    convert values that [generateEventId] has converted before, or a missing
    order id, and do not throw. *)
Definition handle (dateNow : Q) (event : JsVal) (st : State)
  : Completion unit * State * list Effect :=
  if negb (isValidEvent event) then (Normal tt, st, [WarnInvalid event])
  else
    let type := getProp event "type" in
    match generateEventId dateNow event with
    | Throw m => (Throw m, st, [LogFailed m])
    | Normal eventId =>
        if setHas eventId (processedEvents st) then
          (Normal tt, st, [LogDuplicate type eventId])
        else
          let processing := LogProcessing type (dataOrderId event) in
          if strictEqStr type "ORDER_CREATED" then
            match handleOrderCreated event (notificationService st) with
            | (Normal _, ns', tr) =>
                let marked := setAdd eventId (processedEvents st) in
                (Normal tt, mkState (trim marked) ns',
                 processing :: tr ++ [LogSuccess type eventId])
            | (Throw m, ns', tr) =>
                (Throw m, mkState (processedEvents st) ns',
                 processing :: tr ++ [LogFailed m])
            end
          else (Normal tt, st, [processing; LogIgnoring type])
    end.

(** Successive deliveries to one handler; a failed delivery leaves the
    handler in the state it reached. *)
Fixpoint handleAll (dateNow : Q) (events : list JsVal) (st : State)
  : State * list Effect :=
  match events with
  | [] => (st, [])
  | e :: rest =>
      let '(_, st1, tr1) := handle dateNow e st in
      let '(st2, tr2) := handleAll dateNow rest st1 in
      (st2, tr1 ++ tr2)
  end.

(** The calls to the orchestrator recorded in a trace. *)
Definition sendCalls (tr : list Effect) : list JsVal :=
  flat_map (fun e => match e with
                     | CallSendOrderConfirmation d => [d]
                     | _ => []
                     end) tr.

End Handler.

(** *** Test doubles and sample events *)

(** A notification service that counts its calls and always succeeds. *)
Definition countingService (orderData : JsVal) (calls : nat)
  : Completion Notification.NotificationRecord * nat :=
  (Normal (Notification.mkNotificationRecord (getProp orderData "orderId")
             [Notification.mkChannelOutcome "email" "success" None None] "t"),
   S calls).

Definition sampleEvent (type : string) (data : list (string * JsVal)) : JsVal :=
  JObj [ ("type", JStr type);
         ("timestamp", JStr "2024-01-01T00:00:00.000Z");
         ("version", JStr "1.0");
         ("source", JStr "order-service");
         ("data", JObj data) ].

Definition orderCreatedSample : JsVal :=
  sampleEvent "ORDER_CREATED"
    [("orderId", JStr "order-1"); ("customerEmail", JStr "a@b.com")].

Definition healthCheckSample : JsVal :=
  sampleEvent "HEALTH_CHECK" [("status", JStr "healthy")].

(** An event of another type whose identity is the one of
    [orderCreatedSample]. *)
Definition collidingSample : JsVal :=
  sampleEvent "ORDER_CREATED-order" [("orderId", JStr "1")].

(** Two orders of different customers, neither carrying an order id. *)
Definition anonymousSample (email : string) : JsVal :=
  sampleEvent "ORDER_CREATED" [("customerEmail", JStr email)].

(** [n] distinct identities, oldest first. *)
Definition sampleIds (n : nat) : StringSet :=
  map (fun i => ("ORDER_CREATED-" ++ nat_to_string i ++ "-t")%string) (seq 0 n).

(** The orchestrator of the source behind the handler, with a delivering
    email sender and an SMS sender that is down. *)
Definition emailOnlyService
  : JsVal -> Notification.History ->
    Completion Notification.NotificationRecord * Notification.History :=
  Notification.sendOrderConfirmation
    (Notification.mkChannels (Notification.deliver "email") Notification.smsDown) "t"
    renderInteger.

(** The handler under test: fresh, and with a full dedup set. *)
Definition sampleHandle := handle nat countingService renderInteger.

Definition freshState : State nat := mkState nat [] 0%nat.

Definition fullState : State nat := mkState nat (sampleIds 1000) 0%nat.

(** A notification service that counts its calls and always throws. *)
Definition throwingService (orderData : JsVal) (calls : nat)
  : Completion Notification.NotificationRecord * nat :=
  (Throw "notification backend down", S calls).

(** An envelope without a timestamp. *)
Definition untimedSample : JsVal :=
  JObj [ ("type", JStr "ORDER_CREATED");
         ("data", JObj [("orderId", JStr "order-1")]) ].

(** An order whose customer e-mail is an object with a [toString]
    property of its own, as [JSON.parse] gives for
    [{"toString": 1}]. *)
Definition unprintableSample : JsVal :=
  sampleEvent "ORDER_CREATED"
    [ ("orderId", JStr "order-3");
      ("customerEmail", JObj [("toString", JNum 1)]) ].

(** Deliveries that may follow the sample event. *)
Definition laterDeliveries : list JsVal :=
  [ healthCheckSample; anonymousSample "a@b.com"; untimedSample;
    sampleEvent "ORDER_CREATED" [("orderId", JStr "order-2")] ].

(** A decision procedure for the absence of duplicates. *)
Fixpoint nodupb (l : StringSet) : bool :=
  match l with
  | [] => true
  | x :: rest => negb (setHas x rest) && nodupb rest
  end.

End Handler.

(** ** Kafka consumer: OrderEventConsumer *)

Module Consumer.

(** A record delivered by the broker; buffers are read through
    [toString()]. *)
Record Message : Type := mkMessage {
  value : string;
  key : option string;
  offset : string;
  timestamp : string;
  headers : option (list (string * string))
}.

(** What the consumer prints and whom it calls for one record. *)
Inductive Effect : Type :=
| LogParseFailed (message : string)
| LogReceived (type orderId : JsVal)
| CallHeartbeat
| CallHandle (event : JsVal)
| LogProcessed (type : JsVal)
| LogProcessFailed (message : string)
| LogEachMessageError (message : string).

Section Consumer.

(** The injected handler, with the state it owns. *)
Variable HS : Type.
Variable handle : JsVal -> HS -> Completion unit * HS.

(** [JSON.parse], the [heartbeat] callback of the client library, the
    clock, and the message of the [TypeError] raised by an assignment to a
    property of a value that cannot hold one. *)
Variable JSON_parse : string -> Completion JsVal.
Variable heartbeat : Completion unit.
Variable nowISO : string.
Variable typeErrorMessage : JsVal -> string.

(** The object literal assigned to [event.metadata]. *)
Definition metadataOf (message : Message) : JsVal :=
  let hs := match headers message with
            | Some l => map (fun kv => (fst kv, JStr (snd kv))) l
            | None => []
            end in
  JObj [ ("headers", JObj hs);
         ("key", match key message with Some k => JStr k | None => JUndefined end);
         ("offset", JStr (offset message));
         ("timestamp", JStr (timestamp message));
         ("receivedAt", JStr nowISO) ].

(** [parseMessage(message)]: every failure inside the [try] block is
    re-thrown as a parsing failure. An array keeps its elements; the extra
    property it receives is not an element and is not represented. *)
Definition parseMessage (message : Message) : Completion JsVal * list Effect :=
  let failed m := (Throw ("Message parsing failed: " ++ m), [LogParseFailed m]) in
  match JSON_parse (value message) with
  | Throw m => failed m
  | Normal (JObj props) =>
      (Normal (JObj (setProp "metadata" (metadataOf message) props)), [])
  | Normal (JArr elems) => (Normal (JArr elems), [])
  | Normal v => failed (typeErrorMessage v)
  end.

(** [processMessage(topic, partition, message, heartbeat)]; the [catch]
    block logs and re-throws. *)
Definition processMessage (message : Message) (hs : HS)
  : Completion unit * HS * list Effect :=
  match parseMessage message with
  | (Throw m, tr) => (Throw m, hs, tr ++ [LogProcessFailed m])
  | (Normal event, tr) =>
      let received :=
        LogReceived (getProp event "type")
                    (getProp (getProp event "data") "orderId") in
      match heartbeat with
      | Throw m =>
          (Throw m, hs, tr ++ [received; CallHeartbeat; LogProcessFailed m])
      | Normal _ =>
          match handle event hs with
          | (Throw m, hs') =>
              (Throw m, hs',
               tr ++ [received; CallHeartbeat; CallHandle event; LogProcessFailed m])
          | (Normal _, hs') =>
              (Normal tt, hs',
               tr ++ [received; CallHeartbeat; CallHandle event;
                      LogProcessed (getProp event "type")])
          end
      end
  end.

(** The [eachMessage] callback registered by [start()]; its [catch] block
    prints the error and does not re-throw. *)
Definition eachMessage (message : Message) (hs : HS)
  : Completion unit * HS * list Effect :=
  match processMessage message hs with
  | (Throw m, hs', tr) => (Normal tt, hs', tr ++ [LogEachMessageError m])
  | (Normal _, hs', tr) => (Normal tt, hs', tr)
  end.

(** [processBatch(batch, resolveOffset, heartbeat)]: the records are
    processed in order, the offset of each processed record is resolved, and
    the loop is left at the first record whose processing throws. The result
    holds the resolved offsets in order and the effects of the calls of
    [processMessage]. *)
Fixpoint processBatch (messages : list Message) (hs : HS)
  : HS * list string * list Effect :=
  match messages with
  | [] => (hs, [], [])
  | message :: rest =>
      match processMessage message hs with
      | (Normal _, hs', tr) =>
          let '(hs'', resolved, tr') := processBatch rest hs' in
          (hs'', offset message :: resolved, tr ++ tr')
      | (Throw _, hs', tr) => (hs', [], tr)
      end
  end.

End Consumer.

(** *** Life cycle of the consumer *)

(** The calls made on the Kafka client. *)
Inductive ClientCall : Type :=
| CreateConsumer
| Connect
| Subscribe
| Run
| Disconnect
| PauseTopic
| ResumeTopic.

(** The fields [consumer] (created or still [null]) and [isRunning]. *)
Record Lifecycle : Type := mkLifecycle {
  created : bool;
  isRunning : bool
}.

Section Lifecycle.

(** How the client answers each call. *)
Variable client : ClientCall -> Completion unit.

(** [start()]: create, connect, subscribe, set [isRunning], run; the [catch]
    block clears [isRunning] and re-throws. *)
Definition start (st : Lifecycle) : Completion unit * Lifecycle * list ClientCall :=
  match client CreateConsumer with
  | Throw m => (Throw m, mkLifecycle (created st) false, [CreateConsumer])
  | Normal _ =>
      match client Connect with
      | Throw m => (Throw m, mkLifecycle true false, [CreateConsumer; Connect])
      | Normal _ =>
          match client Subscribe with
          | Throw m =>
              (Throw m, mkLifecycle true false, [CreateConsumer; Connect; Subscribe])
          | Normal _ =>
              match client Run with
              | Throw m =>
                  (Throw m, mkLifecycle true false,
                   [CreateConsumer; Connect; Subscribe; Run])
              | Normal _ =>
                  (Normal tt, mkLifecycle true true,
                   [CreateConsumer; Connect; Subscribe; Run])
              end
          end
      end
  end.

(** [stop()] *)
Definition stop (st : Lifecycle) : Completion unit * Lifecycle * list ClientCall :=
  let st' := mkLifecycle (created st) false in
  if created st then
    match client Disconnect with
    | Throw m => (Throw m, st', [Disconnect])
    | Normal _ => (Normal tt, st', [Disconnect])
    end
  else (Normal tt, st', []).

(** [isHealthy()] *)
Definition isHealthy (st : Lifecycle) : bool := isRunning st && created st.

(** [pause()] and [resume()] *)
Definition pause (st : Lifecycle) : Completion unit * Lifecycle * list ClientCall :=
  if created st && isRunning st then (client PauseTopic, st, [PauseTopic])
  else (Normal tt, st, []).

Definition resume (st : Lifecycle) : Completion unit * Lifecycle * list ClientCall :=
  if created st && isRunning st then (client ResumeTopic, st, [ResumeTopic])
  else (Normal tt, st, []).

End Lifecycle.

(** How often the handler was called in a trace. *)
Definition handleCalls (tr : list Effect) : nat :=
  List.length (filter (fun e => match e with CallHandle _ => true | _ => false end) tr).

(** *** Test doubles: a handler that always fails, a parser that knows one
    payload, and a record carrying that payload. *)

Definition failingHandle (event : JsVal) (hs : unit) : Completion unit * unit :=
  (Throw "notification backend down", hs).

Definition parseSample (text : string) : Completion JsVal :=
  if String.eqb text "{order-created}" then
    Normal (JObj [ ("type", JStr "ORDER_CREATED");
                   ("timestamp", JStr "2024-01-01T00:00:00.000Z");
                   ("data", JObj [("orderId", JStr "order-1")]) ])
  else Throw "Unexpected token".

Definition sampleMessage : Message :=
  mkMessage "{order-created}" (Some "order-1") "42" "1704067200000" None.

Definition noTypeError (v : JsVal) : string := "Cannot create property 'metadata'".

(** A record whose payload is not JSON, and a heartbeat that fails. *)
Definition garbledMessage : Message :=
  mkMessage "not json" (Some "order-1") "43" "1704067200001" None.

Definition lostHeartbeat : Completion unit := Throw "The coordinator is not aware of this member".

(** A handler that counts the events it accepts. *)
Definition countingHandle (event : JsVal) (n : nat) : Completion unit * nat :=
  (Normal tt, S n).

(** A client whose broker refuses the subscription, and one that works. *)
Definition refusingClient (c : ClientCall) : Completion unit :=
  match c with
  | Subscribe => Throw "This server does not host this topic-partition"
  | _ => Normal tt
  end.

Definition workingClient (c : ClientCall) : Completion unit := Normal tt.

End Consumer.

(** ** Event schemas: EventValidator and EventBuilder *)

Module Schema.

(** The part of the Joi schema language that the event schemas use.
    Joi is a library, not code of this repository; its validation is modelled
    with its default options, as the schemas are called here:
    [allowUnknown] and [stripUnknown] are off, [abortEarly] is on, keys are
    optional unless marked [required()]. *)

Inductive Presence : Type :=
| Required
| Optional
| Default (v : JsVal).

Inductive StringFormat : Type :=
| Plain
| Uuid
| Email.

Inductive Schema : Type :=
| SString (format : StringFormat) (valid : list string)
| SNumber (integer : bool) (minimum : option Q) (positive : bool)
| SDateIso
| SAnyObject
| SObject (keys : list (string * (Presence * Schema)))
| SArray (items : Schema) (minLength : nat).

(** The [type] of a Joi error detail. *)
Inductive ErrorType : Type :=
| any_required
| any_only
| object_unknown
| object_base
| string_base
| string_empty
| string_guid
| string_email
| number_base
| number_unsafe
| number_integer
| number_min
| number_positive
| date_format
| array_base
| array_min.

(** A Joi error detail: where and what. *)
Record JoiError : Type := mkJoiError {
  path : list string;
  type : ErrorType
}.

Definition JoiResult : Type := (JoiError + JsVal)%type.

(** [schema.keys({...})]: the keys of the base that the extension declares
    again are removed, and the keys of the extension are appended in their
    order. *)
Definition extendKeys (base ext : list (string * (Presence * Schema)))
  : list (string * (Presence * Schema)) :=
  filter (fun kd => negb (existsb (String.eqb (fst kd)) (map fst ext))) base ++ ext.

(** The first own key of an object that the schema does not declare. *)
Definition unknownKey (declared : list string) (props : list (string * JsVal))
  : option string :=
  match find (fun kv => negb (existsb (String.eqb (fst kv)) declared)) props with
  | Some kv => Some (fst kv)
  | None => None
  end.

Definition qIsInteger (q : Q) : bool :=
  Pos.eqb (Qden (Qred q)) 1.

(** A number beyond [Number.MAX_SAFE_INTEGER] on either side. *)
Definition qIsUnsafe (q : Q) : bool :=
  negb (Qle_bool q 9007199254740991) || negb (Qle_bool (- (9007199254740991)) q).

Section Joi.

(** Recognisers of the library that are taken as given: GUID and e-mail
    syntax, ISO-8601 dates, and the conversion of a numeric string. *)
Variable isUuid : string -> bool.
Variable isEmail : string -> bool.
Variable isIsoDate : string -> bool.
Variable parseNumber : string -> option Q.

Definition validateString (format : StringFormat) (valid : list string)
    (at_ : list string) (v : JsVal) : JoiResult :=
  match valid with
  | _ :: _ =>
      match v with
      | JStr s => if existsb (String.eqb s) valid then inr v
                  else inl (mkJoiError at_ any_only)
      | _ => inl (mkJoiError at_ any_only)
      end
  | [] =>
      match v with
      | JStr s =>
          if String.eqb s "" then inl (mkJoiError at_ string_empty)
          else match format with
               | Plain => inr v
               | Uuid => if isUuid s then inr v else inl (mkJoiError at_ string_guid)
               | Email => if isEmail s then inr v else inl (mkJoiError at_ string_email)
               end
      | _ => inl (mkJoiError at_ string_base)
      end
  end.

Definition validateNumber (integer : bool) (minimum : option Q) (positive : bool)
    (at_ : list string) (v : JsVal) : JoiResult :=
  let n := match v with
           | JNum q => Some q
           | JStr s => parseNumber s
           | _ => None
           end in
  match n with
  | None => inl (mkJoiError at_ number_base)
  | Some q =>
      if qIsUnsafe q then inl (mkJoiError at_ number_unsafe)
      else if integer && negb (qIsInteger q) then inl (mkJoiError at_ number_integer)
      else if match minimum with
              | Some m => negb (Qle_bool m q)
              | None => false
              end then inl (mkJoiError at_ number_min)
      else if positive && Qle_bool q 0 then inl (mkJoiError at_ number_positive)
      else inr (JNum q)
  end.

(** The visit of the declared keys of an object schema, in schema order:
    [props] is the object under validation, [out] the copy being built. *)
Definition visitKeys (validateChild : Schema -> list string -> JsVal -> JoiResult)
    (at_ : list string) (props : list (string * JsVal))
  : list (string * (Presence * Schema)) -> list (string * JsVal) ->
    JoiError + list (string * JsVal) :=
  fix visit ks out :=
    match ks with
    | [] => inr out
    | (k, (presence, child)) :: rest =>
        match getProp (JObj props) k with
        | JUndefined =>
            match presence with
            | Required => inl (mkJoiError (at_ ++ [k]) any_required)
            | Optional => visit rest out
            | Default d => visit rest (setProp k d out)
            end
        | x =>
            match validateChild child (at_ ++ [k]) x with
            | inl e => inl e
            | inr x' => visit rest (setProp k x' out)
            end
        end
    end.

(** The visit of the elements of an array. *)
Definition visitItems (validateItem : list string -> JsVal -> JoiResult)
    (at_ : list string) : nat -> list JsVal -> JoiError + list JsVal :=
  fix visit i l :=
    match l with
    | [] => inr []
    | x :: rest =>
        match validateItem (at_ ++ [nat_to_string i]) x with
        | inl e => inl e
        | inr x' =>
            match visit (S i) rest with
            | inl e => inl e
            | inr rest' => inr (x' :: rest')
            end
        end
    end.

(** [schema.validate(value)]: the error of the first failing rule, or the
    validated copy of the value. For an object the declared keys are
    visited first; a key that is not declared is then reported. A date
    that passes is kept in the copy as the text it was read from: the
    [Date] object that the library puts in its place has no counterpart
    among the values of [JsVal]. *)
Fixpoint validateAt (schema : Schema) (at_ : list string) (v : JsVal) : JoiResult :=
  match schema with
  | SString format valid => validateString format valid at_ v
  | SNumber integer minimum positive => validateNumber integer minimum positive at_ v
  | SDateIso =>
      match v with
      | JStr s => if isIsoDate s then inr v else inl (mkJoiError at_ date_format)
      | _ => inl (mkJoiError at_ date_format)
      end
  | SAnyObject =>
      match v with
      | JObj _ => inr v
      | _ => inl (mkJoiError at_ object_base)
      end
  | SObject keys =>
      match v with
      | JObj props =>
          match visitKeys validateAt at_ props keys props with
          | inl e => inl e
          | inr out =>
              match unknownKey (map fst keys) props with
              | Some k => inl (mkJoiError (at_ ++ [k]) object_unknown)
              | None => inr (JObj out)
              end
          end
      | _ => inl (mkJoiError at_ object_base)
      end
  | SArray items minLength =>
      match v with
      | JArr elems =>
          match visitItems (validateAt items) at_ 0%nat elems with
          | inl e => inl e
          | inr elems' =>
              if (List.length elems' <? minLength)%nat
              then inl (mkJoiError at_ array_min)
              else inr (JArr elems')
          end
      | _ => inl (mkJoiError at_ array_base)
      end
  end.

Definition joiValidate (schema : Schema) (v : JsVal) : JoiResult :=
  validateAt schema [] v.

(** *** The schemas of the source *)

Definition str : Schema := SString Plain [].

Definition baseEventKeys : list (string * (Presence * Schema)) :=
  [ ("id", (Required, SString Uuid []));
    ("type", (Required, str));
    ("timestamp", (Required, SDateIso));
    ("version", (Default (JStr "1.0"), str));
    ("source", (Required, str));
    ("data", (Required, SAnyObject));
    ("metadata", (Optional, SAnyObject)) ].

Definition baseEventSchema : Schema := SObject baseEventKeys.

Definition customerInfoSchema : Schema :=
  SObject [ ("email", (Required, SString Email []));
            ("phone", (Optional, str));
            ("name", (Required, str)) ].

Definition orderCreatedEventSchema : Schema :=
  SObject (extendKeys baseEventKeys
    [ ("type", (Required, SString Plain ["ORDER_CREATED"]));
      ("data", (Required, SObject
        [ ("orderId", (Required, str));
          ("userId", (Required, str));
          ("items", (Required, SArray
             (SObject [ ("productId", (Required, str));
                        ("name", (Required, str));
                        ("quantity", (Required, SNumber true (Some 1) false));
                        ("price", (Required, SNumber false None true)) ]) 1));
          ("totalAmount", (Required, SNumber false None true));
          ("shippingAddress", (Required, SObject
             [ ("street", (Required, str));
               ("city", (Required, str));
               ("state", (Required, str));
               ("zipCode", (Required, str));
               ("country", (Required, str)) ]));
          ("paymentMethod", (Required, str));
          ("customerInfo", (Required, customerInfoSchema)) ])) ]).

Definition orderStatuses : list string :=
  ["PENDING"; "CONFIRMED"; "PROCESSING"; "SHIPPED"; "DELIVERED"; "CANCELLED"].

Definition orderStatusUpdatedEventSchema : Schema :=
  SObject (extendKeys baseEventKeys
    [ ("type", (Required, SString Plain ["ORDER_STATUS_UPDATED"]));
      ("data", (Required, SObject
        [ ("orderId", (Required, str));
          ("userId", (Required, str));
          ("oldStatus", (Required, SString Plain orderStatuses));
          ("newStatus", (Required, SString Plain orderStatuses));
          ("reason", (Optional, str));
          ("updatedBy", (Optional, str));
          ("estimatedDelivery", (Optional, SDateIso));
          ("trackingNumber", (Optional, str));
          ("customerInfo", (Required, customerInfoSchema)) ])) ]).

Definition orderCancelledEventSchema : Schema :=
  SObject (extendKeys baseEventKeys
    [ ("type", (Required, SString Plain ["ORDER_CANCELLED"]));
      ("data", (Required, SObject
        [ ("orderId", (Required, str));
          ("userId", (Required, str));
          ("reason", (Required, str));
          ("refundAmount", (Optional, SNumber false None true));
          ("refundMethod", (Optional, str));
          ("cancelledBy", (Required, str));
          ("customerInfo", (Required, customerInfoSchema)) ])) ]).

Definition healthCheckEventSchema : Schema :=
  SObject (extendKeys baseEventKeys
    [ ("type", (Required, SString Plain ["HEALTH_CHECK"]));
      ("data", (Required, SObject
        [ ("service", (Required, str));
          ("status", (Required, SString Plain ["UP"; "DOWN"; "DEGRADED"]));
          ("checks", (Optional, SAnyObject));
          ("timestamp", (Required, SDateIso)) ])) ]).

(** [EVENT_TYPES] and the registry [eventSchemas]. *)
Definition EVENT_TYPES : list string :=
  ["ORDER_CREATED"; "ORDER_STATUS_UPDATED"; "ORDER_CANCELLED"; "HEALTH_CHECK"].

Definition eventSchemas : list (string * Schema) :=
  [ ("ORDER_CREATED", orderCreatedEventSchema);
    ("ORDER_STATUS_UPDATED", orderStatusUpdatedEventSchema);
    ("ORDER_CANCELLED", orderCancelledEventSchema);
    ("HEALTH_CHECK", healthCheckEventSchema) ].

Fixpoint schemaFor (t : string) (reg : list (string * Schema)) : option Schema :=
  match reg with
  | [] => None
  | (k, sch) :: rest => if String.eqb t k then Some sch else schemaFor t rest
  end.

(** Property names that an object literal inherits; indexing the registry
    with one of them yields a value that has no [validate] method. *)
Definition inheritedNames : list string :=
  [ "constructor"; "toString"; "valueOf"; "toLocaleString"; "hasOwnProperty";
    "isPrototypeOf"; "propertyIsEnumerable"; "__proto__"; "__defineGetter__";
    "__defineSetter__"; "__lookupGetter__"; "__lookupSetter__" ].

(** The object returned by [EventValidator.validate]. *)
Inductive ValidationResult : Type :=
| Valid (event : JsVal)
| BaseValidationFailed (e : JoiError)
| UnknownEventType (type : string) (supportedTypes : list string)
| EventValidationFailed (e : JoiError)
| ValidationError.

Definition isValid (r : ValidationResult) : bool :=
  match r with Valid _ => true | _ => false end.

(** [EventValidator.validate(event)] *)
Definition validate (event : JsVal) : ValidationResult :=
  match event, joiValidate baseEventSchema event with
  | JUndefined, _ => ValidationError
  | _, inl e => BaseValidationFailed e
  | _, inr _ =>
      match getProp event "type" with
      | JStr t =>
          match schemaFor t eventSchemas with
          | Some eventSchema =>
              match joiValidate eventSchema event with
              | inl e => EventValidationFailed e
              | inr value => Valid value
              end
          | None =>
              if existsb (String.eqb t) inheritedNames then ValidationError
              else UnknownEventType t EVENT_TYPES
          end
      | _ => ValidationError
      end
  end.

End Joi.

(** [EventBuilder.createOrderCreatedEvent(orderData, source)]; [uuid] is the
    value of [crypto.randomUUID()], [nowISO] the clock reading, and an
    omitted [source] is [JUndefined]. *)
Definition createOrderCreatedEvent (uuid nowISO : string) (orderData source : JsVal)
  : JsVal :=
  JObj [ ("id", JStr uuid);
         ("type", JStr "ORDER_CREATED");
         ("timestamp", JStr nowISO);
         ("version", JStr "1.0");
         ("source", match source with
                    | JUndefined => JStr "order-service"
                    | _ => source
                    end);
         ("data", orderData) ].

(** [EventBuilder.createOrderStatusUpdatedEvent(updateData, source)] *)
Definition createOrderStatusUpdatedEvent (uuid nowISO : string)
    (updateData source : JsVal) : JsVal :=
  JObj [ ("id", JStr uuid);
         ("type", JStr "ORDER_STATUS_UPDATED");
         ("timestamp", JStr nowISO);
         ("version", JStr "1.0");
         ("source", match source with
                    | JUndefined => JStr "order-service"
                    | _ => source
                    end);
         ("data", updateData) ].

(** [EventBuilder.createOrderCancelledEvent(cancelData, source)] *)
Definition createOrderCancelledEvent (uuid nowISO : string)
    (cancelData source : JsVal) : JsVal :=
  JObj [ ("id", JStr uuid);
         ("type", JStr "ORDER_CANCELLED");
         ("timestamp", JStr nowISO);
         ("version", JStr "1.0");
         ("source", match source with
                    | JUndefined => JStr "order-service"
                    | _ => source
                    end);
         ("data", cancelData) ].

(** [EventBuilder.createHealthCheckEvent(healthData, source)]: [source] has
    no default here. *)
Definition createHealthCheckEvent (uuid nowISO : string)
    (healthData source : JsVal) : JsVal :=
  JObj [ ("id", JStr uuid);
         ("type", JStr "HEALTH_CHECK");
         ("timestamp", JStr nowISO);
         ("version", JStr "1.0");
         ("source", source);
         ("data", healthData) ].

(** [EventValidator.getSchema(eventType)]: [None] is [null]. *)
Definition getSchema (eventType : string) : option Schema :=
  schemaFor eventType eventSchemas.

(** [EventValidator.getSupportedTypes()] *)
Definition getSupportedTypes : list string := EVENT_TYPES.

(** The required fields of the envelope. *)
Definition requiredFields : list string :=
  ["id"; "type"; "timestamp"; "source"; "data"].

(** The own keys of an object, in order. *)
Definition keysOf (v : JsVal) : list string :=
  match v with
  | JObj props => map fst props
  | _ => []
  end.

(** The envelope fields of the data model that every event carries. *)
Definition envelopeFields : list string :=
  ["id"; "type"; "timestamp"; "version"; "source"; "data"].

Definition hasField (v : JsVal) (k : string) : bool :=
  existsb (String.eqb k) (keysOf v).

Definition hasEnvelopeFields (v : JsVal) : bool :=
  forallb (hasField v) envelopeFields.

(** *** Sample events

    The samples are checked with recognisers that accept every string, the
    most permissive ones. *)

Definition anyString (s : string) : bool := true.

Definition noNumber (s : string) : option Q := None.

Definition sampleValidate : JsVal -> ValidationResult :=
  validate anyString anyString anyString noNumber.




(** Recognisers that accept every non-empty string. *)
Definition nonEmpty (s : string) : bool := negb (String.eqb s "").

(** An order-created event in the shape of its schema. *)
Definition orderCreatedData : JsVal :=
  JObj [ ("orderId", JStr "order-1");
         ("userId", JStr "u1");
         ("items", JArr [ JObj [ ("productId", JStr "p1");
                                 ("name", JStr "Widget");
                                 ("quantity", JNum 2);
                                 ("price", JNum (999 # 100)) ] ]);
         ("totalAmount", JNum (1998 # 100));
         ("shippingAddress",
          JObj [ ("street", JStr "1 Main St"); ("city", JStr "Anytown");
                 ("state", JStr "NY"); ("zipCode", JStr "12345");
                 ("country", JStr "USA") ]);
         ("paymentMethod", JStr "credit_card");
         ("customerInfo",
          JObj [ ("email", JStr "a@b.com"); ("name", JStr "A") ]) ].

Definition builtOrderCreated : JsVal :=
  createOrderCreatedEvent "3f2b8c1e-5d4a-4c6b-9e7f-0a1b2c3d4e5f"
    "2024-01-01T00:00:00.000Z" orderCreatedData JUndefined.

(** An event of a type that has no schema, and an event without data. *)
Definition shippedEvent : JsVal :=
  JObj [ ("id", JStr "3f2b8c1e-5d4a-4c6b-9e7f-0a1b2c3d4e5f");
         ("type", JStr "ORDER_SHIPPED");
         ("timestamp", JStr "2024-01-01T00:00:00.000Z");
         ("source", JStr "order-service");
         ("data", JObj []) ].

Definition dataLessEvent : JsVal :=
  JObj [ ("id", JStr "3f2b8c1e-5d4a-4c6b-9e7f-0a1b2c3d4e5f");
         ("type", JStr "HEALTH_CHECK");
         ("timestamp", JStr "2024-01-01T00:00:00.000Z");
         ("source", JStr "order-service") ].

End Schema.

(** ** From the producer to the consumer *)

Module Pipeline.

(** The record that the broker hands to the consumer for a produced
    message: same key, value and timestamp, the offset the broker assigned,
    and the header values as text. *)
Definition delivered (headerText : JsVal -> string) (offset : string)
    (m : OrderIntake.KafkaMessage) : Consumer.Message :=
  Consumer.mkMessage
    (OrderIntake.msg_value m)
    (Some (OrderIntake.msg_key m))
    offset
    (OrderIntake.msg_timestamp m)
    (Some (map (fun kv => (fst kv, headerText (snd kv))) (OrderIntake.msg_headers m))).

(** The messages of the records sent in a trace of the order service. *)
Definition sentMessages (tr : list OrderIntake.Effect) : list OrderIntake.KafkaMessage :=
  flat_map (fun e => match e with
                     | OrderIntake.ProducerSend r => OrderIntake.pr_messages r
                     | OrderIntake.RepoSave _ => []
                     end) tr.

(** Header values as the broker returns them: the publisher sets strings. *)
Definition headerAsText (v : JsVal) : string :=
  match v with
  | JStr s => s
  | _ => ""
  end.

(** A serialiser and a parser that agree on the widget order's envelope. *)
Definition tagStringify (v : JsVal) : string :=
  match getProp v "type" with
  | JStr t => t
  | _ => "?"
  end.

Definition widgetEnvelope : JsVal :=
  OrderIntake.orderCreatedEvent _ OrderIntake.memoryEventData
    "2024-01-01T00:00:00.000Z" OrderIntake.widgetSaved.

Definition tagParse (text : string) : Completion JsVal :=
  if String.eqb text "ORDER_CREATED" then Normal widgetEnvelope
  else if String.eqb text "HEALTH_CHECK"
       then Normal (OrderIntake.healthEvent "2024-01-01T00:00:00.000Z")
       else Throw "Unexpected token".

End Pipeline.

(** ** The cart of the storefront *)

Module Cart.

Record CartItem : Type := mkCartItem {
  id : Q;
  title : string;
  price : Q;
  quantity : Q;
  image : string;
  stock : Q
}.

(** [Omit<CartItem, 'quantity'>], the payload of [addToCart]. *)
Record Product : Type := mkProduct {
  p_id : Q;
  p_title : string;
  p_price : Q;
  p_image : string;
  p_stock : Q
}.

Record CartState : Type := mkCartState {
  items : list CartItem;
  totalQuantity : Q;
  totalAmount : Q;
  isOpen : bool
}.

(** [a < b] on numbers. *)
Definition ltb (a b : Q) : bool := negb (Qle_bool b a).

(** [calculateTotals]: two [reduce]s from [0]. *)
Definition calculateTotals (items : list CartItem) : Q * Q :=
  (fold_left (fun sum item => sum + quantity item) items 0,
   fold_left (fun sum item => sum + price item * quantity item) items 0).

(** [items.find(item => item.id === i)] *)
Definition findItem (i : Q) (items : list CartItem) : option CartItem :=
  find (fun item => Qeq_bool (id item) i) items.

Definition withQuantity (q : Q) (item : CartItem) : CartItem :=
  mkCartItem (id item) (title item) (price item) q (image item) (stock item).

(** An assignment to [quantity] through the reference that [find] returned:
    the first item with that id changes, in place. *)
Fixpoint assignQuantity (i q : Q) (items : list CartItem) : list CartItem :=
  match items with
  | [] => []
  | item :: rest =>
      if Qeq_bool (id item) i then withQuantity q item :: rest
      else item :: assignQuantity i q rest
  end.

(** The end of the three reducers that change the items: the totals are
    recalculated and the items are handed to [saveCartToStorage], which
    swallows a failure of the storage. The second component lists the arrays
    written. *)
Definition recalculated (items : list CartItem) (isOpen : bool)
  : CartState * list (list CartItem) :=
  (mkCartState items (fst (calculateTotals items)) (snd (calculateTotals items)) isOpen,
   [items]).

Definition addToCart (state : CartState) (payload : Product)
  : CartState * list (list CartItem) :=
  let items' :=
    match findItem (p_id payload) (items state) with
    | Some existingItem =>
        if ltb (quantity existingItem) (stock existingItem) then
          assignQuantity (p_id payload) (quantity existingItem + 1) (items state)
        else items state
    | None =>
        items state ++
        [mkCartItem (p_id payload) (p_title payload) (p_price payload) 1
           (p_image payload) (p_stock payload)]
    end in
  recalculated items' (isOpen state).

Definition removeFromCart (state : CartState) (payload : Q)
  : CartState * list (list CartItem) :=
  recalculated
    (filter (fun item => negb (Qeq_bool (id item) payload)) (items state))
    (isOpen state).

Definition updateQuantity (state : CartState) (i q : Q)
  : CartState * list (list CartItem) :=
  let items' :=
    match findItem i (items state) with
    | Some item =>
        if ltb 0 q && Qle_bool q (stock item) then assignQuantity i q (items state)
        else items state
    | None => items state
    end in
  recalculated items' (isOpen state).

Definition clearCart (state : CartState) : CartState * list (list CartItem) :=
  (mkCartState [] 0 0 (isOpen state), [[]]).

Definition toggleCart (state : CartState) : CartState * list (list CartItem) :=
  (mkCartState (items state) (totalQuantity state) (totalAmount state)
     (negb (isOpen state)), []).

Definition setCartOpen (state : CartState) (payload : bool)
  : CartState * list (list CartItem) :=
  (mkCartState (items state) (totalQuantity state) (totalAmount state) payload, []).

(** The actions of the slice. *)
Inductive Action : Type :=
| AddToCart (payload : Product)
| RemoveFromCart (payload : Q)
| UpdateQuantity (i q : Q)
| ClearCart
| ToggleCart
| SetCartOpen (payload : bool).

Definition reducer (state : CartState) (action : Action)
  : CartState * list (list CartItem) :=
  match action with
  | AddToCart payload => addToCart state payload
  | RemoveFromCart payload => removeFromCart state payload
  | UpdateQuantity i q => updateQuantity state i q
  | ClearCart => clearCart state
  | ToggleCart => toggleCart state
  | SetCartOpen payload => setCartOpen state payload
  end.

(** The actions dispatched one after the other, with everything written to
    the storage on the way. *)
Fixpoint dispatchAll (actions : list Action) (state : CartState)
  : CartState * list (list CartItem) :=
  match actions with
  | [] => (state, [])
  | action :: rest =>
      let '(state1, w1) := reducer state action in
      let '(state2, w2) := dispatchAll rest state1 in
      (state2, w1 ++ w2)
  end.

(** [initialState], for the items found in the storage. *)
Definition initialState (initialItems : list CartItem) : CartState :=
  mkCartState initialItems (fst (calculateTotals initialItems))
    (snd (calculateTotals initialItems)) false.

(** The callback of [cartItems.map] in the checkout. The [thumbnail] it
    copies from [image] is read by no check of the order service and has no
    place in [RawItem]. *)
Definition orderItem (item : CartItem) : OrderIntake.RawItem :=
  OrderIntake.mkRawItem (Some (OrderIntake.IdNum (id item))) (Some (title item))
    (Some (quantity item)) (Some (price item)).

(** The [orderData] that the checkout builds; it carries no total. *)
Definition checkoutOrder (nowMillis : string) (cartItems : list CartItem)
  : OrderIntake.OrderData :=
  OrderIntake.mkOrderData
    (Some ("user-" ++ nowMillis)%string)
    (OrderIntake.ItemsArray (map orderItem cartItems))
    (Some "customer@example.com")
    (Some "Demo Customer")
    None.

(** The guards of [onCheckout] and the request it submits. *)
Inductive Checkout : Type :=
| AlertEmptyCart
| AlreadyCreating
| Submit (orderData : OrderIntake.OrderData).

Definition onCheckout (nowMillis : string) (cartItems : list CartItem)
    (isCreatingOrder : bool) : Checkout :=
  if (List.length cartItems =? 0)%nat then AlertEmptyCart
  else if isCreatingOrder then AlreadyCreating
  else Submit (checkoutOrder nowMillis cartItems).

(** *** Vocabulary of the statements *)

(** What the checks of the order service need of a cart line, beside its
    quantity. *)
Definition Sellable (item : CartItem) : Prop :=
  ~ id item == 0 /\ title item <> "" /\ 0 < price item.

Definition SellableProduct (p : Product) : Prop :=
  ~ p_id p == 0 /\ p_title p <> "" /\ 0 < p_price p.

Definition SellableAction (a : Action) : Prop :=
  match a with
  | AddToCart p => SellableProduct p
  | _ => True
  end.

(** The totals are those of the items, every quantity is positive and no
    two lines have the same id. *)
Record Consistent (state : CartState) : Prop := mkConsistent {
  quantity_total : totalQuantity state = fst (calculateTotals (items state));
  amount_total : totalAmount state = snd (calculateTotals (items state));
  positive_quantities : Forall (fun item => 0 < quantity item) (items state);
  one_line_per_id : NoDupA Qeq (map id (items state))
}.

(** *** Fixtures *)

Definition lamp : Product := mkProduct 7 "Lamp" (39 # 2) "lamp.png" 3.
Definition mug : Product := mkProduct 9 "Mug" 4 "mug.png" 10.

Definition shopping : list Action :=
  [ AddToCart lamp; AddToCart mug; ToggleCart; AddToCart lamp;
    UpdateQuantity 9 5; RemoveFromCart 7; AddToCart lamp ].

End Cart.

(** ** The rate limiter of the order service *)

Module RateLimit.

(** The [Map] of the closure: the request times kept for every key, in
    insertion order. *)
Definition Requests : Type := list (string * list Z).

Fixpoint mapGet (key : string) (m : Requests) : option (list Z) :=
  match m with
  | [] => None
  | (k, v) :: rest => if String.eqb k key then Some v else mapGet key rest
  end.

Fixpoint mapSet (key : string) (v : list Z) (m : Requests) : Requests :=
  match m with
  | [] => [(key, v)]
  | (k, v0) :: rest =>
      if String.eqb k key then (k, v) :: rest else (k, v0) :: mapSet key v rest
  end.

(** [Math.ceil(a / b)] for a positive [b]. *)
Definition ceilDiv (a b : Z) : Z := (- ((- a) / b))%Z.

Inductive Outcome : Type :=
| Next
| Respond (status : nat) (body : JsVal).

(** The middleware returned by [createRateLimit(windowMs, maxRequests)],
    for a request that arrives at [now] (in milliseconds) from [key]. *)
Definition rateLimit (windowMs maxRequests : Z) (now : Z) (key : string)
    (requests : Requests) : Outcome * Requests :=
  let windowStart := (now - windowMs)%Z in
  let requests1 :=
    match mapGet key requests with
    | Some times =>
        mapSet key (filter (fun time => (windowStart <? time)%Z) times) requests
    | None => requests
    end in
  let currentRequests :=
    match mapGet key requests1 with
    | Some times => times
    | None => []
    end in
  if (maxRequests <=? Z.of_nat (List.length currentRequests))%Z then
    (Respond 429
       (JObj [ ("success", JBool false);
               ("message", JStr "Too many requests, please try again later");
               ("retryAfter", JNum (inject_Z (ceilDiv windowMs 1000))) ]),
     requests1)
  else
    (Next, mapSet key (currentRequests ++ [now]) requests1).

(** The requests served one after the other by one middleware. *)
Fixpoint serve (windowMs maxRequests : Z) (reqs : list (Z * string))
    (requests : Requests) : list Outcome * Requests :=
  match reqs with
  | [] => ([], requests)
  | (now, key) :: rest =>
      let '(o, requests1) := rateLimit windowMs maxRequests now key requests in
      let '(os, requests2) := serve windowMs maxRequests rest requests1 in
      (o :: os, requests2)
  end.

(** *** Vocabulary of the statements *)

Definition isNext (o : Outcome) : bool :=
  match o with
  | Next => true
  | Respond _ _ => false
  end.

(** The times of the requests of [key] that were let through. *)
Fixpoint passed (key : string) (reqs : list (Z * string)) (outcomes : list Outcome)
  : list Z :=
  match reqs, outcomes with
  | (t, k) :: reqs', o :: outcomes' =>
      if String.eqb k key && isNext o then t :: passed key reqs' outcomes'
      else passed key reqs' outcomes'
  | _, _ => []
  end.

(** The times kept for [key]. *)
Definition kept (key : string) (m : Requests) : list Z :=
  match mapGet key m with
  | Some l => l
  | None => []
  end.

(** *** Fixtures *)

Definition burst : list (Z * string) :=
  [ (1000, "10.0.0.1"); (1200, "10.0.0.2"); (1400, "10.0.0.1");
    (1500, "10.0.0.1"); (2100, "10.0.0.1") ]%Z.

End RateLimit.

(** * Properties *)

(** ** Order intake *)

Module OrderIntakeFacts.
Import OrderIntake.

Lemma notPositive_false (n : option Q) :
  notPositive n = false -> exists q, n = Some q /\ 0 < q.
Proof.
  destruct n as [q|]; simpl; [|discriminate].
  intros H. apply orb_false_elim in H as [_ H].
  exists q. split; [reflexivity|].
  apply Qnot_le_lt. intros Hle.
  apply Qle_bool_iff in Hle. congruence.
Qed.

Lemma notPositive_true_le (q : Q) : q <= 0 -> notPositive (Some q) = true.
Proof.
  intros H. simpl. apply Qle_bool_iff in H. rewrite H. apply orb_true_r.
Qed.

Lemma validateItem_Normal (i : nat) (item : RawItem) :
  validateItem i item = Normal tt -> ItemOk item.
Proof.
  unfold validateItem, ItemOk.
  destruct (missingId (item_id item)); [discriminate|].
  destruct (missingStr (item_title item)); [discriminate|].
  destruct (notPositive (item_quantity item)) eqn:Hq; [discriminate|].
  destruct (notPositive (item_price item)) eqn:Hp; [discriminate|].
  intros _. repeat split; auto using notPositive_false.
Qed.

Lemma validateItem_rejected (i : nat) (item : RawItem) :
  ItemRejected item -> exists m, validateItem i item = Throw m.
Proof.
  intros H. unfold validateItem.
  destruct (missingId (item_id item)) eqn:Hid; [eauto|].
  destruct (missingStr (item_title item)) eqn:Ht; [eauto|].
  destruct (notPositive (item_quantity item)) eqn:Hq; [eauto|].
  destruct (notPositive (item_price item)) eqn:Hp; [eauto|].
  exfalso. destruct H as [H|H|H|q H Hle|H|q H Hle]; rewrite H in *;
    try discriminate.
  - rewrite (notPositive_true_le q Hle) in Hq. discriminate.
  - rewrite (notPositive_true_le q Hle) in Hp. discriminate.
Qed.

Lemma validateItems_Normal (l : list RawItem) :
  forall i u, validateItems i l = Normal u -> Forall ItemOk l.
Proof.
  induction l as [|item rest IH]; intros i u H; simpl in H.
  - constructor.
  - destruct (validateItem i item) as [[]|m] eqn:Hitem; simpl in H; [|discriminate].
    constructor; eauto using validateItem_Normal.
Qed.

Lemma validateItems_rejected (l : list RawItem) (item : RawItem) :
  In item l -> ItemRejected item ->
  forall i, exists m, validateItems i l = Throw m.
Proof.
  induction l as [|x rest IH]; intros Hin Hrej i; [contradiction|].
  simpl. destruct (validateItem i x) as [[]|m] eqn:Hx; simpl; [|eauto].
  destruct Hin as [->|Hin]; [|eauto].
  destruct (validateItem_rejected i item Hrej) as [m Hm]. congruence.
Qed.

(** What a passing validation establishes about the body. *)
Lemma validateOrderData_Normal (orderData : OrderData) (l : list RawItem) :
  validateOrderData orderData = Normal l ->
  od_items orderData = ItemsArray l /\ l <> [] /\ Forall ItemOk l /\
  missingStr (od_userId orderData) = false /\
  missingStr (od_customerEmail orderData) = false /\
  missingStr (od_customerName orderData) = false.
Proof.
  unfold validateOrderData.
  destruct (missingStr (od_userId orderData)); [discriminate|].
  destruct (od_items orderData) as [| |[|item rest]]; try discriminate.
  destruct (missingStr (od_customerEmail orderData)); [discriminate|].
  destruct (missingStr (od_customerName orderData)); [discriminate|].
  destruct (validateItems 0 (item :: rest)) as [u|m] eqn:Hitems; [|discriminate].
  simpl. intros [= <-].
  repeat split; try reflexivity; try discriminate.
  eapply validateItems_Normal; eauto.
Qed.

Lemma validateOrderData_rejected (orderData : OrderData) :
  InputRejected orderData -> exists m, validateOrderData orderData = Throw m.
Proof.
  intros H. unfold validateOrderData.
  destruct (missingStr (od_userId orderData)) eqn:Hu; [eauto|].
  destruct H as [H|H|H|H|H|l item H Hin Hrej].
  - rewrite H in Hu. discriminate.
  - rewrite H. simpl. destruct (od_items orderData) as [| |[|? ?]]; eauto.
  - rewrite H. simpl. destruct (od_items orderData) as [| |[|? ?]]; eauto.
    destruct (missingStr (od_customerEmail orderData)); eauto.
  - rewrite H. eauto.
  - rewrite H. eauto.
  - rewrite H. destruct l as [|x rest]; [contradiction|].
    destruct (missingStr (od_customerEmail orderData)); [eauto|].
    destruct (missingStr (od_customerName orderData)); [eauto|].
    destruct (validateItems_rejected (x :: rest) item Hin Hrej 0%nat) as [m Hm].
    rewrite Hm. simpl. eauto.
Qed.

Lemma fold_total (l : list RawItem) :
  Forall ItemOk l ->
  forall a, exists t,
    fold_left
      (fun total item => addNum total (mulNum (item_quantity item) (item_price item)))
      l (Some a) = Some t /\
    t == a + itemSum l.
Proof.
  induction 1 as [|item rest Hitem _ IH]; intros a; simpl.
  - exists a. split; [reflexivity|]. symmetry. apply Qplus_0_r.
  - destruct Hitem as (_ & _ & (q & Hq & _) & (p & Hp & _)).
    unfold lineAmount. rewrite Hq, Hp. simpl.
    destruct (IH (a + q * p)) as (t & Ht & Heq).
    exists t. split; [exact Ht|].
    rewrite Heq. symmetry. apply Qplus_assoc.
Qed.

(** On items of the data model the running total of the code is a number
    and is the sum of the spec. *)
Lemma calculateTotal_itemSum (l : list RawItem) :
  Forall ItemOk l -> exists t, calculateTotal l = Some t /\ t == itemSum l.
Proof.
  intros H. destruct (fold_total l H 0) as (t & Ht & Heq).
  exists t. split; [exact Ht|]. rewrite Heq. apply Qplus_0_l.
Qed.

End OrderIntakeFacts.

(** ** The order service on the raw request body *)

Module OrderRequestFacts.
Import OrderRequest.
Import PrimFloat.

Lemma own_setOwn_other (k k' : string) (v : Value) (props : list (string * Value)) :
  k <> k' -> own k (setOwn k' v props) = own k props.
Proof.
  intros Hne. induction props as [|[k0 x] rest IH]; simpl.
  - destruct (String.eqb_spec k k'); [contradiction|reflexivity].
  - destruct (String.eqb_spec k' k0) as [->|Hk]; simpl.
    + destruct (String.eqb_spec k k0); [contradiction|reflexivity].
    + destruct (String.eqb k k0); [reflexivity|exact IH].
Qed.

Lemma get_withClientTotal (t orderData : Value) (k : string) :
  k <> "totalAmount" -> get (withClientTotal t orderData) k = get orderData k.
Proof.
  intros Hne. destruct orderData; try reflexivity.
  simpl. now rewrite own_setOwn_other.
Qed.

Lemma field_withClientTotal (t orderData : Value) (k : string) :
  k <> "totalAmount" -> field (withClientTotal t orderData) k = field orderData k.
Proof. intros Hne. unfold field. now rewrite get_withClientTotal. Qed.

(** A property read throws on [null] and [undefined] only. *)
Lemma get_nullish (v : Value) (k : string) :
  v = VNull \/ v = VUndefined -> exists m, get v k = Throw m.
Proof. intros [->| ->]; simpl; eauto. Qed.

Lemma get_defined (v : Value) (k : string) :
  v <> VNull -> v <> VUndefined -> get v k = Normal (field v k).
Proof.
  intros Hn Hu. unfold field. destruct v; try contradiction; reflexivity.
Qed.

Lemma nullish_dec (v : Value) :
  (v = VNull \/ v = VUndefined) \/ (v <> VNull /\ v <> VUndefined).
Proof. destruct v; try (right; split; discriminate); left; auto. Qed.

Section Validation.

Variable numberToString : PrimFloat.float -> string.
Variable stringToNumber : string -> PrimFloat.float.

Local Abbreviation toNumber := (OrderRequest.toNumber numberToString stringToNumber).
Local Abbreviation notPositive :=
  (OrderRequest.notPositive numberToString stringToNumber).
Local Abbreviation validateItem :=
  (OrderRequest.validateItem numberToString stringToNumber).
Local Abbreviation validateItems :=
  (OrderRequest.validateItems numberToString stringToNumber).
Local Abbreviation validateOrderData :=
  (OrderRequest.validateOrderData numberToString stringToNumber).
Local Abbreviation addItem := (OrderRequest.addItem numberToString stringToNumber).
Local Abbreviation reduceFrom := (OrderRequest.reduceFrom numberToString stringToNumber).
Local Abbreviation calculateTotal :=
  (OrderRequest.calculateTotal numberToString stringToNumber).
Local Abbreviation ItemChecked :=
  (OrderRequest.ItemChecked numberToString stringToNumber).
Local Abbreviation ItemRefused :=
  (OrderRequest.ItemRefused numberToString stringToNumber).
Local Abbreviation BodyChecked :=
  (OrderRequest.BodyChecked numberToString stringToNumber).
Local Abbreviation BodyRefused :=
  (OrderRequest.BodyRefused numberToString stringToNumber).

Lemma notPositive_cases (x : Value) :
  (exists m, notPositive x = Throw m) \/
  notPositive x = Normal true \/
  (notPositive x = Normal false /\
   truthy x = true /\
   exists n, toNumber x = Normal n /\ PrimFloat.leb n 0 = false).
Proof.
  unfold OrderRequest.notPositive.
  destruct (truthy x); simpl; [|auto].
  destruct (toNumber x) as [n|m]; simpl; [|eauto].
  destruct (PrimFloat.leb n 0) eqn:E; [auto|].
  right. right. repeat split. eauto.
Qed.

(** Either an item is refused with an error, or it has passed every
    check. *)
Lemma validateItem_cases (i : nat) (item : Value) :
  (exists m, validateItem i item = Throw m) \/
  (validateItem i item = Normal tt /\ ItemChecked item).
Proof.
  destruct (nullish_dec item) as [Hnull|[Hn Hu]].
  { left. unfold OrderRequest.validateItem.
    destruct (get_nullish item "id" Hnull) as [m ->]. simpl. eauto. }
  unfold OrderRequest.validateItem, OrderRequest.ItemChecked.
  rewrite !(get_defined item _ Hn Hu). simpl.
  destruct (truthy (field item "id")); simpl; [|eauto].
  destruct (truthy (field item "title")); simpl; [|eauto].
  destruct (notPositive_cases (field item "quantity"))
    as [[m ->]|[->|(-> & Hq & Hqn)]]; simpl; eauto.
  destruct (notPositive_cases (field item "price"))
    as [[m ->]|[->|(-> & Hp & Hpn)]]; simpl; eauto.
  right. repeat split; auto.
Qed.

Lemma checked_is_not_refused (item : Value) :
  ItemChecked item -> ItemRefused item -> False.
Proof.
  intros (Hn & Hu & Hid & Ht & (Hq & q & Hqn & Hqpos) & (Hp & p & Hpn & Hppos)) H.
  destruct H as [[H|H]|k Hk Hf|k n Hk Hnum Hle|k m Hk Hnum].
  - contradiction.
  - contradiction.
  - simpl in Hk. destruct Hk as [<-|[<-|[<-|[<-|[]]]]]; congruence.
  - simpl in Hk. destruct Hk as [<-|[<-|[]]]; congruence.
  - simpl in Hk. destruct Hk as [<-|[<-|[]]]; congruence.
Qed.

Lemma validateItems_cases (l : list Value) :
  forall i,
    (exists m, validateItems i l = Throw m) \/
    (validateItems i l = Normal tt /\ Forall ItemChecked l).
Proof.
  induction l as [|item rest IH]; intros i; simpl.
  - right. split; [reflexivity|constructor].
  - destruct (validateItem_cases i item) as [[m ->]|[-> Hitem]]; simpl; [eauto|].
    destruct (IH (S i)) as [[m ->]|[-> Hrest]]; [eauto|].
    right. split; [reflexivity|]. now constructor.
Qed.

(** Either a body is refused with an error, or it has passed every
    check. *)
Lemma validateOrderData_cases (orderData : Value) :
  (exists m, validateOrderData orderData = Throw m) \/
  (validateOrderData orderData = Normal tt /\ BodyChecked orderData).
Proof.
  destruct (nullish_dec orderData) as [Hnull|[Hn Hu]].
  { left. unfold OrderRequest.validateOrderData.
    destruct (get_nullish orderData "userId" Hnull) as [m ->]. simpl. eauto. }
  unfold OrderRequest.validateOrderData, OrderRequest.BodyChecked.
  rewrite !(get_defined orderData _ Hn Hu). simpl.
  destruct (truthy (field orderData "userId")); simpl; [|eauto].
  destruct (field orderData "items") as [| | | | |[|item rest]|]; eauto.
  destruct (truthy (field orderData "customerEmail")); simpl; [|eauto].
  destruct (truthy (field orderData "customerName")); simpl; [|eauto].
  destruct (validateItems_cases (item :: rest) 0) as [[m Hm]|[Hok Hall]].
  - left. exists m. exact Hm.
  - right. split; [exact Hok|]. repeat split; auto. eauto.
Qed.

Lemma checked_body_is_not_refused (orderData : Value) :
  BodyChecked orderData -> BodyRefused orderData -> False.
Proof.
  intros (Hn & Hu & Huser & Hemail & Hname & item & rest & Hitems & Hall) H.
  destruct H as [[H|H]|k Hk Hf|Hnone|l bad Hl Hin Hbad].
  - contradiction.
  - contradiction.
  - simpl in Hk. destruct Hk as [<-|[<-|[<-|[]]]]; congruence.
  - exact (Hnone item rest Hitems).
  - rewrite Hitems in Hl. injection Hl as <-.
    rewrite Forall_forall in Hall.
    exact (checked_is_not_refused bad (Hall bad Hin) Hbad).
Qed.

Lemma validated_body_is_checked (orderData : Value) (u : unit) :
  validateOrderData orderData = Normal u -> BodyChecked orderData.
Proof.
  intros H. destruct (validateOrderData_cases orderData) as [[m Hm]|[_ Hc]];
    [congruence | exact Hc].
Qed.

(** The total of checked items is computed without an error. *)
Lemma reduceFrom_checked (l : list Value) :
  Forall ItemChecked l ->
  forall total, exists total', reduceFrom total l = Normal total'.
Proof.
  induction 1 as [|item rest Hitem _ IH]; intros total; simpl; [eauto|].
  destruct Hitem as (Hn & Hu & _ & _ & (_ & q & Hq & _) & (_ & p & Hp & _)).
  unfold OrderRequest.addItem. rewrite !(get_defined item _ Hn Hu). simpl.
  rewrite Hq, Hp. simpl. apply IH.
Qed.

(** On items whose quantity and price are numbers the total is the sum of
    the products, added one by one from the left. *)
Lemma reduceFrom_priced (l : list Value) :
  forall lines total,
    map priced l = map Some lines ->
    reduceFrom total l =
      Normal (fold_left (fun t qp => PrimFloat.add t (PrimFloat.mul (fst qp) (snd qp)))
                lines total).
Proof.
  induction l as [|item rest IH]; intros [|[q p] lines] total H; simpl in H;
    try discriminate; [reflexivity|].
  injection H as Hitem Hrest. simpl.
  assert (Hadd : addItem total item = Normal (PrimFloat.add total (PrimFloat.mul q p))).
  { unfold priced in Hitem. destruct item as [| | | | | |props]; try discriminate.
    unfold OrderRequest.addItem. simpl.
    destruct (own "quantity" props) as [[| | |x| | |]|]; try discriminate.
    destruct (own "price" props) as [[| | |y| | |]|]; try discriminate.
    injection Hitem as <- <-. reflexivity. }
  rewrite Hadd. simpl. now apply IH.
Qed.

Section CreateOrder.

Variable SavedOrder : Type.
Variable orderId : SavedOrder -> string.
Variable toEventData : SavedOrder -> JsVal.
Variable save : OrderToSave -> Completion SavedOrder.
Variable send :
  OrderIntake.ProducerRecord -> Completion (list OrderIntake.RecordMetadata).
Variables nowISO nowMillis : string.
Variable stringify : JsVal -> string.

Local Abbreviation create :=
  (createOrder numberToString stringToNumber SavedOrder orderId toEventData save send
     nowISO nowMillis stringify).

(** C1, as the code has it. For every request body that passes
    [validateOrderData], the first thing [createOrder] does is to hand the
    repository an order that holds the items of the body and the total that
    [calculateTotal] computes from them, with the status ['PENDING']; a
    total supplied by the client changes nothing. On items whose quantity
    and price are numbers that total is obtained by adding the products
    quantity times price to 0, one item after the other, in the arithmetic
    of IEEE 754 doubles: every product and every partial sum is rounded. *)
Theorem createOrder_total_is_the_rounded_sum (orderData : Value) :
  validateOrderData orderData = Normal tt ->
  (exists l total stored rest,
     field orderData "items" = VArr l /\ l <> [] /\
     calculateTotal l = Normal total /\
     snd (create orderData) = RepoSave stored :: rest /\
     items stored = VArr l /\
     totalAmount stored = total /\
     status stored = "PENDING" /\
     (forall lines,
        map priced l = map Some lines ->
        total =
          fold_left (fun t qp => PrimFloat.add t (PrimFloat.mul (fst qp) (snd qp)))
            lines 0%float)) /\
  (forall clientTotal,
     create (withClientTotal clientTotal orderData) = create orderData).
Proof.
  intros Hvalid. split.
  - destruct (validated_body_is_checked orderData tt Hvalid)
      as (_ & _ & _ & _ & _ & item & rest & Hitems & Hall).
    destruct (reduceFrom_checked _ Hall 0%float) as [total Htotal].
    exists (item :: rest), total.
    unfold createOrder. rewrite Hvalid, Hitems.
    unfold OrderRequest.calculateTotal. rewrite Htotal.
    set (o := mkOrderToSave _ _ _ _ _ _).
    exists o.
    assert (Hlines : forall lines,
               map priced (item :: rest) = map Some lines ->
               total =
                 fold_left
                   (fun t qp => PrimFloat.add t (PrimFloat.mul (fst qp) (snd qp)))
                   lines 0%float).
    { intros lines Hl. rewrite (reduceFrom_priced _ lines 0%float Hl) in Htotal.
      now injection Htotal. }
    destruct (save o) as [saved|m].
    + destruct (OrderIntake.publishOrderCreated _ _ _ _ _ _ _ saved) as [[r|m] tr];
        eexists; repeat split; try reflexivity; try discriminate; exact Hlines.
    + eexists; repeat split; try reflexivity; try discriminate; exact Hlines.
  - intros clientTotal. unfold createOrder, OrderRequest.validateOrderData.
    rewrite !get_withClientTotal by discriminate.
    rewrite !field_withClientTotal by discriminate.
    reflexivity.
Qed.

(** C2, at the input where the code fails it. An item whose quantity is a
    text that is no number passes both tests of its quantity (the text is
    truthy, and [NaN <= 0] is false): the body passes [validateOrderData],
    and [createOrder] hands the repository an order whose total is
    [NaN]. *)
Theorem non_numeric_quantity_is_saved (text : string) :
  text <> "" ->
  stringToNumber text = PrimFloat.nan ->
  validateOrderData (orderOf [line (VStr text) (VNum 2)]) = Normal tt /\
  exists stored rest,
    snd (create (orderOf [line (VStr text) (VNum 2)])) = RepoSave stored :: rest /\
    items stored = VArr [line (VStr text) (VNum 2)] /\
    PrimFloat.is_nan (totalAmount stored) = true.
Proof.
  intros Htext Hnan.
  assert (Htruthy : negb (String.eqb text "") = true).
  { apply negb_true_iff. now apply String.eqb_neq. }
  assert (Hvalid : validateOrderData (orderOf [line (VStr text) (VNum 2)]) = Normal tt).
  { unfold OrderRequest.validateOrderData, OrderRequest.validateItems,
      OrderRequest.validateItem, OrderRequest.notPositive. simpl.
    rewrite Htruthy. simpl. rewrite Hnan. reflexivity. }
  split; [exact Hvalid|].
  unfold createOrder. rewrite Hvalid.
  unfold OrderRequest.calculateTotal. simpl. rewrite Hnan. simpl.
  set (o := mkOrderToSave _ _ _ _ _ _).
  destruct (save o) as [saved|m].
  - destruct (OrderIntake.publishOrderCreated _ _ _ _ _ _ _ saved) as [[r|m] tr];
      eexists; eexists; repeat split; reflexivity.
  - eexists; eexists; repeat split; reflexivity.
Qed.

(** A refused body is never stored and never published: [createOrder]
    throws before it calls the repository or the producer. A body is
    refused when it is [null] or [undefined]; when its user id, customer
    e-mail or customer name is not truthy; when its items are not an array
    with at least one element; or when one of the items is [null] or
    [undefined], has an id, a title, a quantity or a price that is not
    truthy, or has a quantity or a price that converts to a number that is
    at most 0 or does not convert at all. *)
Theorem refused_body_is_not_stored (orderData : Value) :
  BodyRefused orderData ->
  exists m, create orderData = (Throw m, []).
Proof.
  intros H. unfold createOrder.
  destruct (validateOrderData_cases orderData) as [[m ->]|[_ Hc]]; [eauto|].
  exfalso. exact (checked_body_is_not_refused orderData Hc H).
Qed.

End CreateOrder.
End Validation.

Lemma createOrder_total_is_the_rounded_sum_witness :
  validateOrderData sampleText sampleNumber tenthsOrder = Normal tt /\
  exists stored rest,
    snd (createOrder sampleText sampleNumber _ fst memoryEventData memorySave
           OrderIntake.ackSend "t" "0" OrderIntake.noStringify tenthsOrder)
    = RepoSave stored :: rest /\
    totalAmount stored = PrimFloat.mul 3 0.1.
Proof.
  split; [reflexivity|].
  destruct (createOrder_total_is_the_rounded_sum sampleText sampleNumber _ fst
              memoryEventData memorySave OrderIntake.ackSend "t" "0"
              OrderIntake.noStringify tenthsOrder eq_refl)
    as ((l & total & stored & rest & Hitems & _ & _ & Htr & _ & Htotal & _ & Hlines) & _).
  exists stored, rest. split; [exact Htr|].
  rewrite Htotal. injection Hitems as <-.
  rewrite (Hlines [(3%float, 0.1%float)] eq_refl). reflexivity.
Defined.

(** The claim C1 fails where it says that the total equals the sum: for
    three pens at 0.1 the body passes validation, and the total that is
    stored, 0.30000000000000004, is not the sum of quantity times price of
    the values that the body holds. *)
Lemma rounded_total_is_not_the_exact_sum :
  validateOrderData sampleText sampleNumber tenthsOrder = Normal tt /\
  exists stored rest total sum,
    snd (createOrder sampleText sampleNumber _ fst memoryEventData memorySave
           OrderIntake.ackSend "t" "0" OrderIntake.noStringify tenthsOrder)
    = RepoSave stored :: rest /\
    exactValue (totalAmount stored) = Some total /\
    itemSum [(3%float, 0.1%float)] = Some sum /\
    ~ total == sum.
Proof.
  split; [reflexivity|].
  eexists. eexists. eexists. eexists.
  split; [reflexivity|]. split; [vm_compute; reflexivity|].
  split; [vm_compute; reflexivity|].
  intros H. vm_compute in H. discriminate.
Qed.

Lemma non_numeric_quantity_is_saved_witness :
  validateOrderData sampleText sampleNumber wordQuantityOrder = Normal tt /\
  exists stored rest,
    snd (createOrder sampleText sampleNumber _ fst memoryEventData memorySave
           OrderIntake.ackSend "t" "0" OrderIntake.noStringify wordQuantityOrder)
    = RepoSave stored :: rest /\
    PrimFloat.is_nan (totalAmount stored) = true.
Proof.
  destruct (non_numeric_quantity_is_saved sampleText sampleNumber _ fst
              memoryEventData memorySave OrderIntake.ackSend "t" "0"
              OrderIntake.noStringify "abc" ltac:(discriminate) eq_refl)
    as (Hvalid & stored & rest & Htr & _ & Hnan).
  split; [exact Hvalid|]. exists stored, rest. split; assumption.
Defined.

Lemma refused_body_is_not_stored_witness :
  exists m,
    createOrder sampleText sampleNumber _ fst memoryEventData memorySave
      OrderIntake.ackSend "t" "0" OrderIntake.noStringify zeroQuantityOrder
    = (Throw m, []).
Proof.
  apply refused_body_is_not_stored.
  apply (RefusedItem _ _ _ [line (VNum 0) (VNum 2)] (line (VNum 0) (VNum 2)));
    [reflexivity | now left |].
  apply (FalsyField _ _ _ "quantity"); [simpl; tauto | reflexivity].
Defined.

End OrderRequestFacts.

(** ** Event handler *)

Module HandlerFacts.
Import Handler.

Lemma setHas_In (x : string) (s : StringSet) : setHas x s = true <-> In x s.
Proof.
  unfold setHas. rewrite existsb_exists. split.
  - intros (y & Hy & E). apply String.eqb_eq in E. now subst.
  - intros H. exists x. split; [assumption | apply String.eqb_refl].
Qed.

Lemma setHas_not_In (x : string) (s : StringSet) : setHas x s = false <-> ~ In x s.
Proof.
  rewrite <- setHas_In. destruct (setHas x s); split; congruence.
Qed.

Lemma setAdd_fresh (x : string) (s : StringSet) :
  setHas x s = false -> setAdd x s = s ++ [x].
Proof. unfold setAdd. now intros ->. Qed.

Lemma In_setAdd (x y : string) (s : StringSet) :
  In y (setAdd x s) <-> y = x \/ In y s.
Proof.
  unfold setAdd. destruct (setHas x s) eqn:E.
  - apply setHas_In in E. split; [auto | intros [->|]; auto].
  - rewrite in_app_iff. simpl. intuition.
Qed.

Lemma NoDup_setAdd (x : string) (s : StringSet) : NoDup s -> NoDup (setAdd x s).
Proof.
  intros H. unfold setAdd. destruct (setHas x s) eqn:E; [assumption|].
  apply setHas_not_In in E.
  apply NoDup_app; [assumption | repeat constructor; auto |].
  intros a Ha [<-|[]]. contradiction.
Qed.

Lemma length_setAdd (x : string) (s : StringSet) :
  (List.length (setAdd x s) <= S (List.length s))%nat.
Proof.
  unfold setAdd. destruct (setHas x s); [lia|].
  rewrite length_app. simpl. lia.
Qed.

Section Refill.

Local Abbreviation refill := (fold_left (fun acc id => setAdd id acc)).

Lemma length_refill (l : list string) :
  forall acc, (List.length (refill l acc) <= List.length acc + List.length l)%nat.
Proof.
  induction l as [|x l IH]; intros acc; simpl; [lia|].
  specialize (IH (setAdd x acc)). pose proof (length_setAdd x acc). lia.
Qed.

Lemma NoDup_refill (l : list string) :
  forall acc, NoDup acc -> NoDup (refill l acc).
Proof.
  induction l as [|x l IH]; intros acc H; simpl; auto using NoDup_setAdd.
Qed.

Lemma In_refill (x : string) (l : list string) :
  forall acc, In x l \/ In x acc -> In x (refill l acc).
Proof.
  induction l as [|y l IH]; intros acc H; simpl.
  - destruct H as [[]|H]; assumption.
  - apply IH. rewrite In_setAdd. simpl in H. intuition.
Qed.

Lemma refill_NoDup_app (l : list string) :
  forall acc, NoDup (acc ++ l) -> refill l acc = acc ++ l.
Proof.
  induction l as [|x l IH]; intros acc H; simpl.
  - now rewrite app_nil_r.
  - assert (Hx : setHas x acc = false).
    { apply setHas_not_In. intros Hin.
      apply NoDup_remove_2 in H. apply H, in_or_app. now left. }
    rewrite (setAdd_fresh x acc Hx).
    rewrite IH; rewrite <- app_assoc; [reflexivity | exact H].
Qed.

End Refill.

Lemma length_sliceLast {A} (n : nat) (l : list A) :
  (List.length (sliceLast n l) <= n)%nat.
Proof. unfold sliceLast. rewrite length_skipn. lia. Qed.

Lemma NoDup_skipn {A} (n : nat) (l : list A) : NoDup l -> NoDup (skipn n l).
Proof.
  intros H. rewrite <- (firstn_skipn n l) in H.
  now apply NoDup_app_remove_l in H.
Qed.

Lemma sliceLast_snoc {A} (n : nat) (l : list A) (x : A) :
  sliceLast (S n) (l ++ [x]) = sliceLast n l ++ [x].
Proof.
  unfold sliceLast. rewrite length_app. simpl List.length.
  rewrite skipn_app.
  replace (List.length l + 1 - S n)%nat with (List.length l - n)%nat by lia.
  replace (List.length l - n - List.length l)%nat with 0%nat by lia.
  reflexivity.
Qed.

Lemma trim_length (s : StringSet) : (List.length (trim s) <= 1000)%nat.
Proof.
  unfold trim. destruct (Nat.ltb_spec 1000 (List.length s)) as [H|H]; [|exact H].
  pose proof (length_refill (sliceLast 500 s) []) as H1.
  pose proof (length_sliceLast 500 s) as H2.
  simpl List.length in H1. lia.
Qed.

Lemma trim_NoDup (s : StringSet) : NoDup s -> NoDup (trim s).
Proof.
  intros H. unfold trim. destruct (1000 <? List.length s)%nat; [|exact H].
  apply NoDup_refill. constructor.
Qed.

Lemma trim_small (s : StringSet) : (List.length s <= 1000)%nat -> trim s = s.
Proof.
  intros H. unfold trim.
  destruct (Nat.ltb_spec 1000 (List.length s)); [lia | reflexivity].
Qed.

(** On overflow the set becomes the last 500 identities of its insertion
    order. *)
Lemma trim_overflow (s : StringSet) :
  NoDup s -> (1000 < List.length s)%nat -> trim s = sliceLast 500 s.
Proof.
  intros Hnd H. unfold trim.
  destruct (Nat.ltb_spec 1000 (List.length s)); [|lia].
  apply (refill_NoDup_app (sliceLast 500 s) []).
  simpl. unfold sliceLast. now apply NoDup_skipn.
Qed.

Lemma In_trim_snoc (s : StringSet) (x : string) : In x (trim (s ++ [x])).
Proof.
  unfold trim. destruct (1000 <? List.length (s ++ [x]))%nat.
  - apply In_refill. left. rewrite (sliceLast_snoc 499).
    apply in_or_app. right. now left.
  - apply in_or_app. right. now left.
Qed.

Lemma nodupb_NoDup (l : StringSet) : nodupb l = true -> NoDup l.
Proof.
  induction l as [|x l IH]; simpl; intros H; constructor.
  - apply andb_true_iff in H as [H _]. apply negb_true_iff in H.
    now apply setHas_not_In.
  - apply andb_true_iff in H as [_ H]. auto.
Qed.

Section Handle.

Variable NS : Type.
Variable sendOrderConfirmation :
  JsVal -> NS -> Completion Notification.NotificationRecord * NS.
Variable numToString : Q -> string.

Local Abbreviation handle := (Handler.handle NS sendOrderConfirmation numToString).
Local Abbreviation handleAll := (Handler.handleAll NS sendOrderConfirmation numToString).
Local Abbreviation generateEventId := (Handler.generateEventId numToString).
Local Abbreviation State := (Handler.State NS).

Lemma isValidEvent_inv (e : JsVal) :
  isValidEvent e = true ->
  truthy (getProp e "type") = true /\
  truthy (getProp e "timestamp") = true /\
  truthy (getProp e "data") = true.
Proof.
  unfold isValidEvent. intros H.
  repeat (apply andb_true_iff in H as [H ?]). auto.
Qed.

(** The clock reading never enters the identity of a valid event. *)
Lemma generateEventId_clock (d1 d2 : Q) (e : JsVal) :
  isValidEvent e = true -> generateEventId d1 e = generateEventId d2 e.
Proof.
  intros H. apply isValidEvent_inv in H as (_ & Hts & _).
  unfold Handler.generateEventId, orElse. now rewrite Hts.
Qed.

Lemma sendCalls_app (a b : list (Effect)) :
  sendCalls (a ++ b) = sendCalls a ++ sendCalls b.
Proof. unfold sendCalls. apply flat_map_app. Qed.

Lemma handleOrderCreated_calls (e : JsVal) (ns ns' : NS)
    (u : unit) (tr : list Effect) :
  handleOrderCreated NS sendOrderConfirmation numToString e ns = (Normal u, ns', tr) ->
  sendCalls tr = [getProp e "data"].
Proof.
  unfold handleOrderCreated.
  destruct (newOrderLine numToString (getProp e "data")) as [[o c]|m];
    [|discriminate].
  destruct (sendOrderConfirmation (getProp e "data") ns) as [[r|m] ns1];
    intros H; inversion H; subst; reflexivity.
Qed.

(** Whatever [handleOrderCreated] does, it calls the service at most once,
    with the event data. *)
Lemma handleOrderCreated_calls_at_most_once (e : JsVal) (ns ns' : NS)
    (c : Completion unit) (tr : list Effect) :
  handleOrderCreated NS sendOrderConfirmation numToString e ns = (c, ns', tr) ->
  sendCalls tr = [] \/ sendCalls tr = [getProp e "data"].
Proof.
  unfold handleOrderCreated.
  destruct (newOrderLine numToString (getProp e "data")) as [[o c']|m].
  - destruct (sendOrderConfirmation (getProp e "data") ns) as [[r|m] ns1];
      intros [= <- <- <-]; right; reflexivity.
  - intros [= <- <- <-]. left. reflexivity.
Qed.

(** The four ways [handle] can go for a structurally valid event. *)
Lemma handle_unconvertible (d : Q) (e : JsVal) (st : State) (m : string) :
  isValidEvent e = true ->
  generateEventId d e = Throw m ->
  handle d e st = (Throw m, st, [LogFailed m]).
Proof.
  intros Hv Hid. unfold Handler.handle. rewrite Hv. simpl negb. cbv iota.
  now rewrite Hid.
Qed.

Lemma handle_duplicate (d : Q) (e : JsVal) (st : State) (id : string) :
  isValidEvent e = true ->
  generateEventId d e = Normal id ->
  setHas id (processedEvents NS st) = true ->
  handle d e st = (Normal tt, st, [LogDuplicate (getProp e "type") id]).
Proof.
  intros Hv Hid Hd. unfold Handler.handle. rewrite Hv. simpl negb. cbv iota.
  now rewrite Hid, Hd.
Qed.

Lemma handle_ignored (d : Q) (e : JsVal) (st : State) (id : string) :
  isValidEvent e = true ->
  generateEventId d e = Normal id ->
  setHas id (processedEvents NS st) = false ->
  strictEqStr (getProp e "type") "ORDER_CREATED" = false ->
  handle d e st =
    (Normal tt, st,
     [LogProcessing (getProp e "type") (dataOrderId e); LogIgnoring (getProp e "type")]).
Proof.
  intros Hv Hid Hd Ht. unfold Handler.handle. rewrite Hv. simpl negb. cbv iota.
  now rewrite Hid, Hd, Ht.
Qed.

Lemma handle_processed (d : Q) (e : JsVal) (st : State) (id : string) :
  isValidEvent e = true ->
  generateEventId d e = Normal id ->
  setHas id (processedEvents NS st) = false ->
  strictEqStr (getProp e "type") "ORDER_CREATED" = true ->
  exists c ns' tr,
    handleOrderCreated NS sendOrderConfirmation numToString e (notificationService NS st)
      = (c, ns', tr) /\
    match c with
    | Normal _ =>
        handle d e st =
          (Normal tt,
           mkState NS (trim (processedEvents NS st ++ [id])) ns',
           LogProcessing (getProp e "type") (dataOrderId e)
             :: tr ++ [LogSuccess (getProp e "type") id])
    | Throw m =>
        handle d e st =
          (Throw m, mkState NS (processedEvents NS st) ns',
           LogProcessing (getProp e "type") (dataOrderId e) :: tr ++ [LogFailed m])
    end.
Proof.
  intros Hv Hid Hd Ht. unfold Handler.handle. rewrite Hv. simpl negb. cbv iota.
  rewrite Hid, Hd, Ht.
  destruct (handleOrderCreated NS sendOrderConfirmation numToString e
              (notificationService NS st))
    as [[[u|m] ns'] tr].
  - exists (Normal u), ns', tr. split; [reflexivity|].
    now rewrite (setAdd_fresh _ _ Hd).
  - exists (Throw m), ns', tr. split; reflexivity.
Qed.

(** A call that returns normally for a valid event has formed its
    identity. *)
Lemma handle_Normal_identity (d : Q) (e : JsVal) (st st1 : State)
    (tr1 : list Effect) :
  isValidEvent e = true ->
  handle d e st = (Normal tt, st1, tr1) ->
  exists id, generateEventId d e = Normal id.
Proof.
  intros Hv H. destruct (generateEventId d e) as [id|m] eqn:Hid; [eauto|].
  rewrite (handle_unconvertible d e st m Hv Hid) in H. discriminate.
Qed.

Lemma strictEqStr_false (v : JsVal) (t : string) :
  v <> JStr t -> strictEqStr v t = false.
Proof.
  intros H. destruct v; simpl; try reflexivity.
  destruct (String.eqb_spec s t); [subst; contradiction | reflexivity].
Qed.

Lemma handleAll_repeat_fixed (d : Q) (e : JsVal) (st : State)
    (c : Completion unit) (tr : list Effect) :
  handle d e st = (c, st, tr) ->
  forall n, handleAll d (repeat e n) st = (st, List.concat (repeat tr n)).
Proof.
  intros H n. induction n as [|n IH]; simpl; [reflexivity|].
  now rewrite H, IH.
Qed.

Lemma NoDup_app_disjoint {A} (a b : list A) (x : A) :
  NoDup (a ++ b) -> In x a -> ~ In x b.
Proof.
  induction a as [|y a IH]; simpl; intros Hnd Hin; [contradiction|].
  inversion Hnd as [|? ? Hy Hrest]; subst.
  destruct Hin as [->|Hin]; [|auto].
  intros Hb. apply Hy, in_or_app. now right.
Qed.

(** Size and distinctness of the dedup set are preserved by every call. *)
Lemma handle_invariant (d : Q) (e : JsVal) (st st' : State)
    (c : Completion unit) (tr : list Effect) :
  handle d e st = (c, st', tr) ->
  ((List.length (processedEvents NS st) <= 1000)%nat ->
   (List.length (processedEvents NS st') <= 1000)%nat) /\
  (NoDup (processedEvents NS st) -> NoDup (processedEvents NS st')).
Proof.
  intros H.
  destruct (isValidEvent e) eqn:Hv.
  2:{ unfold Handler.handle in H. rewrite Hv in H. simpl in H.
      injection H as <- <- <-. auto. }
  destruct (generateEventId d e) as [id|m] eqn:Hid.
  2:{ rewrite (handle_unconvertible d e st m Hv Hid) in H.
      injection H as <- <- <-. auto. }
  destruct (setHas id (processedEvents NS st)) eqn:Hd.
  { rewrite (handle_duplicate d e st id Hv Hid Hd) in H.
    injection H as <- <- <-. auto. }
  destruct (strictEqStr (getProp e "type") "ORDER_CREATED") eqn:Ht.
  2:{ rewrite (handle_ignored d e st id Hv Hid Hd Ht) in H.
      injection H as <- <- <-. auto. }
  destruct (handle_processed d e st id Hv Hid Hd Ht) as (c' & ns' & tr' & _ & Hh).
  destruct c' as [u|m]; rewrite Hh in H; injection H as <- <- <-; simpl.
  - split; intros; [apply trim_length | apply trim_NoDup].
    rewrite <- (setAdd_fresh _ _ Hd). now apply NoDup_setAdd.
  - auto.
Qed.

Lemma handleAll_invariant (d : Q) (events : list JsVal) :
  forall st : State,
    (List.length (processedEvents NS st) <= 1000)%nat ->
    NoDup (processedEvents NS st) ->
    (List.length (processedEvents NS (fst (handleAll d events st))) <= 1000)%nat /\
    NoDup (processedEvents NS (fst (handleAll d events st))).
Proof.
  induction events as [|e rest IH]; intros st Hlen Hnd; simpl; [auto|].
  destruct (handle d e st) as [[c st1] tr1] eqn:H1.
  destruct (handle_invariant d e st st1 c tr1 H1) as [Hl Hn].
  specialize (IH st1 (Hl Hlen) (Hn Hnd)).
  destruct (handleAll d rest st1) as [st2 tr2]. exact IH.
Qed.

(** A successful call leaves the identity of an ORDER_CREATED event in
    the dedup set, also when the clean-up ran. *)
Lemma handle_success_recorded (d : Q) (e : JsVal) (st st1 : State)
    (tr1 : list Effect) (id : string) :
  isValidEvent e = true ->
  generateEventId d e = Normal id ->
  strictEqStr (getProp e "type") "ORDER_CREATED" = true ->
  handle d e st = (Normal tt, st1, tr1) ->
  setHas id (processedEvents NS st1) = true.
Proof.
  intros Hv Hid Ht H.
  destruct (setHas id (processedEvents NS st)) eqn:Hd.
  - rewrite (handle_duplicate d e st id Hv Hid Hd) in H. now injection H as <- <-.
  - destruct (handle_processed d e st id Hv Hid Hd Ht) as (c & ns' & tr & _ & Hh).
    destruct c as [u|m]; rewrite Hh in H; [|discriminate].
    injection H as <- <-. simpl. apply setHas_In, In_trim_snoc.
Qed.

(** C3. When a structurally valid ORDER_CREATED event has been handled
    successfully, handling it again (same type, order id and timestamp,
    whatever the clock reads) returns normally, leaves the handler as it
    is and only prints that a duplicate was ignored: the notification
    orchestrator is not called again, so the two deliveries together call
    it exactly once when the first one was not itself a duplicate. The
    identity [id] is the one that [generateEventId] forms for the event. *)
Theorem duplicate_delivery_is_absorbed (d1 d2 : Q) (e : JsVal)
    (st st1 : State) (tr1 : list Effect) :
  isValidEvent e = true ->
  getProp e "type" = JStr "ORDER_CREATED" ->
  handle d1 e st = (Normal tt, st1, tr1) ->
  exists id,
    generateEventId d1 e = Normal id /\
    handle d2 e st1 =
      (Normal tt, st1, [LogDuplicate (JStr "ORDER_CREATED") id]) /\
    sendCalls (snd (handle d2 e st1)) = [] /\
    (setHas id (processedEvents NS st) = false ->
     sendCalls (tr1 ++ snd (handle d2 e st1)) = [getProp e "data"]) /\
    (forall s : State,
       setHas id (processedEvents NS s) = true ->
       handle d2 e s =
         (Normal tt, s, [LogDuplicate (JStr "ORDER_CREATED") id])).
Proof.
  intros Hv Ht H.
  assert (Ht' : strictEqStr (getProp e "type") "ORDER_CREATED" = true)
    by now rewrite Ht.
  destruct (handle_Normal_identity d1 e st st1 tr1 Hv H) as [id Hid].
  assert (Hid2 : generateEventId d2 e = Normal id)
    by now rewrite <- (generateEventId_clock d1 d2 e Hv).
  assert (Hdup : forall s : State,
             setHas id (processedEvents NS s) = true ->
             handle d2 e s =
               (Normal tt, s, [LogDuplicate (JStr "ORDER_CREATED") id])).
  { intros s Hs. rewrite (handle_duplicate d2 e s id Hv Hid2 Hs). now rewrite Ht. }
  exists id. split; [exact Hid|].
  destruct (setHas id (processedEvents NS st)) eqn:Hd.
  - rewrite (handle_duplicate d1 e st id Hv Hid Hd) in H. injection H as <- <-.
    rewrite (Hdup st Hd). repeat split; [discriminate | exact Hdup].
  - destruct (handle_processed d1 e st id Hv Hid Hd Ht') as (c & ns' & tr & Hoc & Hh).
    destruct c as [u|m]; rewrite Hh in H; [|discriminate].
    injection H as <- <-.
    rewrite Hdup by (simpl; apply setHas_In, In_trim_snoc).
    repeat split; [|exact Hdup]. intros _. simpl snd.
    rewrite sendCalls_app. simpl. rewrite sendCalls_app. simpl.
    rewrite (handleOrderCreated_calls _ _ _ _ _ Hoc). reflexivity.
Qed.

(** C5. Starting from the empty set of a new handler, the dedup set holds
    at most 1000 distinct identities after every call of [handle]; the
    bound is kept by each single call. When a successful call meets a full
    set of 1000, the set becomes its 499 most recently inserted identities
    followed by the new one, 500 in all, and the 501 older identities are
    gone. *)
Theorem dedup_set_is_bounded :
  (forall d events ns,
     (List.length (processedEvents NS
        (fst (handleAll d events (mkState NS [] ns)))) <= 1000)%nat /\
     NoDup (processedEvents NS (fst (handleAll d events (mkState NS [] ns))))) /\
  (forall d e (st st' : State) c tr,
     handle d e st = (c, st', tr) ->
     (List.length (processedEvents NS st) <= 1000)%nat ->
     (List.length (processedEvents NS st') <= 1000)%nat) /\
  (forall d e (st st' : State) tr id,
     isValidEvent e = true ->
     getProp e "type" = JStr "ORDER_CREATED" ->
     generateEventId d e = Normal id ->
     setHas id (processedEvents NS st) = false ->
     handle d e st = (Normal tt, st', tr) ->
     NoDup (processedEvents NS st) ->
     List.length (processedEvents NS st) = 1000%nat ->
     processedEvents NS st' = skipn 501 (processedEvents NS st) ++ [id] /\
     List.length (processedEvents NS st') = 500%nat /\
     forall x, In x (firstn 501 (processedEvents NS st)) ->
               setHas x (processedEvents NS st') = false).
Proof.
  split; [|split].
  - intros d events ns. apply handleAll_invariant; simpl; [lia | constructor].
  - intros d e st st' c tr H. now apply (handle_invariant d e st st' c tr).
  - intros d e st st' tr id Hv Ht Hid Hd H Hnd Hlen.
    assert (Ht' : strictEqStr (getProp e "type") "ORDER_CREATED" = true)
      by now rewrite Ht.
    destruct (handle_processed d e st id Hv Hid Hd Ht') as (c & ns' & tr' & _ & Hh).
    destruct c as [u|m]; rewrite Hh in H; [|discriminate].
    injection H as <- _. simpl.
    set (s := processedEvents NS st) in *.
    assert (Hnd' : NoDup (s ++ [id])).
    { rewrite <- (setAdd_fresh _ _ Hd). now apply NoDup_setAdd. }
    assert (Heq : trim (s ++ [id]) = skipn 501 s ++ [id]).
    { rewrite trim_overflow; [|exact Hnd'|rewrite length_app; simpl; lia].
      rewrite (sliceLast_snoc 499). unfold sliceLast. rewrite Hlen.
      reflexivity. }
    rewrite Heq. split; [reflexivity|]. split.
    + rewrite length_app, length_skipn, Hlen. reflexivity.
    + intros x Hx. apply setHas_not_In. intros Hin.
      apply in_app_or in Hin as [Hin|[<-|[]]].
      * rewrite <- (firstn_skipn 501 s) in Hnd.
        exact (NoDup_app_disjoint _ _ x Hnd Hx Hin).
      * apply setHas_not_In in Hd. apply Hd.
        rewrite <- (firstn_skipn 501 s). apply in_or_app. now left.
Qed.

(** C9, as the code has it. For a structurally valid event whose type is
    not ORDER_CREATED, [handle] never changes the handler (the dedup set is
    not modified) and never calls the notification service, however the
    call ends, and every redelivery does the same again. What the call does
    otherwise depends on the identity of the event, which is looked up in
    the dedup set before the type is tested: when the identity is not in the
    set, the call returns after printing that the type is ignored; when the
    identity is one that the set holds, the call returns after printing that
    a duplicate was ignored; when the identity cannot be formed, the call
    throws the error of the conversion. *)
Theorem unhandled_type_is_never_recorded (d : Q) (e : JsVal) (st : State) :
  isValidEvent e = true ->
  getProp e "type" <> JStr "ORDER_CREATED" ->
  (exists c tr,
     handle d e st = (c, st, tr) /\
     sendCalls tr = [] /\
     forall n, handleAll d (repeat e n) st = (st, List.concat (repeat tr n))) /\
  (forall id,
     generateEventId d e = Normal id ->
     setHas id (processedEvents NS st) = false ->
     handle d e st =
       (Normal tt, st,
        [LogProcessing (getProp e "type") (dataOrderId e);
         LogIgnoring (getProp e "type")])) /\
  (forall id,
     generateEventId d e = Normal id ->
     setHas id (processedEvents NS st) = true ->
     handle d e st = (Normal tt, st, [LogDuplicate (getProp e "type") id])) /\
  (forall m,
     generateEventId d e = Throw m ->
     handle d e st = (Throw m, st, [LogFailed m])).
Proof.
  intros Hv Ht. apply strictEqStr_false in Ht.
  split; [|split; [|split]].
  - destruct (generateEventId d e) as [id|m] eqn:Hid.
    + destruct (setHas id (processedEvents NS st)) eqn:Hd.
      * eexists. eexists. split; [apply (handle_duplicate d e st id Hv Hid Hd)|].
        split; [reflexivity|].
        apply handleAll_repeat_fixed with (c := Normal tt),
          (handle_duplicate d e st id Hv Hid Hd).
      * eexists. eexists. split; [apply (handle_ignored d e st id Hv Hid Hd Ht)|].
        split; [reflexivity|].
        apply handleAll_repeat_fixed with (c := Normal tt),
          (handle_ignored d e st id Hv Hid Hd Ht).
    + eexists. eexists. split; [apply (handle_unconvertible d e st m Hv Hid)|].
      split; [reflexivity|].
      apply handleAll_repeat_fixed with (c := Throw m),
        (handle_unconvertible d e st m Hv Hid).
  - intros id Hid Hd. exact (handle_ignored d e st id Hv Hid Hd Ht).
  - intros id Hid Hd. exact (handle_duplicate d e st id Hv Hid Hd).
  - intros m Hid. exact (handle_unconvertible d e st m Hv Hid).
Qed.

(** C10. Two structurally valid ORDER_CREATED events without
    [data.orderId] and with the same timestamp have the same identity,
    ['ORDER_CREATED-unknown-<timestamp>']; once the first has been handled
    successfully the second is dropped as a duplicate, whatever else its
    payload says. *)
Theorem missing_order_id_collides (d1 d2 : Q) (e1 e2 : JsVal) (ts : string)
    (st st1 : State) (tr1 : list Effect) :
  isValidEvent e1 = true -> isValidEvent e2 = true ->
  getProp e1 "type" = JStr "ORDER_CREATED" ->
  getProp e2 "type" = JStr "ORDER_CREATED" ->
  dataOrderId e1 = JUndefined -> dataOrderId e2 = JUndefined ->
  getProp e1 "timestamp" = JStr ts -> getProp e2 "timestamp" = JStr ts ->
  generateEventId d1 e1 = Normal ("ORDER_CREATED-unknown-" ++ ts)%string /\
  generateEventId d2 e2 = Normal ("ORDER_CREATED-unknown-" ++ ts)%string /\
  (handle d1 e1 st = (Normal tt, st1, tr1) ->
   handle d2 e2 st1 =
     (Normal tt, st1,
      [LogDuplicate (JStr "ORDER_CREATED") ("ORDER_CREATED-unknown-" ++ ts)])).
Proof.
  intros Hv1 Hv2 Ht1 Ht2 Ho1 Ho2 Hs1 Hs2.
  assert (Hid : forall d e, isValidEvent e = true ->
             getProp e "type" = JStr "ORDER_CREATED" ->
             dataOrderId e = JUndefined -> getProp e "timestamp" = JStr ts ->
             generateEventId d e = Normal ("ORDER_CREATED-unknown-" ++ ts)%string).
  { intros d e Hv Ht Ho Hs. apply isValidEvent_inv in Hv as (_ & Htr & _).
    unfold Handler.generateEventId, orElse. rewrite Htr, Ho, Ht, Hs.
    reflexivity. }
  pose proof (Hid d1 e1 Hv1 Ht1 Ho1 Hs1) as Hid1.
  pose proof (Hid d2 e2 Hv2 Ht2 Ho2 Hs2) as Hid2.
  repeat split; auto.
  intros H.
  assert (Hin : setHas ("ORDER_CREATED-unknown-" ++ ts)%string
                  (processedEvents NS st1) = true).
  { apply (handle_success_recorded d1 e1 st st1 tr1 _ Hv1 Hid1); [|exact H].
    now rewrite Ht1. }
  rewrite (handle_duplicate d2 e2 st1 _ Hv2 Hid2 Hin). now rewrite Ht2.
Qed.

End Handle.

Lemma duplicate_delivery_is_absorbed_witness :
  isValidEvent orderCreatedSample = true /\
  getProp orderCreatedSample "type" = JStr "ORDER_CREATED" /\
  sampleHandle 0 orderCreatedSample freshState =
    (Normal tt, snd (fst (sampleHandle 0 orderCreatedSample freshState)),
     snd (sampleHandle 0 orderCreatedSample freshState)) /\
  sendCalls
    (snd (sampleHandle 0 orderCreatedSample freshState) ++
     snd (sampleHandle 1 orderCreatedSample
            (snd (fst (sampleHandle 0 orderCreatedSample freshState)))))
  = [getProp orderCreatedSample "data"].
Proof.
  assert (Hv : isValidEvent orderCreatedSample = true) by reflexivity.
  assert (Ht : getProp orderCreatedSample "type" = JStr "ORDER_CREATED") by reflexivity.
  assert (H : sampleHandle 0 orderCreatedSample freshState =
              (Normal tt, snd (fst (sampleHandle 0 orderCreatedSample freshState)),
               snd (sampleHandle 0 orderCreatedSample freshState)))
    by (vm_compute; reflexivity).
  split; [exact Hv|]. split; [exact Ht|]. split; [exact H|].
  destruct (duplicate_delivery_is_absorbed nat countingService renderInteger
              0 1 orderCreatedSample freshState _ _ Hv Ht H)
    as (id & Hid & _ & _ & Hone & _).
  apply Hone.
  assert (E : id = "ORDER_CREATED-order-1-2024-01-01T00:00:00.000Z").
  { vm_compute in Hid. now injection Hid as <-. }
  rewrite E. reflexivity.
Defined.

(** With the orchestrator of the source behind the handler, two deliveries
    of the sample event leave one entry in the history of its order. *)
Example redelivery_records_one_notification :
  List.length
    (Notification.getNotificationHistory
       (notificationService _
          (fst (Handler.handleAll _ emailOnlyService renderInteger 0
                  [orderCreatedSample; orderCreatedSample]
                  (mkState _ [] []))))
       (JStr "order-1"))
  = 1%nat.
Proof. reflexivity. Qed.

Lemma dedup_set_is_bounded_witness :
  isValidEvent orderCreatedSample = true /\
  getProp orderCreatedSample "type" = JStr "ORDER_CREATED" /\
  NoDup (processedEvents nat fullState) /\
  List.length (processedEvents nat fullState) = 1000%nat /\
  List.length
    (processedEvents nat (snd (fst (sampleHandle 0 orderCreatedSample fullState))))
  = 500%nat.
Proof.
  assert (Hv : isValidEvent orderCreatedSample = true) by reflexivity.
  assert (Ht : getProp orderCreatedSample "type" = JStr "ORDER_CREATED") by reflexivity.
  assert (Hnd : NoDup (processedEvents nat fullState)).
  { apply nodupb_NoDup. vm_compute. reflexivity. }
  assert (Hlen : List.length (processedEvents nat fullState) = 1000%nat).
  { vm_compute. reflexivity. }
  assert (Hid : generateEventId renderInteger 0 orderCreatedSample
                = Normal "ORDER_CREATED-order-1-2024-01-01T00:00:00.000Z")
    by reflexivity.
  assert (Hd : setHas "ORDER_CREATED-order-1-2024-01-01T00:00:00.000Z"
                 (processedEvents nat fullState) = false).
  { vm_compute. reflexivity. }
  assert (H : sampleHandle 0 orderCreatedSample fullState =
              (Normal tt, snd (fst (sampleHandle 0 orderCreatedSample fullState)),
               snd (sampleHandle 0 orderCreatedSample fullState))).
  { vm_cast_no_check
      (@eq_refl _ (sampleHandle 0 orderCreatedSample fullState)). }
  split; [exact Hv|]. split; [exact Ht|]. split; [exact Hnd|]. split; [exact Hlen|].
  destruct (dedup_set_is_bounded nat countingService renderInteger) as (_ & _ & Htrim).
  destruct (Htrim 0 orderCreatedSample fullState _ _ _ Hv Ht Hid Hd H Hnd Hlen)
    as (_ & Hsize & _).
  exact Hsize.
Defined.

Lemma unhandled_type_is_never_recorded_witness :
  isValidEvent healthCheckSample = true /\
  getProp healthCheckSample "type" <> JStr "ORDER_CREATED" /\
  exists c tr,
    sampleHandle 0 healthCheckSample freshState = (c, freshState, tr) /\
    sendCalls tr = [].
Proof.
  assert (Hv : isValidEvent healthCheckSample = true) by reflexivity.
  assert (Ht : getProp healthCheckSample "type" <> JStr "ORDER_CREATED")
    by discriminate.
  split; [exact Hv|]. split; [exact Ht|].
  destruct (unhandled_type_is_never_recorded nat countingService renderInteger
              0 healthCheckSample freshState Hv Ht)
    as ((c & tr & H & Hcalls & _) & _).
  exists c, tr. split; assumption.
Defined.

(** The claim C9 fails where it says that such an event is never detected as
    a duplicate. After the order ['order-1'] was recorded, a valid event of
    type ['ORDER_CREATED-order'] about the order ['1'] at the same instant
    has the identity of that record: it is reported as a duplicate, on every
    delivery, and the line that the type is ignored is never printed. *)
Lemma unhandled_type_is_taken_for_a_duplicate :
  isValidEvent collidingSample = true /\
  getProp collidingSample "type" <> JStr "ORDER_CREATED" /\
  sampleHandle 0 collidingSample
    (snd (fst (sampleHandle 0 orderCreatedSample freshState)))
  = (Normal tt, snd (fst (sampleHandle 0 orderCreatedSample freshState)),
     [LogDuplicate (JStr "ORDER_CREATED-order")
        "ORDER_CREATED-order-1-2024-01-01T00:00:00.000Z"]).
Proof. split; [reflexivity|]. split; [discriminate|]. reflexivity. Qed.

Lemma missing_order_id_collides_witness :
  anonymousSample "a@b.com" <> anonymousSample "c@d.com" /\
  sampleHandle 1 (anonymousSample "c@d.com")
    (snd (fst (sampleHandle 0 (anonymousSample "a@b.com") freshState)))
  = (Normal tt, snd (fst (sampleHandle 0 (anonymousSample "a@b.com") freshState)),
     [LogDuplicate (JStr "ORDER_CREATED")
        "ORDER_CREATED-unknown-2024-01-01T00:00:00.000Z"]).
Proof.
  split; [discriminate|].
  destruct (missing_order_id_collides nat countingService renderInteger 0 1
              (anonymousSample "a@b.com") (anonymousSample "c@d.com")
              "2024-01-01T00:00:00.000Z" freshState
              (snd (fst (sampleHandle 0 (anonymousSample "a@b.com") freshState)))
              (snd (sampleHandle 0 (anonymousSample "a@b.com") freshState))
              eq_refl eq_refl eq_refl eq_refl eq_refl eq_refl eq_refl eq_refl)
    as (_ & _ & Hdrop).
  apply Hdrop. vm_compute. reflexivity.
Defined.

End HandlerFacts.

(** ** Consumer *)

Module ConsumerFacts.
Import Consumer.

Section Facts.

Variable HS : Type.
Variable handle : JsVal -> HS -> Completion unit * HS.
Variable JSON_parse : string -> Completion JsVal.
Variable heartbeat : Completion unit.
Variable nowISO : string.
Variable typeErrorMessage : JsVal -> string.

Local Abbreviation parseMessage :=
  (Consumer.parseMessage JSON_parse nowISO typeErrorMessage).
Local Abbreviation processMessage :=
  (Consumer.processMessage HS handle JSON_parse heartbeat nowISO typeErrorMessage).
Local Abbreviation eachMessage :=
  (Consumer.eachMessage HS handle JSON_parse heartbeat nowISO typeErrorMessage).

Lemma parseMessage_Normal (message : Message) (event : JsVal) (tr : list Effect) :
  parseMessage message = (Normal event, tr) -> tr = [].
Proof.
  unfold Consumer.parseMessage.
  destruct (JSON_parse (value message)) as [[]|m]; intros [= _ <-]; reflexivity.
Qed.

Lemma eachMessage_returns (message : Message) (hs : HS) :
  fst (fst (eachMessage message hs)) = Normal tt.
Proof.
  unfold Consumer.eachMessage.
  destruct (processMessage message hs) as [[[u|m] hs'] tr]; reflexivity.
Qed.

(** C4, as the code has it. When the handler throws for a record that
    parsed and whose heartbeat went through, [processMessage] throws that
    same error after a single call of the handler; the [eachMessage]
    callback catches it, prints it and returns normally, again with a
    single call of the handler. [eachMessage] returns normally for every
    record. *)
Theorem handler_failure_stops_in_eachMessage
    (message : Message) (event : JsVal) (tr0 : list Effect)
    (hs hs' : HS) (m : string) :
  parseMessage message = (Normal event, tr0) ->
  heartbeat = Normal tt ->
  handle event hs = (Throw m, hs') ->
  exists tr,
    processMessage message hs = (Throw m, hs', tr) /\
    handleCalls tr = 1%nat /\
    eachMessage message hs = (Normal tt, hs', tr ++ [LogEachMessageError m]) /\
    handleCalls (tr ++ [LogEachMessageError m]) = 1%nat /\
    forall message' hs0, fst (fst (eachMessage message' hs0)) = Normal tt.
Proof.
  intros Hp Hb Hh.
  pose proof (parseMessage_Normal _ _ _ Hp) as ->.
  assert (Hpm : processMessage message hs =
                (Throw m, hs',
                 [ LogReceived (getProp event "type")
                     (getProp (getProp event "data") "orderId");
                   CallHeartbeat; CallHandle event; LogProcessFailed m ])).
  { unfold Consumer.processMessage. rewrite Hp, Hb, Hh. reflexivity. }
  eexists. split; [exact Hpm|]. split; [reflexivity|].
  split; [|split; [reflexivity | apply eachMessage_returns]].
  unfold Consumer.eachMessage. rewrite Hpm. reflexivity.
Qed.

End Facts.

Lemma handler_failure_stops_in_eachMessage_witness :
  failingHandle
    (JObj (setProp "metadata"
             (metadataOf "t" sampleMessage)
             [ ("type", JStr "ORDER_CREATED");
               ("timestamp", JStr "2024-01-01T00:00:00.000Z");
               ("data", JObj [("orderId", JStr "order-1")]) ])) tt
  = (Throw "notification backend down", tt) /\
  exists tr,
    Consumer.eachMessage unit failingHandle parseSample (Normal tt) "t" noTypeError
      sampleMessage tt
    = (Normal tt, tt, tr ++ [LogEachMessageError "notification backend down"]).
Proof.
  split; [reflexivity|].
  destruct (handler_failure_stops_in_eachMessage unit failingHandle parseSample
              (Normal tt) "t" noTypeError sampleMessage _ _ tt tt
              "notification backend down" eq_refl eq_refl eq_refl)
    as (tr & _ & _ & H & _).
  exists tr. exact H.
Defined.

(** The claim C4 read on the [eachMessage] callback fails: the handler throws
    for this record, [processMessage] passes the error on, and the callback
    still returns normally. *)
Lemma eachMessage_swallows_handler_failure :
  fst (fst (Consumer.processMessage unit failingHandle parseSample (Normal tt) "t"
              noTypeError sampleMessage tt))
  = Throw "notification backend down" /\
  fst (fst (Consumer.eachMessage unit failingHandle parseSample (Normal tt) "t"
              noTypeError sampleMessage tt))
  = Normal tt.
Proof. split; reflexivity. Qed.

End ConsumerFacts.

(** ** Notification orchestrator *)

Module NotificationFacts.
Import Notification.

(** C6, as the code has it. [sendOrderConfirmation] tries the email channel
    only. For order data that is neither [null] nor [undefined] and whose
    order id converts to a string, it returns normally whatever the email
    sender does: its record holds exactly one entry, for the email channel,
    with status ['success'] and the sender's result when the sender
    returned, and status ['failed'] and the error message when it threw.
    The SMS sender has no part in it: replacing it changes nothing. For
    [null] or [undefined] order data, and for an order id that does not
    convert, the call throws a [TypeError] before any channel is tried and
    the history is left as it was. *)
Theorem sendOrderConfirmation_reports_email_only
    (channels : Channels) (nowISO : string) (numToString : Q -> string)
    (orderData : JsVal) (h : History) :
  (forall text,
     orderData <> JNull -> orderData <> JUndefined ->
     toStr numToString (getProp orderData "orderId") = Normal text ->
     exists r h',
       sendOrderConfirmation channels nowISO numToString orderData h = (Normal r, h') /\
       orderId r = getProp orderData "orderId" /\
       notifications r =
         [ match emailSend channels orderData with
           | Normal res => mkChannelOutcome "email" "success" (Some res) None
           | Throw m => mkChannelOutcome "email" "failed" None (Some m)
           end ] /\
       (countStatus "success" r + countStatus "failed" r = 1)%nat) /\
  (orderData = JNull \/ orderData = JUndefined ->
   sendOrderConfirmation channels nowISO numToString orderData h
   = (Throw (cannotRead orderData "orderId"), h)) /\
  (forall m,
     orderData <> JNull -> orderData <> JUndefined ->
     toStr numToString (getProp orderData "orderId") = Throw m ->
     sendOrderConfirmation channels nowISO numToString orderData h = (Throw m, h)) /\
  (forall sms,
     sendOrderConfirmation (mkChannels (emailSend channels) sms) nowISO numToString
       orderData h
     = sendOrderConfirmation channels nowISO numToString orderData h).
Proof.
  unfold sendOrderConfirmation, announced. repeat split.
  - intros text Hn Hu Ht.
    assert (E : match orderData with
                | JUndefined | JNull => Throw (cannotRead orderData "orderId")
                | _ => toStr numToString (getProp orderData "orderId")
                end = Normal text).
    { destruct orderData; try contradiction; exact Ht. }
    rewrite E. eexists. eexists. split; [reflexivity|]. simpl.
    repeat split. unfold countStatus. simpl.
    destruct (emailSend channels orderData); reflexivity.
  - intros [->| ->]; reflexivity.
  - intros m Hn Hu Ht.
    assert (E : match orderData with
                | JUndefined | JNull => Throw (cannotRead orderData "orderId")
                | _ => toStr numToString (getProp orderData "orderId")
                end = Throw m).
    { destruct orderData; try contradiction; exact Ht. }
    now rewrite E.
Qed.

(** The claim C6 fails in both of its cases: with email delivered and SMS
    down the record holds one ['success'] and no ['failed'] entry; with email
    down and SMS delivering it holds one ['failed'] and no ['success']. *)
Lemma one_failing_channel_gives_one_entry :
  (exists r h,
     sendOrderConfirmation (mkChannels (deliver "email") smsDown) "t" renderInteger
       sampleOrder []
       = (Normal r, h) /\
     countStatus "success" r = 1%nat /\ countStatus "failed" r = 0%nat) /\
  (exists r h,
     sendOrderConfirmation (mkChannels emailDown (deliver "sms")) "t" renderInteger
       sampleOrder []
       = (Normal r, h) /\
     countStatus "success" r = 0%nat /\ countStatus "failed" r = 1%nat).
Proof.
  split; eexists; eexists; (split; [reflexivity|]); split; reflexivity.
Qed.

End NotificationFacts.

(** ** Event schemas *)

Module SchemaFacts.
Import Schema.

Lemma lookup_setProp_same (k : string) (v : JsVal) (props : list (string * JsVal)) :
  lookup k (setProp k v props) = Some v.
Proof.
  induction props as [|[k' x] rest IH]; simpl.
  - now rewrite String.eqb_refl.
  - destruct (String.eqb k k') eqn:E; simpl.
    + now rewrite String.eqb_refl.
    + now rewrite E.
Qed.

Lemma lookup_setProp_other (k k' : string) (v : JsVal) (props : list (string * JsVal)) :
  k <> k' -> lookup k (setProp k' v props) = lookup k props.
Proof.
  intros Hne. induction props as [|[k2 x] rest IH]; simpl.
  - destruct (String.eqb_spec k k'); congruence.
  - destruct (String.eqb_spec k' k2); simpl.
    + subst k2. destruct (String.eqb_spec k k'); congruence.
    + destruct (String.eqb_spec k k2); auto.
Qed.




Section VisitKeys.

Variable validateChild : Schema -> list string -> JsVal -> JoiResult.
Variable at_ : list string.
Variable props : list (string * JsVal).

Local Abbreviation visit := (visitKeys validateChild at_ props).

(** One step of the visit: the copy is left alone or receives a value for
    the key, and a missing key with a default receives the default. *)
Lemma visitKeys_step (k : string) (p : Presence) (child : Schema)
    (rest : list (string * (Presence * Schema))) (out out' : list (string * JsVal)) :
  visit ((k, (p, child)) :: rest) out = inr out' ->
  exists out1,
    visit rest out1 = inr out' /\
    (out1 = out \/ exists v, out1 = setProp k v out) /\
    (getProp (JObj props) k = JUndefined ->
     forall d, p = Default d -> out1 = setProp k d out).
Proof.
  simpl.
  destruct (match lookup k props with Some x => x | None => JUndefined end) eqn:G.
  1:{ destruct p as [| |d0]; [discriminate| |]; intros H.
      - exists out. repeat split; auto. intros _ d [=].
      - exists (setProp k d0 out). repeat split; eauto. now intros _ d [= <-]. }
  all: destruct (validateChild child (at_ ++ [k]) _) as [e|x'];
    [discriminate|]; intros H;
    exists (setProp k x' out); repeat split; eauto; intros [=].
Qed.



End VisitKeys.

Section Validate.

Variable isUuid : string -> bool.
Variable isEmail : string -> bool.
Variable isIsoDate : string -> bool.
Variable parseNumber : string -> option Q.

Local Abbreviation validateAt := (Schema.validateAt isUuid isEmail isIsoDate parseNumber).
Local Abbreviation joiValidate := (Schema.joiValidate isUuid isEmail isIsoDate parseNumber).
Local Abbreviation validate := (Schema.validate isUuid isEmail isIsoDate parseNumber).

(** What a successful validation against an object schema says. *)
Lemma validateAt_object (keys : list (string * (Presence * Schema)))
    (at_ : list string) (v r : JsVal) :
  validateAt (SObject keys) at_ v = inr r ->
  exists props out,
    v = JObj props /\
    visitKeys validateAt at_ props keys props = inr out /\
    unknownKey (map fst keys) props = None /\
    r = JObj out.
Proof.
  simpl. destruct v as [| | | | | |props]; try discriminate.
  destruct (visitKeys _ at_ props keys props) as [e|out] eqn:V; [discriminate|].
  destruct (unknownKey (map fst keys) props) as [k|] eqn:E; [discriminate|].
  intros [= <-]. exists props, out. repeat split; assumption || reflexivity.
Qed.




Lemma baseEventKeys_NoDup : NoDup (map fst baseEventKeys).
Proof. apply HandlerFacts.nodupb_NoDup. reflexivity. Qed.



End Validate.



End SchemaFacts.

(** ** Event publisher *)

Module PublisherFacts.
Import OrderIntake Schema.

Section Publisher.

Variable SavedOrder : Type.
Variable orderId : SavedOrder -> string.
Variable toEventData : SavedOrder -> JsVal.
Variable send : ProducerRecord -> Completion (list RecordMetadata).
Variables nowISO nowMillis : string.
Variable stringify : JsVal -> string.

Local Abbreviation envelope := (orderCreatedEvent SavedOrder toEventData nowISO).
Local Abbreviation publish :=
  (publishOrderCreated SavedOrder orderId toEventData send nowISO nowMillis stringify).

(** C7, as the code has it. The envelope that [publishOrderCreated] builds
    and sends, serialised, under the order id as key carries [type]
    (['ORDER_CREATED']), [timestamp] (the clock reading), [version]
    (['1.0']), [source] (['order-service']) and [data] (the event data of
    the order), and no [id]; the base schema therefore rejects it, [id]
    being required. The envelopes of [EventBuilder.createOrderCreatedEvent],
    which the publisher does not call, carry all six fields. *)
Theorem published_envelope_has_no_id (order : SavedOrder) :
  keysOf (envelope order) = ["type"; "timestamp"; "version"; "source"; "data"] /\
  getProp (envelope order) "type" = JStr "ORDER_CREATED" /\
  getProp (envelope order) "timestamp" = JStr nowISO /\
  getProp (envelope order) "version" = JStr "1.0" /\
  getProp (envelope order) "source" = JStr "order-service" /\
  getProp (envelope order) "data" = toEventData order /\
  hasField (envelope order) "id" = false /\
  (forall isUuid isEmail isIsoDate parseNumber,
     joiValidate isUuid isEmail isIsoDate parseNumber baseEventSchema (envelope order)
     = inl (mkJoiError ["id"] any_required)) /\
  (exists message,
     snd (publish order) = [ProducerSend (mkProducerRecord "order-events" [message])] /\
     msg_key message = orderId order /\
     msg_value message = stringify (envelope order)) /\
  (forall uuid now data source,
     keysOf (createOrderCreatedEvent uuid now data source) = envelopeFields /\
     hasEnvelopeFields (createOrderCreatedEvent uuid now data source) = true).
Proof.
  do 8 (split; [reflexivity|]). split.
  - unfold publishOrderCreated, publishEvent.
    eexists. split.
    + destruct (send _) as [[|r rs]|m]; reflexivity.
    + split; reflexivity.
  - intros. split; reflexivity.
Qed.

End Publisher.

(** The claim C7 fails: the envelope published for the widget order lacks
    one of the envelope fields, and the base schema answers that [id] is
    required. *)
Lemma published_envelope_lacks_id :
  hasEnvelopeFields
    (orderCreatedEvent _ memoryEventData "2024-01-01T00:00:00.000Z" widgetSaved)
  = false /\
  joiValidate anyString anyString anyString noNumber baseEventSchema
    (orderCreatedEvent _ memoryEventData "2024-01-01T00:00:00.000Z" widgetSaved)
  = inl (mkJoiError ["id"] any_required).
Proof. split; reflexivity. Qed.

End PublisherFacts.

(** ** Order service: outcomes of [createOrder], the health probe and the
    controller *)

Module OrderServiceFacts.
Import OrderIntake.

Lemma validateItem_ok (i : nat) (item : RawItem) :
  ItemOk item -> validateItem i item = Normal tt.
Proof.
  intros (Hid & Ht & (q & Hq & Hqpos) & (p & Hp & Hppos)).
  assert (Hpos : forall x, 0 < x -> notPositive (Some x) = false).
  { intros x Hx. simpl. apply orb_false_intro.
    - destruct (Qeq_bool x 0) eqn:E; [|reflexivity].
      apply Qeq_bool_iff in E. rewrite E in Hx. now apply Qlt_irrefl in Hx.
    - destruct (Qle_bool x 0) eqn:E; [|reflexivity].
      apply Qle_bool_iff in E. exfalso. exact (Qlt_not_le _ _ Hx E). }
  unfold validateItem. rewrite Hid, Ht, Hq, Hp, (Hpos q Hqpos), (Hpos p Hppos).
  reflexivity.
Qed.

Lemma validateItem_reason (i : nat) (item : RawItem) (m : string) :
  validateItem i item = Throw m ->
  exists reason,
    In reason itemReasons /\
    m = ("Item " ++ nat_to_string (i + 1) ++ ": " ++ reason)%string.
Proof.
  unfold validateItem, itemReasons.
  destruct (missingId (item_id item));
    [intros [= <-]; eexists; split; [|reflexivity]; simpl; tauto|].
  destruct (missingStr (item_title item));
    [intros [= <-]; eexists; split; [|reflexivity]; simpl; tauto|].
  destruct (notPositive (item_quantity item));
    [intros [= <-]; eexists; split; [|reflexivity]; simpl; tauto|].
  destruct (notPositive (item_price item));
    [intros [= <-]; eexists; split; [|reflexivity]; simpl; tauto|].
  discriminate.
Qed.

Lemma validateItems_first_failure (pre rest : list RawItem) (bad : RawItem) :
  Forall ItemOk pre -> ItemRejected bad ->
  forall i, exists reason,
    In reason itemReasons /\
    validateItems i (pre ++ bad :: rest) =
      Throw ("Item " ++ nat_to_string (i + List.length pre + 1) ++ ": " ++ reason).
Proof.
  induction 1 as [|x pre Hx _ IH]; intros Hbad i; simpl.
  - destruct (OrderIntakeFacts.validateItem_rejected i bad Hbad) as [m Hm].
    destruct (validateItem_reason i bad m Hm) as (reason & Hin & ->).
    exists reason. split; [exact Hin|]. rewrite Hm. simpl.
    now rewrite Nat.add_0_r.
  - rewrite (validateItem_ok i x Hx). simpl.
    destruct (IH Hbad (S i)) as (reason & Hin & Heq).
    exists reason. split; [exact Hin|]. rewrite Heq.
    replace (S i + List.length pre + 1)%nat with (i + S (List.length pre) + 1)%nat
      by lia.
    reflexivity.
Qed.

(** The items are checked in order and the error names the first offending
    one, counted from 1. *)
Theorem validateOrderData_names_first_bad_item
    (orderData : OrderData) (pre rest : list RawItem) (bad : RawItem) :
  missingStr (od_userId orderData) = false ->
  missingStr (od_customerEmail orderData) = false ->
  missingStr (od_customerName orderData) = false ->
  od_items orderData = ItemsArray (pre ++ bad :: rest) ->
  Forall ItemOk pre -> ItemRejected bad ->
  exists reason,
    In reason itemReasons /\
    validateOrderData orderData =
      Throw ("Item " ++ nat_to_string (List.length pre + 1) ++ ": " ++ reason).
Proof.
  intros Hu He Hn Hi Hpre Hbad.
  destruct (validateItems_first_failure pre rest bad Hpre Hbad 0) as (reason & Hin & Hv).
  exists reason. split; [exact Hin|].
  unfold validateOrderData. rewrite Hu, Hi, He, Hn.
  destruct (pre ++ bad :: rest) eqn:E; [destruct pre; discriminate|].
  rewrite Hv. reflexivity.
Qed.

Section Outcomes.

Variable SavedOrder : Type.
Variable orderId : SavedOrder -> string.
Variable toEventData : SavedOrder -> JsVal.
Variable save : OrderToSave -> Completion SavedOrder.
Variable send : ProducerRecord -> Completion (list RecordMetadata).
Variables nowISO nowMillis : string.
Variable stringify : JsVal -> string.
Variable orderDocument : SavedOrder -> JsVal.

Local Abbreviation create :=
  (createOrder SavedOrder orderId toEventData save send nowISO nowMillis stringify).
Local Abbreviation publishEvent := (OrderIntake.publishEvent send nowMillis stringify).
Local Abbreviation envelope := (orderCreatedEvent SavedOrder toEventData nowISO).
Local Abbreviation respond :=
  (respondCreateOrder SavedOrder orderId toEventData save send nowISO nowMillis
     stringify orderDocument).

Local Abbreviation recordOf := (OrderIntake.recordOf nowMillis stringify).

Lemma createOrder_after_validation (orderData : OrderData) (l : list RawItem) :
  validateOrderData orderData = Normal l ->
  create orderData =
    let o := mkOrderToSave (od_userId orderData) l (calculateTotal l)
               (od_customerEmail orderData) (od_customerName orderData) "PENDING" in
    match save o with
    | Throw m => (Throw m, [RepoSave o])
    | Normal saved =>
        match send (recordOf (envelope saved) (orderId saved)) with
        | Normal (r :: rs) =>
            (Normal saved, [RepoSave o; ProducerSend (recordOf (envelope saved) (orderId saved))])
        | Normal [] =>
            (Throw ("Event publishing failed: " ++
                    "Cannot read properties of undefined (reading 'partition')"),
             [RepoSave o; ProducerSend (recordOf (envelope saved) (orderId saved))])
        | Throw m =>
            (Throw ("Event publishing failed: " ++ m),
             [RepoSave o; ProducerSend (recordOf (envelope saved) (orderId saved))])
        end
    end.
Proof.
  intros Hv. unfold createOrder. rewrite Hv. cbv zeta.
  destruct (save _) as [saved|m]; [|reflexivity].
  unfold publishOrderCreated, OrderIntake.publishEvent, OrderIntake.recordOf.
  destruct (send _) as [[|r rs]|m]; reflexivity.
Qed.

(** When validation, the repository and the producer all succeed,
    [createOrder] returns the stored order after exactly two collaborator
    calls, in this order: one save, then one send of a single record keyed by
    the id the repository assigned. *)
Theorem createOrder_saves_then_publishes_once
    (orderData : OrderData) (l : list RawItem) (saved : SavedOrder)
    (r : RecordMetadata) (rs : list RecordMetadata) :
  validateOrderData orderData = Normal l ->
  save (mkOrderToSave (od_userId orderData) l (calculateTotal l)
          (od_customerEmail orderData) (od_customerName orderData) "PENDING")
    = Normal saved ->
  send (recordOf (envelope saved) (orderId saved)) = Normal (r :: rs) ->
  exists stored message,
    create orderData =
      (Normal saved,
       [RepoSave stored; ProducerSend (mkProducerRecord "order-events" [message])]) /\
    items stored = l /\
    msg_key message = orderId saved /\
    msg_value message = stringify (envelope saved).
Proof.
  intros Hv Hs Hp. rewrite (createOrder_after_validation orderData l Hv). cbv zeta.
  rewrite Hs, Hp. eexists. eexists. split; [reflexivity|]. repeat split.
Qed.

(** When the producer fails after the repository stored the order,
    [createOrder] throws the producer's error behind the prefix
    ["Event publishing failed: "]; the save is not undone and the send is
    not repeated: the trace is the save followed by the one failed send. *)
Theorem createOrder_publish_failure_keeps_the_order
    (orderData : OrderData) (l : list RawItem) (saved : SavedOrder) (m : string) :
  validateOrderData orderData = Normal l ->
  save (mkOrderToSave (od_userId orderData) l (calculateTotal l)
          (od_customerEmail orderData) (od_customerName orderData) "PENDING")
    = Normal saved ->
  send (recordOf (envelope saved) (orderId saved)) = Throw m ->
  exists stored record,
    create orderData =
      (Throw ("Event publishing failed: " ++ m),
       [RepoSave stored; ProducerSend record]) /\
    items stored = l.
Proof.
  intros Hv Hs Hp. rewrite (createOrder_after_validation orderData l Hv). cbv zeta.
  rewrite Hs, Hp. eexists. eexists. split; reflexivity.
Qed.

(** When the repository fails, [createOrder] throws the repository's error
    unchanged and the producer is never called. *)
Theorem createOrder_repository_failure_publishes_nothing
    (orderData : OrderData) (l : list RawItem) (m : string) :
  validateOrderData orderData = Normal l ->
  save (mkOrderToSave (od_userId orderData) l (calculateTotal l)
          (od_customerEmail orderData) (od_customerName orderData) "PENDING")
    = Throw m ->
  exists stored,
    create orderData = (Throw m, [RepoSave stored]) /\
    forall record, ~ In (ProducerSend record) (snd (create orderData)).
Proof.
  intros Hv Hs. rewrite (createOrder_after_validation orderData l Hv). cbv zeta.
  rewrite Hs. eexists. split; [reflexivity|].
  intros record [H|[]]. discriminate.
Qed.

(** The health probe never throws: it sends one HEALTH_CHECK record under
    the key ["health-check"] to the order topic and answers [true] exactly
    when the producer acknowledged it with at least one record metadata. *)
Theorem isHealthy_reflects_the_producer :
  snd (isHealthy send nowISO nowMillis stringify) =
    [ProducerSend (recordOf (healthEvent nowISO) "health-check")] /\
  (fst (isHealthy send nowISO nowMillis stringify) = true <->
   exists r rs,
     send (recordOf (healthEvent nowISO) "health-check") = Normal (r :: rs)).
Proof.
  unfold isHealthy, OrderIntake.publishEvent, OrderIntake.recordOf.
  destruct (send _) as [[|r rs]|m]; simpl; (split; [reflexivity|]); split;
    try discriminate; eauto; intros (r' & rs' & H); discriminate.
Qed.

(** The controller answers 201 exactly when [createOrder] returned, and 400
    otherwise; a rejected body is answered 400 with the validation message
    and without any call to the repository or the producer. *)
Theorem respondCreateOrder_status (reqBody : OrderData) :
  (statusCode (fst (respond reqBody)) = 201%nat <->
   isNormal (fst (create reqBody)) = true) /\
  (statusCode (fst (respond reqBody)) = 400%nat <->
   isNormal (fst (create reqBody)) = false) /\
  snd (respond reqBody) = snd (create reqBody) /\
  (forall m, validateOrderData reqBody = Throw m -> m <> "" ->
     respond reqBody =
       (mkResponse 400
          (JObj [ ("success", JBool false); ("message", JStr m); ("details", JNull) ]),
        [])).
Proof.
  unfold respondCreateOrder.
  split; [|split; [|split]].
  - destruct (create reqBody) as [[o|m] tr]; simpl; split; congruence.
  - destruct (create reqBody) as [[o|m] tr]; simpl; split; congruence.
  - destruct (create reqBody) as [[o|m] tr]; reflexivity.
  - intros m Hm Hne. unfold createOrder. rewrite Hm.
    destruct (String.eqb_spec m ""); [contradiction | reflexivity].
Qed.

End Outcomes.

Lemma widgetItems_ok : Forall ItemOk widgetItems.
Proof.
  repeat constructor; simpl; try reflexivity; eexists; (split; [reflexivity|]);
    reflexivity.
Qed.

Lemma validateOrderData_names_first_bad_item_witness :
  exists reason,
    In reason itemReasons /\
    validateOrderData widgetAndUnpriced = Throw ("Item 2: " ++ reason).
Proof.
  destruct (validateOrderData_names_first_bad_item widgetAndUnpriced widgetItems []
              unpricedItem eq_refl eq_refl eq_refl eq_refl widgetItems_ok
              (NoPrice unpricedItem eq_refl)) as (reason & Hin & H).
  exists reason. split; [exact Hin | exact H].
Defined.

Lemma createOrder_saves_then_publishes_once_witness :
  exists stored message,
    createOrder _ fst memoryEventData memorySave ackSend "t" "0" noStringify widgetOrder
    = (Normal widgetSaved,
       [RepoSave stored; ProducerSend (mkProducerRecord "order-events" [message])]) /\
    msg_key message = "order-1".
Proof.
  destruct (createOrder_saves_then_publishes_once _ fst memoryEventData memorySave
              ackSend "t" "0" noStringify widgetOrder widgetItems widgetSaved
              (mkRecordMetadata 0 "0") [] eq_refl eq_refl eq_refl)
    as (stored & message & H & _ & Hkey & _).
  exists stored, message. split; assumption.
Defined.

Lemma createOrder_publish_failure_keeps_the_order_witness :
  exists stored record,
    createOrder _ fst memoryEventData memorySave brokerDown "t" "0" noStringify
      widgetOrder
    = (Throw "Event publishing failed: Connection timeout",
       [RepoSave stored; ProducerSend record]).
Proof.
  destruct (createOrder_publish_failure_keeps_the_order _ fst memoryEventData
              memorySave brokerDown "t" "0" noStringify widgetOrder widgetItems
              widgetSaved "Connection timeout" eq_refl eq_refl eq_refl)
    as (stored & record & H & _).
  exists stored, record. exact H.
Defined.

Lemma createOrder_repository_failure_publishes_nothing_witness :
  exists stored,
    createOrder _ fst memoryEventData repositoryDown ackSend "t" "0" noStringify
      widgetOrder
    = (Throw "MongoDB connection lost", [RepoSave stored]).
Proof.
  destruct (createOrder_repository_failure_publishes_nothing _ fst memoryEventData
              repositoryDown ackSend "t" "0" noStringify widgetOrder widgetItems
              "MongoDB connection lost" eq_refl eq_refl)
    as (stored & H & _).
  exists stored. exact H.
Defined.

Lemma respondCreateOrder_status_witness :
  respondCreateOrder _ fst memoryEventData memorySave ackSend "t" "0" noStringify
    memoryDocument widgetAndUnpriced
  = (mkResponse 400
       (JObj [ ("success", JBool false);
               ("message", JStr "Item 2: Valid price is required");
               ("details", JNull) ]),
     []).
Proof.
  destruct (respondCreateOrder_status _ fst memoryEventData memorySave ackSend
              "t" "0" noStringify memoryDocument widgetAndUnpriced)
    as (_ & _ & _ & H).
  apply H; [reflexivity | discriminate].
Defined.

End OrderServiceFacts.

(** ** Event handler: dropped, failed and remembered deliveries *)

Module DedupFacts.
Import Handler.

Lemma In_skipn {A} (n : nat) (l : list A) (x : A) : In x (skipn n l) -> In x l.
Proof.
  intros H. rewrite <- (firstn_skipn n l). apply in_or_app. now right.
Qed.

Lemma sliceLast_sliceLast {A} (n m : nat) (l : list A) :
  (n <= m)%nat -> sliceLast n (sliceLast m l) = sliceLast n l.
Proof.
  intros H. unfold sliceLast. rewrite length_skipn, skipn_skipn.
  f_equal. lia.
Qed.

Lemma In_sliceLast_mono {A} (n m : nat) (l : list A) (x : A) :
  (n <= m)%nat -> In x (sliceLast n l) -> In x (sliceLast m l).
Proof.
  intros H Hin. rewrite <- (sliceLast_sliceLast n m l H) in Hin.
  unfold sliceLast at 1 in Hin. now apply In_skipn in Hin.
Qed.

Lemma In_sliceLast {A} (n : nat) (l : list A) (x : A) :
  In x (sliceLast n l) -> In x l.
Proof. apply In_skipn. Qed.

Lemma In_refill_inv (x : string) (l : list string) :
  forall acc, In x (fold_left (fun acc id => setAdd id acc) l acc) ->
              In x l \/ In x acc.
Proof.
  induction l as [|y l IH]; intros acc H; simpl in *; [now right|].
  apply IH in H as [H|H]; [tauto|].
  apply HandlerFacts.In_setAdd in H as [->|H]; tauto.
Qed.

Lemma In_trim (x : string) (s : StringSet) : In x (trim s) -> In x s.
Proof.
  unfold trim. destruct (1000 <? List.length s)%nat; [|trivial].
  intros H. apply In_refill_inv in H as [H|[]]. now apply In_sliceLast in H.
Qed.

(** After the clean-up an identity among the last [n <= 499] of the set
    before the insertion is among the last [n + 1]. *)
Lemma trim_snoc_recent (s : StringSet) (id x : string) (n : nat) :
  NoDup (s ++ [id]) -> (n < 500)%nat ->
  In x (sliceLast n s) -> In x (sliceLast (S n) (trim (s ++ [id]))).
Proof.
  intros Hnd Hn Hin.
  assert (Hgoal : In x (sliceLast (S n) (s ++ [id]))).
  { rewrite HandlerFacts.sliceLast_snoc. apply in_or_app. now left. }
  destruct (Nat.le_gt_cases (List.length (s ++ [id])) 1000) as [Hle|Hgt].
  - now rewrite HandlerFacts.trim_small.
  - rewrite HandlerFacts.trim_overflow by assumption.
    rewrite sliceLast_sliceLast by lia. exact Hgoal.
Qed.

Lemma trim_snoc_last (s : StringSet) (id : string) :
  NoDup (s ++ [id]) -> In id (sliceLast 1 (trim (s ++ [id]))).
Proof.
  intros Hnd.
  assert (Hgoal : In id (sliceLast 1 (s ++ [id]))).
  { rewrite HandlerFacts.sliceLast_snoc. apply in_or_app. right. now left. }
  destruct (Nat.le_gt_cases (List.length (s ++ [id])) 1000) as [Hle|Hgt].
  - now rewrite HandlerFacts.trim_small.
  - rewrite HandlerFacts.trim_overflow by assumption.
    rewrite sliceLast_sliceLast by lia. exact Hgoal.
Qed.

Section Deliveries.

Variable NS : Type.
Variable sendOrderConfirmation :
  JsVal -> NS -> Completion Notification.NotificationRecord * NS.
Variable numToString : Q -> string.

Local Abbreviation handle := (Handler.handle NS sendOrderConfirmation numToString).
Local Abbreviation handleAll := (Handler.handleAll NS sendOrderConfirmation numToString).
Local Abbreviation generateEventId := (Handler.generateEventId numToString).
Local Abbreviation State := (Handler.State NS).
Local Abbreviation known := (processedEvents NS).

(** The ways a call of [handle] can leave the dedup set. *)
Lemma handle_set_cases (d : Q) (e : JsVal) (st st' : State)
    (c : Completion unit) (tr : list Effect) :
  handle d e st = (c, st', tr) ->
  known st' = known st \/
  (exists id,
     isValidEvent e = true /\
     strictEqStr (getProp e "type") "ORDER_CREATED" = true /\
     generateEventId d e = Normal id /\
     setHas id (known st) = false /\
     c = Normal tt /\
     known st' = trim (known st ++ [id])).
Proof.
  intros H.
  destruct (isValidEvent e) eqn:Hv.
  2:{ unfold Handler.handle in H. rewrite Hv in H. simpl in H.
      injection H as <- <- <-. now left. }
  destruct (generateEventId d e) as [id|m] eqn:Hid.
  2:{ rewrite (HandlerFacts.handle_unconvertible NS sendOrderConfirmation numToString
                 d e st m Hv Hid) in H.
      injection H as <- <- <-. now left. }
  destruct (setHas id (known st)) eqn:Hd.
  { rewrite (HandlerFacts.handle_duplicate NS sendOrderConfirmation numToString
               d e st id Hv Hid Hd) in H.
    injection H as <- <- <-. now left. }
  destruct (strictEqStr (getProp e "type") "ORDER_CREATED") eqn:Ht.
  2:{ rewrite (HandlerFacts.handle_ignored NS sendOrderConfirmation numToString
                 d e st id Hv Hid Hd Ht) in H.
      injection H as <- <- <-. now left. }
  destruct (HandlerFacts.handle_processed NS sendOrderConfirmation numToString
              d e st id Hv Hid Hd Ht)
    as (c' & ns' & tr' & _ & Hh).
  destruct c' as [u|m]; rewrite Hh in H; injection H as <- <- <-; simpl.
  - right. exists id. repeat split; auto.
  - now left.
Qed.

Lemma NoDup_snoc_fresh (s : StringSet) (id : string) :
  NoDup s -> setHas id s = false -> NoDup (s ++ [id]).
Proof.
  intros Hnd Hd. rewrite <- (HandlerFacts.setAdd_fresh _ _ Hd).
  now apply HandlerFacts.NoDup_setAdd.
Qed.

Lemma handle_keeps_recent (d : Q) (e : JsVal) (st st' : State)
    (c : Completion unit) (tr : list Effect) (x : string) (n : nat) :
  handle d e st = (c, st', tr) ->
  NoDup (known st) -> (n < 500)%nat ->
  In x (sliceLast n (known st)) -> In x (sliceLast (S n) (known st')).
Proof.
  intros H Hnd Hn Hin.
  destruct (handle_set_cases d e st st' c tr H)
    as [->|(id & _ & _ & _ & Hd & _ & ->)].
  - apply (In_sliceLast_mono n (S n)); [lia | assumption].
  - apply trim_snoc_recent; auto using NoDup_snoc_fresh.
Qed.

Lemma handleAll_keeps_recent (d : Q) (x : string) (mid : list JsVal) :
  forall (st : State) (n : nat),
    NoDup (known st) -> (n + List.length mid <= 500)%nat ->
    In x (sliceLast n (known st)) ->
    In x (known (fst (handleAll d mid st))).
Proof.
  induction mid as [|e rest IH]; intros st n Hnd Hn Hin; simpl.
  - now apply In_sliceLast in Hin.
  - destruct (handle d e st) as [[c st1] tr1] eqn:H1.
    pose proof (handle_keeps_recent d e st st1 c tr1 x n H1 Hnd) as Hrec.
    destruct (HandlerFacts.handle_invariant NS sendOrderConfirmation numToString d e st st1 c tr1 H1) as [_ Hnd1].
    specialize (IH st1 (S n) (Hnd1 Hnd)).
    destruct (handleAll d rest st1) as [st2 tr2]. simpl in *.
    apply IH; [lia|]. apply Hrec; [lia | assumption].
Qed.

(** An event with an invalid structure is dropped: [handle] returns
    normally, prints a warning, leaves the handler as it is and calls
    nothing. *)
Theorem invalid_event_is_dropped (d : Q) (e : JsVal) (st : State) :
  isValidEvent e = false ->
  handle d e st = (Normal tt, st, [WarnInvalid e]) /\
  sendCalls (snd (handle d e st)) = [].
Proof.
  intros H. unfold Handler.handle. rewrite H. split; reflexivity.
Qed.

(** A value that is not truthy is a primitive and converts. *)
Lemma falsy_converts (v : JsVal) :
  truthy v = false -> exists s, toStr numToString v = Normal s.
Proof.
  destruct v as [| |[|]| | | |]; simpl; try discriminate; eauto.
Qed.

(** When the identity of an event could be formed, its order id converts. *)
Lemma identity_converts_order_id (d : Q) (e : JsVal) (id : string) :
  isValidEvent e = true ->
  generateEventId d e = Normal id ->
  exists o, toStr numToString (getProp (getProp e "data") "orderId") = Normal o.
Proof.
  intros Hv Hid.
  assert (Hdata : dataOrderId e = getProp (getProp e "data") "orderId").
  { unfold dataOrderId. now destruct (getProp e "data"). }
  unfold Handler.generateEventId in Hid. rewrite Hdata in Hid.
  destruct (toStr numToString (getProp e "type")); [|discriminate].
  unfold orElse in Hid. simpl in Hid.
  destruct (truthy (getProp (getProp e "data") "orderId")) eqn:Ho.
  - destruct (toStr numToString (getProp (getProp e "data") "orderId"));
      [eauto|discriminate].
  - now apply falsy_converts.
Qed.

(** A delivery that fails is not recorded. For a new, valid ORDER_CREATED
    event whose identity could be formed: when the customer e-mail converts
    and the notification service throws, [handle] throws the same error
    after that single call; when the customer e-mail does not convert,
    [handle] throws the error of the conversion and the service is not
    called at all. Either way the dedup set is unchanged, and in the first
    case the next delivery of the event calls the service again. *)
Theorem failed_delivery_is_not_recorded (d1 d2 : Q) (e : JsVal)
    (st : State) (id : string) :
  isValidEvent e = true ->
  getProp e "type" = JStr "ORDER_CREATED" ->
  generateEventId d1 e = Normal id ->
  setHas id (known st) = false ->
  (forall c ns' m,
     toStr numToString (getProp (getProp e "data") "customerEmail") = Normal c ->
     sendOrderConfirmation (getProp e "data") (notificationService NS st)
     = (Throw m, ns') ->
     exists tr,
       handle d1 e st = (Throw m, mkState NS (known st) ns', tr) /\
       sendCalls tr = [getProp e "data"] /\
       sendCalls (snd (handle d2 e (mkState NS (known st) ns')))
       = [getProp e "data"]) /\
  (forall m,
     toStr numToString (getProp (getProp e "data") "customerEmail") = Throw m ->
     exists tr,
       handle d1 e st = (Throw m, st, tr) /\ sendCalls tr = []).
Proof.
  intros Hv Ht Hid Hd.
  assert (Ht' : strictEqStr (getProp e "type") "ORDER_CREATED" = true)
    by now rewrite Ht.
  destruct (identity_converts_order_id d1 e id Hv Hid) as [o Ho].
  split.
  - intros c ns' m Hc Hs.
    assert (Hline : newOrderLine numToString (getProp e "data") = Normal (o, c)).
    { unfold newOrderLine. now rewrite Ho, Hc. }
    assert (Hcalls : forall ns ns1 c1 tr1,
               handleOrderCreated NS sendOrderConfirmation numToString e ns
               = (c1, ns1, tr1) ->
               sendCalls tr1 = [getProp e "data"]).
    { intros ns ns1 c1 tr1. unfold handleOrderCreated. rewrite Hline.
      destruct (sendOrderConfirmation (getProp e "data") ns) as [[r|m1] ns2];
        intros H; inversion H; subst; reflexivity. }
    destruct (HandlerFacts.handle_processed NS sendOrderConfirmation numToString
                d1 e st id Hv Hid Hd Ht') as (c1 & ns1 & tr & Hoc & Hh).
    pose proof (Hcalls _ _ _ _ Hoc) as Hcalls1.
    unfold handleOrderCreated in Hoc. rewrite Hline, Hs in Hoc.
    injection Hoc as <- <- <-.
    eexists. split; [exact Hh|]. split.
    + rewrite <- Hcalls1. reflexivity.
    + assert (Hid2 : generateEventId d2 e = Normal id)
        by now rewrite <- (HandlerFacts.generateEventId_clock numToString d1 d2 e Hv).
      destruct (HandlerFacts.handle_processed NS sendOrderConfirmation numToString
                  d2 e (mkState NS (known st) ns') id Hv Hid2 Hd Ht')
        as (c2 & ns2 & tr2 & Hoc2 & Hh2).
      pose proof (Hcalls _ _ _ _ Hoc2) as Hcalls2.
      destruct c2; rewrite Hh2; simpl; rewrite HandlerFacts.sendCalls_app; simpl;
        rewrite Hcalls2; reflexivity.
  - intros m Hc.
    destruct (HandlerFacts.handle_processed NS sendOrderConfirmation numToString
                d1 e st id Hv Hid Hd Ht') as (c1 & ns1 & tr & Hoc & Hh).
    unfold handleOrderCreated, newOrderLine in Hoc. rewrite Ho, Hc in Hoc.
    simpl in Hoc. injection Hoc as <- <- <-.
    eexists. split; [rewrite Hh; destruct st; reflexivity|].
    reflexivity.
Qed.

(** The dedup window. Once a new ORDER_CREATED event has been handled
    successfully, it is still recognised as a duplicate after any 499 further
    deliveries, whatever they are and however they end. *)
Theorem duplicate_is_recognised_within_window (d1 d2 d3 : Q) (e : JsVal)
    (st st1 : State) (tr1 : list Effect) (mid : list JsVal) (id : string) :
  NoDup (known st) ->
  isValidEvent e = true ->
  getProp e "type" = JStr "ORDER_CREATED" ->
  generateEventId d1 e = Normal id ->
  setHas id (known st) = false ->
  handle d1 e st = (Normal tt, st1, tr1) ->
  (List.length mid <= 499)%nat ->
  handle d3 e (fst (handleAll d2 mid st1)) =
    (Normal tt, fst (handleAll d2 mid st1),
     [LogDuplicate (JStr "ORDER_CREATED") id]).
Proof.
  intros Hnd Hv Ht Hid Hd H Hmid.
  destruct (handle_set_cases d1 e st st1 (Normal tt) tr1 H)
    as [Heq|(id' & _ & _ & Hid' & _ & _ & Heq)].
  { exfalso. apply HandlerFacts.setHas_not_In in Hd. apply Hd. rewrite <- Heq.
    apply HandlerFacts.setHas_In.
    apply (HandlerFacts.handle_success_recorded NS sendOrderConfirmation numToString
             d1 e st st1 tr1 id Hv Hid); [|exact H].
    now rewrite Ht. }
  assert (id' = id) by congruence. subst id'.
  assert (Hnd1 : NoDup (known st1)).
  { rewrite Heq. apply HandlerFacts.trim_NoDup. now apply NoDup_snoc_fresh. }
  assert (Hlast : In id (sliceLast 1 (known st1))).
  { rewrite Heq. apply trim_snoc_last. now apply NoDup_snoc_fresh. }
  pose proof (handleAll_keeps_recent d2 _ mid st1 1 Hnd1 ltac:(lia) Hlast) as Hin.
  apply HandlerFacts.setHas_In in Hin.
  assert (Hid3 : generateEventId d3 e = Normal id)
    by now rewrite <- (HandlerFacts.generateEventId_clock numToString d1 d3 e Hv).
  rewrite (HandlerFacts.handle_duplicate NS sendOrderConfirmation numToString
             d3 e _ id Hv Hid3 Hin).
  now rewrite Ht.
Qed.

Lemma orderCreated_id_prefix (d : Q) (e : JsVal) (id : string) :
  strictEqStr (getProp e "type") "ORDER_CREATED" = true ->
  generateEventId d e = Normal id ->
  String.prefix "ORDER_CREATED-" id = true.
Proof.
  intros H. unfold Handler.generateEventId.
  destruct (getProp e "type") as [| | | |t| |]; try discriminate.
  simpl in H. apply String.eqb_eq in H. subst t. simpl.
  destruct (toStr numToString _); [|discriminate]. simpl.
  destruct (toStr numToString _); [|discriminate]. simpl.
  intros [= <-]. cbn. now destruct (_ ++ _)%string.
Qed.

Lemma handle_keeps_prefix (d : Q) (e : JsVal) (st st' : State)
    (c : Completion unit) (tr : list Effect) :
  handle d e st = (c, st', tr) ->
  Forall (fun id => String.prefix "ORDER_CREATED-" id = true) (known st) ->
  Forall (fun id => String.prefix "ORDER_CREATED-" id = true) (known st').
Proof.
  intros H Hall.
  destruct (handle_set_cases d e st st' c tr H)
    as [->|(id & _ & Ht & Hid & _ & _ & ->)];
    [assumption|].
  apply Forall_forall. intros x Hx. apply In_trim in Hx.
  apply in_app_or in Hx as [Hx|[<-|[]]].
  - now apply (proj1 (Forall_forall _ _) Hall).
  - now apply (orderCreated_id_prefix d e id).
Qed.

(** Only ORDER_CREATED events are ever remembered: whatever is delivered to
    a new handler, every identity in its dedup set starts with
    ["ORDER_CREATED-"]. *)
Theorem only_order_created_is_remembered (d : Q) (events : list JsVal) (ns : NS) :
  Forall (fun id => String.prefix "ORDER_CREATED-" id = true)
    (known (fst (handleAll d events (mkState NS [] ns)))).
Proof.
  assert (Hgen : forall st : State,
             Forall (fun id => String.prefix "ORDER_CREATED-" id = true) (known st) ->
             Forall (fun id => String.prefix "ORDER_CREATED-" id = true)
               (known (fst (handleAll d events st)))).
  { induction events as [|e rest IH]; intros st Hall; simpl; [assumption|].
    destruct (handle d e st) as [[c st1] tr1] eqn:H1.
    specialize (IH st1 (handle_keeps_prefix d e st st1 c tr1 H1 Hall)).
    destruct (handleAll d rest st1) as [st2 tr2]. exact IH. }
  apply Hgen. constructor.
Qed.

End Deliveries.

Lemma invalid_event_is_dropped_witness :
  isValidEvent untimedSample = false /\
  sampleHandle 0 untimedSample freshState
  = (Normal tt, freshState, [WarnInvalid untimedSample]).
Proof.
  split; [reflexivity|].
  apply (invalid_event_is_dropped nat countingService renderInteger 0
           untimedSample freshState eq_refl).
Defined.

Lemma failed_delivery_is_not_recorded_witness :
  (exists tr,
     Handler.handle nat throwingService renderInteger 0 orderCreatedSample freshState
     = (Throw "notification backend down", mkState nat [] 1%nat, tr) /\
     sendCalls tr = [getProp orderCreatedSample "data"]) /\
  (exists tr,
     Handler.handle nat throwingService renderInteger 0 unprintableSample freshState
     = (Throw cannotConvert, freshState, tr) /\
     sendCalls tr = []).
Proof.
  split.
  - destruct (failed_delivery_is_not_recorded nat throwingService renderInteger 0 1
                orderCreatedSample freshState
                "ORDER_CREATED-order-1-2024-01-01T00:00:00.000Z"
                eq_refl eq_refl eq_refl eq_refl) as [Hthrown _].
    destruct (Hthrown "a@b.com" 1%nat "notification backend down" eq_refl eq_refl)
      as (tr & H & Hcalls & _).
    exists tr. split; assumption.
  - destruct (failed_delivery_is_not_recorded nat throwingService renderInteger 0 1
                unprintableSample freshState
                "ORDER_CREATED-order-3-2024-01-01T00:00:00.000Z"
                eq_refl eq_refl eq_refl eq_refl) as [_ Hconv].
    exact (Hconv cannotConvert eq_refl).
Defined.

Lemma duplicate_is_recognised_within_window_witness :
  (List.length laterDeliveries <= 499)%nat /\
  sendCalls
    (snd (sampleHandle 2 orderCreatedSample
            (fst (Handler.handleAll nat countingService renderInteger 1 laterDeliveries
                    (snd (fst (sampleHandle 0 orderCreatedSample freshState)))))))
  = [].
Proof.
  assert (Hlen : (List.length laterDeliveries <= 499)%nat) by (simpl; lia).
  split; [exact Hlen|].
  pose proof (duplicate_is_recognised_within_window nat countingService
                renderInteger 0 1 2 orderCreatedSample freshState
                (snd (fst (sampleHandle 0 orderCreatedSample freshState)))
                (snd (sampleHandle 0 orderCreatedSample freshState))
                laterDeliveries "ORDER_CREATED-order-1-2024-01-01T00:00:00.000Z"
                (NoDup_nil _) eq_refl eq_refl eq_refl eq_refl eq_refl Hlen)
    as H.
  unfold sampleHandle in *. rewrite H. reflexivity.
Defined.

End DedupFacts.

(** ** Consumer: malformed records, heartbeats, batches and life cycle *)

Module ConsumerLoopFacts.
Import Consumer.

Section Loop.

Variable HS : Type.
Variable handle : JsVal -> HS -> Completion unit * HS.
Variable JSON_parse : string -> Completion JsVal.
Variable heartbeat : Completion unit.
Variable nowISO : string.
Variable typeErrorMessage : JsVal -> string.

Local Abbreviation parseMessage :=
  (Consumer.parseMessage JSON_parse nowISO typeErrorMessage).
Local Abbreviation processMessage :=
  (Consumer.processMessage HS handle JSON_parse heartbeat nowISO typeErrorMessage).
Local Abbreviation eachMessage :=
  (Consumer.eachMessage HS handle JSON_parse heartbeat nowISO typeErrorMessage).
Local Abbreviation processBatch :=
  (Consumer.processBatch HS handle JSON_parse heartbeat nowISO typeErrorMessage).

(** A record whose payload is not JSON is given up without touching
    anything: [processMessage] throws a parsing failure that carries the
    parser's message, neither the heartbeat nor the handler is called, and
    [eachMessage] returns normally with the handler state unchanged, so the
    consumer goes on with the next record. *)
Theorem malformed_record_is_skipped (message : Message) (hs : HS) (e : string) :
  JSON_parse (value message) = Throw e ->
  processMessage message hs =
    (Throw ("Message parsing failed: " ++ e), hs,
     [LogParseFailed e; LogProcessFailed ("Message parsing failed: " ++ e)]) /\
  eachMessage message hs =
    (Normal tt, hs,
     [LogParseFailed e; LogProcessFailed ("Message parsing failed: " ++ e);
      LogEachMessageError ("Message parsing failed: " ++ e)]) /\
  handleCalls (snd (eachMessage message hs)) = 0%nat /\
  ~ In CallHeartbeat (snd (eachMessage message hs)).
Proof.
  intros H.
  assert (Hp : processMessage message hs =
               (Throw ("Message parsing failed: " ++ e), hs,
                [LogParseFailed e; LogProcessFailed ("Message parsing failed: " ++ e)])).
  { unfold Consumer.processMessage, Consumer.parseMessage. now rewrite H. }
  assert (He : eachMessage message hs =
               (Normal tt, hs,
                [LogParseFailed e; LogProcessFailed ("Message parsing failed: " ++ e);
                 LogEachMessageError ("Message parsing failed: " ++ e)])).
  { unfold Consumer.eachMessage. now rewrite Hp. }
  rewrite He. repeat split; try assumption.
  simpl. intros [H1|[H1|[H1|[]]]]; discriminate.
Qed.

(** The heartbeat comes before the handler: when it fails, the handler is
    not called and its state is untouched, and [processMessage] throws the
    heartbeat's error. *)
Theorem failed_heartbeat_skips_the_handler (message : Message) (hs : HS) (e : string) :
  isNormal (fst (parseMessage message)) = true ->
  heartbeat = Throw e ->
  exists tr,
    processMessage message hs = (Throw e, hs, tr) /\
    In CallHeartbeat tr /\ handleCalls tr = 0%nat.
Proof.
  intros Hp Hb. unfold Consumer.processMessage.
  destruct (parseMessage message) as [[event|m] tr0] eqn:Hparse; [|discriminate].
  rewrite (ConsumerFacts.parseMessage_Normal JSON_parse nowISO typeErrorMessage
             message event tr0 Hparse).
  rewrite Hb. eexists. split; [reflexivity|]. split; [simpl; tauto | reflexivity].
Qed.

(** A parsed object keeps all its properties and receives the broker's
    data under [metadata], replacing a [metadata] that the payload carried;
    this is the event the handler is called with. *)
Theorem parsed_event_carries_broker_metadata
    (message : Message) (props : list (string * JsVal)) :
  JSON_parse (value message) = Normal (JObj props) ->
  exists event,
    parseMessage message = (Normal event, []) /\
    getProp event "metadata" = metadataOf nowISO message /\
    (forall k, k <> "metadata" -> getProp event k = getProp (JObj props) k) /\
    (forall hs, heartbeat = Normal tt ->
       In (CallHandle event) (snd (processMessage message hs))).
Proof.
  intros H. exists (JObj (setProp "metadata" (metadataOf nowISO message) props)).
  assert (Hp : parseMessage message =
               (Normal (JObj (setProp "metadata" (metadataOf nowISO message) props)), [])).
  { unfold Consumer.parseMessage. now rewrite H. }
  split; [exact Hp|]. split; [|split].
  - simpl. now rewrite SchemaFacts.lookup_setProp_same.
  - intros k Hk. simpl. now rewrite SchemaFacts.lookup_setProp_other.
  - intros hs Hb. unfold Consumer.processMessage. rewrite Hp, Hb.
    destruct (handle _ hs) as [[u|m] hs']; simpl; tauto.
Qed.

Lemma processMessage_handleCalls (message : Message) (hs : HS) :
  (handleCalls (snd (processMessage message hs)) <= 1)%nat /\
  (isNormal (fst (fst (processMessage message hs))) = true ->
   handleCalls (snd (processMessage message hs)) = 1%nat).
Proof.
  unfold Consumer.processMessage.
  destruct (parseMessage message) as [[event|m] tr0] eqn:Hparse.
  - rewrite (ConsumerFacts.parseMessage_Normal JSON_parse nowISO typeErrorMessage
               message event tr0 Hparse).
    destruct heartbeat as [u|m];
      [|unfold handleCalls; simpl; split; [lia | discriminate]].
    destruct (handle event hs) as [[u'|m] hs']; unfold handleCalls; simpl; split;
      auto; discriminate.
  - unfold Consumer.parseMessage in Hparse.
    destruct (JSON_parse (value message)) as [[]|m0];
      inversion Hparse; subst; unfold handleCalls; simpl; split; try lia;
      discriminate.
Qed.

Lemma processBatch_bounds (messages : list Message) :
  forall hs : HS,
    let '(_, resolved, tr) := processBatch messages hs in
    (exists rest, map offset messages = resolved ++ rest) /\
    (List.length resolved <= handleCalls tr <= List.length resolved + 1)%nat.
Proof.
  induction messages as [|message rest IH]; intros hs; simpl.
  - split; [exists []; reflexivity | unfold handleCalls; simpl; lia].
  - pose proof (processMessage_handleCalls message hs) as [Hle Hone].
    destruct (processMessage message hs) as [[[u|m] hs'] tr]; simpl in *.
    + specialize (IH hs').
      destruct (processBatch rest hs') as [[hs'' resolved] tr'].
      destruct IH as [[rest' Hrest] Hcalls]. split.
      * exists rest'. simpl. now rewrite Hrest.
      * unfold handleCalls in *. rewrite filter_app, length_app. simpl.
        specialize (Hone eq_refl). lia.
    + split; [eexists; reflexivity | simpl; lia].
Qed.

(** After records that were all resolved, the batch goes on with the rest
    from the state they left. *)
Lemma processBatch_resolved_app (pre : list Message) :
  forall (hs hs1 : HS) (tr1 : list Effect),
    processBatch pre hs = (hs1, map offset pre, tr1) ->
    handleCalls tr1 = List.length pre /\
    forall rest,
      processBatch (pre ++ rest) hs =
      (fst (fst (processBatch rest hs1)),
       map offset pre ++ snd (fst (processBatch rest hs1)),
       tr1 ++ snd (processBatch rest hs1)).
Proof.
  induction pre as [|m pre IH]; intros hs hs1 tr1 H; simpl in *.
  - injection H as <- <-. split; [reflexivity|]. intros rest.
    now destruct (processBatch rest hs) as [[hs2 res2] tr2].
  - pose proof (processMessage_handleCalls m hs) as [_ Hone].
    destruct (processMessage m hs) as [[[u|e] hs'] tr]; [|discriminate].
    specialize (Hone eq_refl). simpl in Hone.
    destruct (processBatch pre hs') as [[hs'' res] tr'] eqn:Hpre.
    injection H as <- Hres <-. subst res.
    destruct (IH hs' hs'' tr' Hpre) as [Hcalls Happ]. split.
    + unfold handleCalls in *. rewrite filter_app, length_app. lia.
    + intros rest. rewrite (Happ rest).
      destruct (processBatch rest hs'') as [[hs2 res2] tr2]. simpl.
      now rewrite app_assoc.
Qed.

(** A batch is processed in order and left at its first failing record.
    After records that were all processed and resolved, with one call of
    the handler each: a next record whose processing throws ends the batch
    there, its offset is not resolved and no later record is looked at; a
    next record whose processing returns is resolved in its turn. In every
    case the resolved offsets are the offsets of a leading part of the
    batch, and the handler was called once per resolved record and at most
    once more. *)
Theorem processBatch_resolves_a_prefix
    (pre : list Message) (hs hs1 : HS) (tr1 : list Effect) :
  processBatch pre hs = (hs1, map offset pre, tr1) ->
  handleCalls tr1 = List.length pre /\
  (forall m post e hs2 tr2,
     processMessage m hs1 = (Throw e, hs2, tr2) ->
     processBatch (pre ++ m :: post) hs = (hs2, map offset pre, tr1 ++ tr2)) /\
  (forall m hs2 tr2,
     processMessage m hs1 = (Normal tt, hs2, tr2) ->
     processBatch (pre ++ [m]) hs
     = (hs2, map offset pre ++ [offset m], tr1 ++ tr2)) /\
  (forall messages hs0,
     let '(_, resolved, tr) := processBatch messages hs0 in
     (exists rest, map offset messages = resolved ++ rest) /\
     (List.length resolved <= handleCalls tr <= List.length resolved + 1)%nat).
Proof.
  intros H. destruct (processBatch_resolved_app pre hs hs1 tr1 H) as [Hcalls Happ].
  split; [exact Hcalls|]. split; [|split].
  - intros m post e hs2 tr2 Hm. rewrite Happ. simpl. rewrite Hm. simpl.
    now rewrite app_nil_r.
  - intros m hs2 tr2 Hm. rewrite Happ. simpl. rewrite Hm. simpl.
    now rewrite app_nil_r.
  - intros messages hs0. apply processBatch_bounds.
Qed.

End Loop.

Section Health.

Variable client : ClientCall -> Completion unit.

Local Abbreviation start := (Consumer.start client).
Local Abbreviation stop := (Consumer.stop client).
Local Abbreviation pause := (Consumer.pause client).
Local Abbreviation resume := (Consumer.resume client).

(** The health of the consumer follows its life cycle: after [start()] it is
    healthy exactly when [start()] returned normally; after [stop()] it is
    unhealthy whether or not the disconnection succeeded; [pause()] and
    [resume()] leave it as it is and call the client only while it runs. *)
Theorem health_follows_the_life_cycle (st : Lifecycle) :
  (isHealthy (snd (fst (start st))) = isNormal (fst (fst (start st)))) /\
  isHealthy (snd (fst (stop st))) = false /\
  snd (fst (pause st)) = st /\
  snd (fst (resume st)) = st /\
  (isHealthy st = false -> snd (pause st) = [] /\ snd (resume st) = []).
Proof.
  split; [|split; [|split; [|split]]].
  - unfold Consumer.start.
    destruct (client CreateConsumer); [|reflexivity].
    destruct (client Connect); [|reflexivity].
    destruct (client Subscribe); [|reflexivity].
    destruct (client Run); reflexivity.
  - unfold Consumer.stop.
    destruct (created st); [destruct (client Disconnect)|]; reflexivity.
  - unfold Consumer.pause. destruct (created st && isRunning st); reflexivity.
  - unfold Consumer.resume. destruct (created st && isRunning st); reflexivity.
  - unfold isHealthy, Consumer.pause, Consumer.resume. intros H.
    rewrite andb_comm, H. split; reflexivity.
Qed.

(** [start()] calls the client in the order create, connect, subscribe, run
    and stops at the first call that fails, whose error it throws. *)
Theorem start_stops_at_first_failure (st : Lifecycle) (c : ClientCall) (m : string) :
  In c [CreateConsumer; Connect; Subscribe; Run] ->
  client c = Throw m ->
  (forall c', In c' [CreateConsumer; Connect; Subscribe; Run] ->
              c' <> c -> client c' = Normal tt) ->
  exists calls later st',
    start st = (Throw m, st', calls ++ [c]) /\
    isRunning st' = false /\
    [CreateConsumer; Connect; Subscribe; Run] = calls ++ c :: later.
Proof.
  intros Hin Hc Hok. unfold Consumer.start.
  simpl in Hin. destruct Hin as [<-|[<-|[<-|[<-|[]]]]].
  - rewrite Hc. exists [], [Connect; Subscribe; Run]. eexists.
    repeat split.
  - rewrite (Hok CreateConsumer) by (simpl; intuition discriminate).
    rewrite Hc. exists [CreateConsumer], [Subscribe; Run]. eexists.
    repeat split.
  - rewrite (Hok CreateConsumer), (Hok Connect) by (simpl; intuition discriminate).
    rewrite Hc. exists [CreateConsumer; Connect], [Run]. eexists.
    repeat split.
  - rewrite (Hok CreateConsumer), (Hok Connect), (Hok Subscribe)
      by (simpl; intuition discriminate).
    rewrite Hc. exists [CreateConsumer; Connect; Subscribe], []. eexists.
    repeat split.
Qed.

End Health.

Lemma malformed_record_is_skipped_witness :
  parseSample (value garbledMessage) = Throw "Unexpected token" /\
  fst (Consumer.eachMessage nat countingHandle parseSample (Normal tt) "t" noTypeError
         garbledMessage 0%nat)
  = (Normal tt, 0%nat).
Proof.
  split; [reflexivity|].
  destruct (malformed_record_is_skipped nat countingHandle parseSample (Normal tt)
              "t" noTypeError garbledMessage 0%nat "Unexpected token" eq_refl)
    as (_ & H & _).
  rewrite H. reflexivity.
Defined.

Lemma failed_heartbeat_skips_the_handler_witness :
  exists tr,
    Consumer.processMessage nat countingHandle parseSample lostHeartbeat "t"
      noTypeError sampleMessage 0%nat
    = (Throw "The coordinator is not aware of this member", 0%nat, tr).
Proof.
  destruct (failed_heartbeat_skips_the_handler nat countingHandle parseSample
              lostHeartbeat "t" noTypeError sampleMessage 0%nat
              "The coordinator is not aware of this member" eq_refl eq_refl)
    as (tr & H & _).
  exists tr. exact H.
Defined.

Lemma parsed_event_carries_broker_metadata_witness :
  exists event,
    Consumer.parseMessage parseSample "t" noTypeError sampleMessage = (Normal event, []) /\
    getProp (getProp event "metadata") "offset" = JStr "42" /\
    getProp event "type" = JStr "ORDER_CREATED".
Proof.
  destruct (parsed_event_carries_broker_metadata nat countingHandle parseSample
              (Normal tt) "t" noTypeError sampleMessage _ eq_refl)
    as (event & Hp & Hmeta & Hkeep & _).
  exists event. split; [exact Hp|]. split.
  - rewrite Hmeta. reflexivity.
  - rewrite Hkeep by discriminate. reflexivity.
Defined.

Lemma processBatch_resolves_a_prefix_witness :
  Consumer.processBatch nat countingHandle parseSample (Normal tt) "t" noTypeError
    [sampleMessage; garbledMessage; sampleMessage] 0%nat
  = (1%nat, ["42"],
     snd (Consumer.processMessage nat countingHandle parseSample (Normal tt) "t"
            noTypeError sampleMessage 0%nat) ++
     snd (Consumer.processMessage nat countingHandle parseSample (Normal tt) "t"
            noTypeError garbledMessage 1%nat)).
Proof.
  destruct (processBatch_resolves_a_prefix nat countingHandle parseSample (Normal tt)
              "t" noTypeError [sampleMessage] 0%nat 1%nat _ eq_refl)
    as (_ & Hstop & _).
  exact (Hstop garbledMessage [sampleMessage] _ _ _ eq_refl).
Defined.

Lemma health_follows_the_life_cycle_witness :
  Consumer.isHealthy (mkLifecycle false false) = false /\
  snd (Consumer.pause workingClient (mkLifecycle false false)) = [] /\
  Consumer.isHealthy (snd (fst (Consumer.start workingClient (mkLifecycle false false))))
  = true.
Proof.
  destruct (health_follows_the_life_cycle workingClient (mkLifecycle false false))
    as (Hstart & _ & _ & _ & Hidle).
  split; [reflexivity|]. split.
  - apply Hidle. reflexivity.
  - rewrite Hstart. reflexivity.
Defined.

Lemma start_stops_at_first_failure_witness :
  exists st',
    Consumer.start refusingClient (mkLifecycle false false)
    = (Throw "This server does not host this topic-partition", st',
       [CreateConsumer; Connect; Subscribe]) /\
    Consumer.isHealthy st' = false.
Proof.
  destruct (start_stops_at_first_failure refusingClient (mkLifecycle false false)
              Subscribe "This server does not host this topic-partition")
    as (calls & later & st' & H & Hrun & Hsplit).
  - simpl. tauto.
  - reflexivity.
  - intros c' _ Hne. destruct c'; try reflexivity. contradiction.
  - exists st'. split.
    + rewrite H. f_equal.
      destruct calls as [|c1 [|c2 [|c3 [|c4 calls]]]]; try discriminate.
      now injection Hsplit as <- <-.
    + unfold Consumer.isHealthy. now rewrite Hrun.
Defined.

End ConsumerLoopFacts.

(** ** Notification orchestrator: history, statistics, other senders, health *)

Module HistoryFacts.
Import Notification.

Lemma sameKey_sym (a b : JsVal) : sameKey a b = sameKey b a.
Proof.
  destruct a, b; simpl; try reflexivity.
  - now destruct b, b0.
  - destruct (Qeq_bool q q0) eqn:E, (Qeq_bool q0 q) eqn:E'; try reflexivity.
    + apply Qeq_bool_iff in E. symmetry in E. apply Qeq_bool_iff in E. congruence.
    + apply Qeq_bool_iff in E'. symmetry in E'. apply Qeq_bool_iff in E'. congruence.
  - apply String.eqb_sym.
Qed.

Lemma sameKey_trans (a b c : JsVal) :
  sameKey a b = true -> sameKey b c = true -> sameKey a c = true.
Proof.
  destruct a, b; simpl; try discriminate; destruct c; simpl; try discriminate;
    try reflexivity.
  - destruct b, b0, b1; simpl; congruence.
  - intros H1 H2. apply Qeq_bool_iff in H1, H2. apply Qeq_bool_iff.
    now rewrite H1.
  - intros H1 H2. apply String.eqb_eq in H1, H2. subst. apply String.eqb_refl.
Qed.

Lemma get_absent (h : History) (id : JsVal) :
  historyHas h id = false -> getNotificationHistory h id = [].
Proof.
  unfold historyHas. induction h as [|[k entries] rest IH]; simpl; [reflexivity|].
  intros H. apply orb_false_elim in H as [Hk Hrest]. rewrite Hk. auto.
Qed.

Lemma push_present (h : History) (id : JsVal) (e : HistoryEntry) :
  historyHas h id = true ->
  getNotificationHistory (historyPush h id e) id = getNotificationHistory h id ++ [e].
Proof.
  unfold historyHas. induction h as [|[k entries] rest IH]; simpl; [discriminate|].
  destruct (sameKey k id) eqn:Hk; simpl; rewrite Hk; auto.
Qed.

Lemma get_snoc_absent (h : History) (id : JsVal) (l : list HistoryEntry) :
  historyHas h id = false -> sameKey id id = true ->
  getNotificationHistory (h ++ [(id, l)]) id = l.
Proof.
  unfold historyHas. intros H Hrefl.
  induction h as [|[k entries] rest IH]; simpl in *.
  - now rewrite Hrefl.
  - apply orb_false_elim in H as [Hk Hrest]. rewrite Hk. auto.
Qed.

Lemma push_other (h : History) (id id' : JsVal) (e : HistoryEntry) :
  sameKey id id' = false ->
  getNotificationHistory (historyPush h id e) id' = getNotificationHistory h id'.
Proof.
  intros Hne. induction h as [|[k entries] rest IH]; simpl; [reflexivity|].
  destruct (sameKey k id) eqn:Hk; simpl.
  - destruct (sameKey k id') eqn:Hk'; [|reflexivity].
    rewrite sameKey_sym in Hk.
    now rewrite (sameKey_trans id k id' Hk Hk') in Hne.
  - destruct (sameKey k id'); [reflexivity | exact IH].
Qed.

Lemma get_snoc_other (h : History) (id id' : JsVal) (l : list HistoryEntry) :
  sameKey id id' = false ->
  getNotificationHistory (h ++ [(id, l)]) id' = getNotificationHistory h id'.
Proof.
  intros Hne. induction h as [|[k entries] rest IH]; simpl.
  - now rewrite Hne.
  - destruct (sameKey k id'); [reflexivity | exact IH].
Qed.

(** The entry is appended under its key and no other key is touched. *)
Lemma store_read_back (nowISO : string) (h : History) (id : JsVal)
    (type : string) (r : NotificationRecord) :
  sameKey id id = true ->
  getNotificationHistory (storeNotificationHistory nowISO h id type r) id
  = getNotificationHistory h id ++ [mkHistoryEntry type r nowISO] /\
  (forall id', sameKey id id' = false ->
     getNotificationHistory (storeNotificationHistory nowISO h id type r) id'
     = getNotificationHistory h id').
Proof.
  intros Hrefl. unfold storeNotificationHistory. split.
  - destruct (historyHas h id) eqn:Hhas.
    + now apply push_present.
    + rewrite (get_absent h id Hhas). now apply get_snoc_absent.
  - intros id' Hne.
    destruct (historyHas h id);
      [now apply push_other | now apply get_snoc_other].
Qed.

(** A key that equals itself is a primitive, and a primitive converts. *)
Lemma primitive_converts (numToString : Q -> string) (v : JsVal) :
  sameKey v v = true -> exists s, toStr numToString v = Normal s.
Proof.
  destruct v as [| |[|]| | | |]; simpl; try discriminate; eauto.
Qed.

Lemma announced_object (numToString : Q -> string) (orderData : JsVal) :
  orderData <> JNull -> orderData <> JUndefined ->
  announced numToString orderData
  = toStr numToString (getProp orderData "orderId").
Proof.
  intros Hn Hu. destruct orderData; try contradiction; reflexivity.
Qed.

Section Store.

Variable nowISO : string.

(** What is stored under an order id is what is read back: for an order id
    that is a primitive value, [storeNotificationHistory] appends one entry
    to the history of that order and leaves the history of every other order
    as it was. *)
Theorem stored_entry_is_read_back
    (h : History) (id : JsVal) (type : string) (r : NotificationRecord) :
  sameKey id id = true ->
  getNotificationHistory (storeNotificationHistory nowISO h id type r) id
  = getNotificationHistory h id ++ [mkHistoryEntry type r nowISO] /\
  (forall id', sameKey id id' = false ->
     getNotificationHistory (storeNotificationHistory nowISO h id type r) id'
     = getNotificationHistory h id').
Proof. apply store_read_back. Qed.

End Store.

Lemma outcomesOf_app (h1 h2 : History) :
  outcomesOf (h1 ++ h2) = outcomesOf h1 ++ outcomesOf h2.
Proof. unfold outcomesOf. apply flat_map_app. Qed.

Lemma count_fold (l : list ChannelOutcome) :
  forall t s f,
    fold_left
      (fun acc o =>
         let '(total, successful, failed) := acc in
         if String.eqb (status o) "success"
         then (S total, S successful, failed)
         else (S total, successful, S failed))
      l (t, s, f)
    = ((t + List.length l)%nat,
       (s + List.length (filter (fun o => String.eqb (status o) "success") l))%nat,
       (f + List.length
              (filter (fun o => negb (String.eqb (status o) "success")) l))%nat).
Proof.
  induction l as [|o l IH]; intros t s f; simpl.
  - now rewrite !Nat.add_0_r.
  - destruct (String.eqb (status o) "success"); rewrite IH; simpl.
    all: now rewrite !Nat.add_succ_r.
Qed.

(** The statistics count every channel outcome of the history once: the
    total is the number of outcomes held, it splits into the outcomes with
    status ['success'] and all the others, and the number of orders
    is the number of keys. *)
Theorem stats_count_every_outcome (h : History) :
  totalNotifications (getNotificationStats h) = List.length (outcomesOf h) /\
  successfulNotifications (getNotificationStats h)
  = List.length (filter (fun o => String.eqb (status o) "success") (outcomesOf h)) /\
  (totalNotifications (getNotificationStats h)
   = successfulNotifications (getNotificationStats h)
     + failedNotifications (getNotificationStats h))%nat /\
  totalOrders (getNotificationStats h) = List.length h.
Proof.
  unfold getNotificationStats. rewrite count_fold. simpl.
  repeat split.
  induction (outcomesOf h) as [|o l IH]; simpl; [reflexivity|].
  destruct (String.eqb (status o) "success"); simpl; lia.
Qed.

Section OtherSenders.

Variable channels : Channels.
Variable nowISO : string.
Variable numToString : Q -> string.
Variable statusEmail : JsVal -> Completion SendResult.
Variable cancellationEmail : JsVal -> Completion SendResult.
Variable shippingSms : JsVal -> Completion SendResult.
Variable emailHealthy : Completion bool.
Variable smsHealthy : Completion bool.

Local Abbreviation sendStatusUpdate :=
  (sendStatusUpdateNotification nowISO numToString statusEmail shippingSms).

(** A status update does not raise because a sender failed. For order data
    that is neither [null] nor [undefined] and whose order id and status
    convert to strings, it returns normally whatever the senders do: it
    reports the email channel first, it reports the SMS channel as well
    exactly when the status is the string ['shipped'], and a failing sender
    only turns its own entry into ['failed']. For [null] or [undefined]
    order data, and for an order id or a status that does not convert, it
    throws a [TypeError] before any sender is tried and the history is left
    as it was. *)
Theorem status_update_texts_only_when_shipped (orderData : JsVal) (h : History) :
  (forall o s,
     orderData <> JNull -> orderData <> JUndefined ->
     toStr numToString (getProp orderData "orderId") = Normal o ->
     toStr numToString (getProp orderData "status") = Normal s ->
     exists r h',
       sendStatusUpdate orderData h = (Normal (r, getProp orderData "status"), h') /\
       (getProp orderData "status" = JStr "shipped" ->
        notifications r = [ outcomeOf "email" (statusEmail orderData);
                            outcomeOf "sms" (shippingSms orderData) ]) /\
       (getProp orderData "status" <> JStr "shipped" ->
        notifications r = [outcomeOf "email" (statusEmail orderData)])) /\
  (orderData = JNull \/ orderData = JUndefined ->
   sendStatusUpdate orderData h = (Throw (cannotRead orderData "orderId"), h)) /\
  (forall m,
     orderData <> JNull -> orderData <> JUndefined ->
     toStr numToString (getProp orderData "orderId") = Throw m ->
     sendStatusUpdate orderData h = (Throw m, h)) /\
  (forall o m,
     orderData <> JNull -> orderData <> JUndefined ->
     toStr numToString (getProp orderData "orderId") = Normal o ->
     toStr numToString (getProp orderData "status") = Throw m ->
     sendStatusUpdate orderData h = (Throw m, h)).
Proof.
  unfold sendStatusUpdateNotification. repeat split.
  - intros o s Hn Hu Ho Hs. rewrite (announced_object _ _ Hn Hu), Ho, Hs.
    eexists. eexists. split; [reflexivity|]. simpl. split.
    + intros ->. reflexivity.
    + intros Hne.
      destruct (getProp orderData "status") as [| | | |t| |]; try reflexivity.
      simpl. destruct (String.eqb_spec t "shipped"); [subst; contradiction|].
      reflexivity.
  - intros [->| ->]; reflexivity.
  - intros m Hn Hu Ho. now rewrite (announced_object _ _ Hn Hu), Ho.
  - intros o m Hn Hu Ho Hs. now rewrite (announced_object _ _ Hn Hu), Ho, Hs.
Qed.

(** The health report never raises. It is ['healthy'] exactly when both
    probes answered [true], ['unhealthy'] exactly when a probe threw, and
    ['degraded'] otherwise. *)
Theorem checkHealth_status :
  (health_status (checkHealth emailHealthy smsHealthy) = "healthy" <->
   emailHealthy = Normal true /\ smsHealthy = Normal true) /\
  (health_status (checkHealth emailHealthy smsHealthy) = "unhealthy" <->
   isNormal emailHealthy = false \/ isNormal smsHealthy = false) /\
  (health_status (checkHealth emailHealthy smsHealthy) = "degraded" <->
   exists a b, emailHealthy = Normal a /\ smsHealthy = Normal b /\ a && b = false).
Proof.
  unfold checkHealth.
  destruct emailHealthy as [[|]|m], smsHealthy as [[|]|m']; simpl;
    repeat split; try discriminate; try tauto; try (intros [? ?]; discriminate);
    try (intros [?|?]; discriminate);
    try (intros (a & b & ? & ? & ?); congruence);
    try (intros _; eexists; eexists; repeat split; reflexivity);
    intros (a & b & Ha & Hb & Hab); injection Ha as <-; injection Hb as <-;
    discriminate.
Qed.

End OtherSenders.

(** A confirmation is kept in the history of its order: for order data
    that is neither [null] nor [undefined] and whose order id is a primitive
    value, [sendOrderConfirmation] returns normally and the history of that
    order id then ends with an ORDER_CONFIRMATION entry holding the returned
    record. *)
Theorem confirmation_is_appended_to_history
    (channels : Channels) (nowISO : string) (numToString : Q -> string)
    (orderData : JsVal) (h : History) :
  orderData <> JNull -> orderData <> JUndefined ->
  sameKey (getProp orderData "orderId") (getProp orderData "orderId") = true ->
  exists r h',
    sendOrderConfirmation channels nowISO numToString orderData h = (Normal r, h') /\
    getNotificationHistory h' (getProp orderData "orderId")
    = getNotificationHistory h (getProp orderData "orderId")
      ++ [mkHistoryEntry "ORDER_CONFIRMATION" r nowISO].
Proof.
  intros Hn Hu Hrefl. unfold sendOrderConfirmation.
  destruct (primitive_converts numToString _ Hrefl) as [text Htext].
  rewrite (announced_object _ _ Hn Hu), Htext.
  eexists. eexists. split; [reflexivity|].
  apply (store_read_back nowISO h _ _ _ Hrefl).
Qed.

Lemma stored_entry_is_read_back_witness :
  exists r,
    getNotificationHistory
      (storeNotificationHistory "t2"
         (storeNotificationHistory "t1" [] (JStr "order-1") "ORDER_CONFIRMATION" r)
         (JStr "order-1") "STATUS_UPDATE" r)
      (JStr "order-1")
    = [ mkHistoryEntry "ORDER_CONFIRMATION" r "t1";
        mkHistoryEntry "STATUS_UPDATE" r "t2" ].
Proof.
  exists (mkNotificationRecord (JStr "order-1") [] "t0").
  destruct (stored_entry_is_read_back "t2"
              (storeNotificationHistory "t1" [] (JStr "order-1") "ORDER_CONFIRMATION"
                 (mkNotificationRecord (JStr "order-1") [] "t0"))
              (JStr "order-1") "STATUS_UPDATE"
              (mkNotificationRecord (JStr "order-1") [] "t0") eq_refl) as [H _].
  rewrite H. reflexivity.
Defined.

Lemma confirmation_is_appended_to_history_witness :
  exists r h',
    sendOrderConfirmation (mkChannels emailDown smsDown) "t" renderInteger
      sampleOrder []
    = (Normal r, h') /\
    getNotificationHistory h' (JStr "order-1")
    = [mkHistoryEntry "ORDER_CONFIRMATION" r "t"].
Proof.
  destruct (confirmation_is_appended_to_history (mkChannels emailDown smsDown) "t"
              renderInteger sampleOrder []
              ltac:(discriminate) ltac:(discriminate) eq_refl)
    as (r & h' & H & Hget).
  exists r, h'. split; [exact H | exact Hget].
Defined.

End HistoryFacts.

(** ** Event schemas: what the validator accepts and what the builders
    produce *)

Module ValidatorFacts.
Import Schema.

Section Visit.

Variable validateChild : Schema -> list string -> JsVal -> JoiResult.
Variable at_ : list string.
Variable props : list (string * JsVal).

Local Abbreviation visit := (visitKeys validateChild at_ props).

Lemma visitKeys_missing_required (k : string) (child : Schema)
    (ks : list (string * (Presence * Schema))) :
  In (k, (Required, child)) ks ->
  getProp (JObj props) k = JUndefined ->
  forall out, exists e, visit ks out = inl e.
Proof.
  induction ks as [|[k0 [p c0]] rest IH]; intros Hin Hk out; [contradiction|].
  destruct Hin as [[= -> -> ->]|Hin].
  - simpl in *. rewrite Hk. eauto.
  - destruct (visit ((k0, (p, c0)) :: rest) out) as [e|out'] eqn:E; [eauto|].
    apply SchemaFacts.visitKeys_step in E as (out1 & Hrest & _).
    destruct (IH Hin Hk out1) as [e He]. congruence.
Qed.

Lemma visitKeys_step_required (k : string) (child : Schema)
    (rest : list (string * (Presence * Schema))) (out out' : list (string * JsVal)) :
  visit ((k, (Required, child)) :: rest) out = inr out' ->
  getProp (JObj props) k <> JUndefined /\
  exists x', validateChild child (at_ ++ [k]) (getProp (JObj props) k) = inr x'.
Proof.
  simpl.
  destruct (match lookup k props with Some x => x | None => JUndefined end) eqn:G;
    [discriminate| | | | | |];
    (destruct (validateChild child (at_ ++ [k]) _) as [e|x'] eqn:V;
     [discriminate|]; intros _; split; [discriminate | eauto]).
Qed.

Lemma visitKeys_present (k : string) (child : Schema)
    (ks : list (string * (Presence * Schema))) :
  forall out out',
    visit ks out = inr out' ->
    In (k, (Required, child)) ks ->
    getProp (JObj props) k <> JUndefined /\
    exists x', validateChild child (at_ ++ [k]) (getProp (JObj props) k) = inr x'.
Proof.
  induction ks as [|[k0 [p c0]] rest IH]; intros out out' H Hin; [contradiction|].
  destruct Hin as [[= -> -> ->]|Hin].
  - exact (visitKeys_step_required k child rest out out' H).
  - apply SchemaFacts.visitKeys_step in H as (out1 & Hrest & _).
    exact (IH out1 out' Hrest Hin).
Qed.

End Visit.

Lemma visitItems_length (validateItem : list string -> JsVal -> JoiResult)
    (at_ : list string) (l : list JsVal) :
  forall i l', visitItems validateItem at_ i l = inr l' ->
               List.length l' = List.length l.
Proof.
  induction l as [|x l IH]; intros i l'; simpl.
  - now intros [= <-].
  - destruct (validateItem _ x) as [e|x']; [discriminate|].
    destruct (visitItems validateItem at_ (S i) l) as [e|rest'] eqn:E; [discriminate|].
    intros [= <-]. simpl. f_equal. eauto.
Qed.

Lemma schemaFor_registered (t : string) (sch : Schema) :
  schemaFor t eventSchemas = Some sch -> In t EVENT_TYPES.
Proof.
  unfold eventSchemas, EVENT_TYPES. simpl.
  repeat match goal with
         | |- context [String.eqb t ?s] =>
             destruct (String.eqb_spec t s);
             [subst; intros _; repeat (first [left; reflexivity | right])|]
         end.
  discriminate.
Qed.

Section Validator.

Variable isUuid : string -> bool.
Variable isEmail : string -> bool.
Variable isIsoDate : string -> bool.
Variable parseNumber : string -> option Q.

Local Abbreviation validateAt := (Schema.validateAt isUuid isEmail isIsoDate parseNumber).
Local Abbreviation joiValidate := (Schema.joiValidate isUuid isEmail isIsoDate parseNumber).
Local Abbreviation validate := (Schema.validate isUuid isEmail isIsoDate parseNumber).

Lemma validateString_plain (at_ : list string) (v r : JsVal) :
  validateString isUuid isEmail Plain [] at_ v = inr r ->
  exists s, v = JStr s /\ s <> "".
Proof.
  unfold validateString. destruct v as [| | | |s| |]; try discriminate.
  destruct (String.eqb_spec s ""); [discriminate|]. eauto.
Qed.

Lemma validateAt_array (items : Schema) (n : nat) (at_ : list string) (v r : JsVal) :
  validateAt (SArray items n) at_ v = inr r ->
  exists elems, v = JArr elems /\ (n <= List.length elems)%nat.
Proof.
  simpl. destruct v as [| | | | |elems|]; try discriminate.
  destruct (visitItems _ at_ 0%nat elems) as [e|elems'] eqn:E; [discriminate|].
  apply visitItems_length in E.
  destruct (Nat.ltb_spec (List.length elems') n); [discriminate|].
  intros _. exists elems. split; [reflexivity | lia].
Qed.

Lemma validate_Valid_type (event v : JsVal) :
  validate event = Valid v ->
  exists t sch,
    getProp event "type" = JStr t /\
    schemaFor t eventSchemas = Some sch /\
    joiValidate sch event = inr v.
Proof.
  unfold Schema.validate.
  destruct event as [| | | | | |props]; try discriminate.
  destruct (joiValidate baseEventSchema (JObj props)) as [e|b]; [discriminate|].
  destruct (getProp (JObj props) "type") as [| | | |t| |]; try discriminate.
  destruct (schemaFor t eventSchemas) as [sch|] eqn:Hs.
  - destruct (joiValidate sch (JObj props)) as [e|value] eqn:Hv; [discriminate|].
    intros [= <-]. exists t, sch. auto.
  - destruct (existsb _ inheritedNames); discriminate.
Qed.

(** The validator accepts events of the four registered types only: a
    validated event has one of them as its [type], and an event that passes
    the envelope stage with any other type name of its own is answered with
    the list of supported types. *)
Theorem only_registered_types_validate :
  (forall event v,
     validate event = Valid v ->
     exists t, getProp event "type" = JStr t /\ In t getSupportedTypes) /\
  (forall event b t,
     joiValidate baseEventSchema event = inr b ->
     getProp event "type" = JStr t ->
     ~ In t getSupportedTypes -> ~ In t inheritedNames ->
     validate event = UnknownEventType t getSupportedTypes /\ getSchema t = None).
Proof.
  split.
  - intros event v H.
    apply validate_Valid_type in H as (t & sch & Ht & Hs & _).
    exists t. split; [exact Ht | exact (schemaFor_registered t sch Hs)].
  - intros event b t Hb Ht Hnot Hproto.
    assert (Hnone : schemaFor t eventSchemas = None).
    { destruct (schemaFor t eventSchemas) as [sch|] eqn:Hs; [|reflexivity].
      exfalso. exact (Hnot (schemaFor_registered t sch Hs)). }
    split; [|exact Hnone].
    pose proof Hb as Hobj. unfold Schema.joiValidate, baseEventSchema in Hobj.
    apply SchemaFacts.validateAt_object in Hobj as (props & out & -> & _).
    unfold Schema.validate. rewrite Hb, Ht, Hnone.
    destruct (existsb (String.eqb t) inheritedNames) eqn:E; [|reflexivity].
    apply existsb_exists in E as (x & Hx & Heq).
    apply String.eqb_eq in Heq. subst x. contradiction.
Qed.

(** An event object that lacks one of the required envelope fields ([id],
    [type], [timestamp], [source], [data]) never validates: it is rejected at
    the envelope stage. *)
Theorem missing_required_field_is_rejected
    (props : list (string * JsVal)) (k : string) :
  In k requiredFields ->
  getProp (JObj props) k = JUndefined ->
  exists e, validate (JObj props) = BaseValidationFailed e.
Proof.
  intros Hin Hk.
  assert (Hreq : exists child, In (k, (Required, child)) baseEventKeys).
  { unfold requiredFields in Hin. simpl in Hin.
    destruct Hin as [<-|[<-|[<-|[<-|[<-|[]]]]]]; eexists; simpl;
      repeat (first [left; reflexivity | right]). }
  destruct Hreq as [child Hchild].
  destruct (visitKeys_missing_required validateAt [] props k child baseEventKeys
              Hchild Hk props) as [e He].
  exists e. unfold Schema.validate, Schema.joiValidate, baseEventSchema. simpl.
  simpl in He. now rewrite He.
Qed.

(** A validated ORDER_CREATED event can be relied upon to carry, in its
    [data], an order id that is a non-empty string and an array of at least
    one item. *)
Theorem valid_order_created_has_id_and_items (event v : JsVal) :
  validate event = Valid v ->
  getProp event "type" = JStr "ORDER_CREATED" ->
  (exists id, getProp (getProp event "data") "orderId" = JStr id /\ id <> "") /\
  (exists item items, getProp (getProp event "data") "items" = JArr (item :: items)).
Proof.
  intros H Ht.
  apply validate_Valid_type in H as (t & sch & Ht' & Hs & Hv).
  rewrite Ht in Ht'. injection Ht' as <-.
  simpl in Hs. injection Hs as <-.
  unfold Schema.joiValidate, orderCreatedEventSchema in Hv.
  apply SchemaFacts.validateAt_object in Hv as (props & out & -> & Hvisit & _ & _).
  edestruct (visitKeys_present validateAt [] props "data") as (_ & d' & Hdata);
    [exact Hvisit | simpl; repeat (first [left; reflexivity | right]) |].
  apply SchemaFacts.validateAt_object in Hdata as (dprops & dout & Hd & Hdvisit & _ & _).
  rewrite Hd. split.
  - edestruct (visitKeys_present validateAt ([] ++ ["data"]) dprops "orderId")
      as (_ & x' & Hid);
      [exact Hdvisit | simpl; repeat (first [left; reflexivity | right]) |].
    exact (validateString_plain _ _ _ Hid).
  - edestruct (visitKeys_present validateAt ([] ++ ["data"]) dprops "items")
      as (_ & x' & Hitems);
      [exact Hdvisit | simpl; repeat (first [left; reflexivity | right]) |].
    apply validateAt_array in Hitems as (elems & -> & Hlen).
    destruct elems as [|item items]; [simpl in Hlen; lia | eauto].
Qed.

(** The builders with a default source produce envelopes that pass the base
    schema whenever the generated id is a UUID, the clock reading is an ISO
    date, the source is omitted or a non-empty string, and the payload is an
    object. The health-check builder has no default: called without a
    source it produces an envelope that the base schema rejects. *)
Theorem built_envelopes_and_the_base_schema
    (uuid now : string) (data : list (string * JsVal)) (source : JsVal) :
  uuid <> "" -> isUuid uuid = true ->
  isIsoDate now = true ->
  (source = JUndefined \/ exists s, source = JStr s /\ s <> "") ->
  (forall build,
     In build [createOrderCreatedEvent; createOrderStatusUpdatedEvent;
               createOrderCancelledEvent] ->
     joiValidate baseEventSchema (build uuid now (JObj data) source)
     = inr (build uuid now (JObj data) source)) /\
  joiValidate baseEventSchema (createHealthCheckEvent uuid now (JObj data) JUndefined)
  = inl (mkJoiError ["source"] any_required).
Proof.
  intros Hne Huuid Hdate Hsource.
  assert (Hu : String.eqb uuid "" = false) by now apply String.eqb_neq.
  split.
  - intros build Hbuild.
    assert (Hs : exists s, (match source with
                            | JUndefined => JStr "order-service"
                            | _ => source
                            end) = JStr s /\ String.eqb s "" = false).
    { destruct Hsource as [->|(s & -> & Hs)].
      - exists "order-service". split; reflexivity.
      - exists s. split; [reflexivity | now apply String.eqb_neq]. }
    destruct Hs as (s & Hsrc & Hs).
    simpl in Hbuild.
    destruct Hbuild as [<-|[<-|[<-|[]]]];
      unfold createOrderCreatedEvent, createOrderStatusUpdatedEvent,
        createOrderCancelledEvent;
      rewrite Hsrc; unfold Schema.joiValidate; simpl;
      rewrite Hu, Huuid, Hdate, Hs; reflexivity.
  - unfold Schema.joiValidate, createHealthCheckEvent. simpl.
    rewrite Hu, Huuid, Hdate. reflexivity.
Qed.

End Validator.

Lemma only_registered_types_validate_witness :
  sampleValidate shippedEvent = UnknownEventType "ORDER_SHIPPED" getSupportedTypes.
Proof.
  destruct (only_registered_types_validate anyString anyString anyString noNumber)
    as [_ H].
  refine (proj1 (H shippedEvent _ "ORDER_SHIPPED" eq_refl eq_refl _ _)).
  - simpl. intuition discriminate.
  - simpl. intuition discriminate.
Defined.

Lemma missing_required_field_is_rejected_witness :
  exists e, sampleValidate dataLessEvent = BaseValidationFailed e.
Proof.
  apply (missing_required_field_is_rejected anyString anyString anyString noNumber
           _ "data").
  - simpl. tauto.
  - reflexivity.
Defined.

Lemma valid_order_created_has_id_and_items_witness :
  isValid (sampleValidate builtOrderCreated) = true /\
  exists id, getProp (getProp builtOrderCreated "data") "orderId" = JStr id /\ id <> "".
Proof.
  split; [reflexivity|].
  assert (Hv : sampleValidate builtOrderCreated = Valid builtOrderCreated)
    by reflexivity.
  exact (proj1 (valid_order_created_has_id_and_items anyString anyString anyString
                  noNumber builtOrderCreated _ Hv eq_refl)).
Defined.

Lemma built_envelopes_and_the_base_schema_witness :
  joiValidate nonEmpty nonEmpty nonEmpty noNumber baseEventSchema
    (createOrderCancelledEvent "3f2b8c1e-5d4a-4c6b-9e7f-0a1b2c3d4e5f"
       "2024-01-01T00:00:00.000Z" (JObj []) (JStr "admin-console"))
  = inr (createOrderCancelledEvent "3f2b8c1e-5d4a-4c6b-9e7f-0a1b2c3d4e5f"
           "2024-01-01T00:00:00.000Z" (JObj []) (JStr "admin-console")).
Proof.
  destruct (built_envelopes_and_the_base_schema nonEmpty nonEmpty nonEmpty noNumber
              "3f2b8c1e-5d4a-4c6b-9e7f-0a1b2c3d4e5f" "2024-01-01T00:00:00.000Z"
              [] (JStr "admin-console")) as [H _].
  - discriminate.
  - reflexivity.
  - reflexivity.
  - right. exists "admin-console". split; [reflexivity | discriminate].
  - apply H. simpl. tauto.
Defined.

End ValidatorFacts.

(** ** From the publisher to the notification service *)

Module PipelineFacts.
Import Pipeline.

Section EndToEnd.

(** The order service. *)
Variable SavedOrder : Type.
Variable orderId : SavedOrder -> string.
Variable toEventData : SavedOrder -> JsVal.
Variable send : OrderIntake.ProducerRecord -> Completion (list OrderIntake.RecordMetadata).
Variables nowISO nowMillis : string.
Variable stringify : JsVal -> string.

(** The broker and the consumer. *)
Variable headerText : JsVal -> string.
Variable offset : string.
Variable JSON_parse : string -> Completion JsVal.
Variable receivedAt : string.
Variable typeErrorMessage : JsVal -> string.

(** The handler and its notification service. *)
Variable NS : Type.
Variable sendOrderConfirmation :
  JsVal -> NS -> Completion Notification.NotificationRecord * NS.
Variable numToString : Q -> string.

Local Abbreviation envelope := (OrderIntake.orderCreatedEvent SavedOrder toEventData nowISO).
Local Abbreviation publish :=
  (OrderIntake.publishOrderCreated SavedOrder orderId toEventData send nowISO nowMillis
     stringify).
Local Abbreviation probe := (OrderIntake.isHealthy send nowISO nowMillis stringify).
Local Abbreviation parseMessage :=
  (Consumer.parseMessage JSON_parse receivedAt typeErrorMessage).
Local Abbreviation handle := (Handler.handle NS sendOrderConfirmation numToString).
Local Abbreviation generateEventId := (Handler.generateEventId numToString).

(** The envelope that the publisher emits for a stored order is accepted by
    the handler although it carries no [id]: whenever the payload survives
    serialisation and parsing, the clock reading is not empty, the event
    data of the order is an object, and the order id (or ['unknown'] in its
    place) and the customer e-mail found in it convert to strings, the one
    message published for the order parses into a structurally valid event
    whose identity is made of the type, that order id and the publisher's
    timestamp, and whose first delivery calls [sendOrderConfirmation]
    exactly once, with the event data of the order. *)
Theorem published_order_is_confirmed_once
    (order : SavedOrder) (data : list (string * JsVal)) (d : Q)
    (st : Handler.State NS) (oid email : string) :
  JSON_parse (stringify (envelope order)) = Normal (envelope order) ->
  nowISO <> "" ->
  toEventData order = JObj data ->
  toStr numToString
    (Handler.orElse (getProp (JObj data) "orderId") (JStr "unknown")) = Normal oid ->
  toStr numToString (getProp (JObj data) "customerEmail") = Normal email ->
  exists message event,
    sentMessages (snd (publish order)) = [message] /\
    parseMessage (delivered headerText offset message) = (Normal event, []) /\
    Handler.isValidEvent event = true /\
    generateEventId d event
    = Normal ("ORDER_CREATED-" ++ oid ++ "-" ++ nowISO)%string /\
    (Handler.setHas ("ORDER_CREATED-" ++ oid ++ "-" ++ nowISO)%string
       (Handler.processedEvents NS st) = false ->
     Handler.sendCalls (snd (handle d event st)) = [JObj data]).
Proof.
  intros Hround Hnow Hdata Hoid Hemail.
  assert (Htruthy : negb (String.eqb nowISO "") = true).
  { apply negb_true_iff. now apply String.eqb_neq. }
  eexists. eexists. split.
  { unfold OrderIntake.publishOrderCreated, OrderIntake.publishEvent.
    destruct (send _) as [[|r rs]|m]; reflexivity. }
  split.
  { unfold Consumer.parseMessage, delivered. simpl OrderIntake.msg_value.
    cbv [Consumer.value]. rewrite Hround.
    unfold OrderIntake.orderCreatedEvent. reflexivity. }
  match goal with
  | |- Handler.isValidEvent ?e = true /\ _ => set (ev := e)
  end.
  assert (Hvalid : Handler.isValidEvent ev = true).
  { subst ev. unfold Handler.isValidEvent. simpl. rewrite Hdata, Htruthy.
    reflexivity. }
  assert (Htype : strictEqStr (getProp ev "type") "ORDER_CREATED" = true)
    by (subst ev; reflexivity).
  assert (Hpayload : getProp ev "data" = JObj data)
    by (subst ev; simpl; exact Hdata).
  assert (Hid : generateEventId d ev
                = Normal ("ORDER_CREATED-" ++ oid ++ "-" ++ nowISO)%string).
  { unfold Handler.generateEventId, Handler.dataOrderId.
    rewrite Hpayload, Hoid. subst ev. simpl.
    unfold Handler.orElse. simpl. rewrite Htruthy. reflexivity. }
  split; [exact Hvalid|]. split; [exact Hid|].
  intros Hfresh.
  destruct (DedupFacts.identity_converts_order_id numToString d ev _ Hvalid Hid)
    as [o Ho].
  destruct (HandlerFacts.handle_processed NS sendOrderConfirmation numToString d ev st
              _ Hvalid Hid Hfresh Htype) as (c & ns' & tr & Hoc & Hh).
  assert (Hcalls : Handler.sendCalls tr = [JObj data]).
  { unfold Handler.handleOrderCreated, Handler.newOrderLine in Hoc.
    rewrite Hpayload in *. rewrite Ho, Hemail in Hoc. simpl in Hoc.
    destruct (sendOrderConfirmation (JObj data) _) as [[r|m] ns1];
      inversion Hoc; subst; reflexivity. }
  destruct c; rewrite Hh; simpl; rewrite HandlerFacts.sendCalls_app; simpl;
    rewrite Hcalls; reflexivity.
Qed.

(** The health probe of the publisher writes to the order topic, and the
    notification side lets its event pass: whenever the payload survives
    serialisation and parsing and the clock reading is not empty, the probe's
    message parses into a structurally valid event of type HEALTH_CHECK for
    which [handle] returns normally without calling the notification service
    and without touching the handler. *)
Theorem health_probe_is_ignored_downstream (d : Q) (st : Handler.State NS) :
  JSON_parse (stringify (OrderIntake.healthEvent nowISO))
    = Normal (OrderIntake.healthEvent nowISO) ->
  nowISO <> "" ->
  exists message event,
    sentMessages (snd probe) = [message] /\
    OrderIntake.msg_key message = "health-check" /\
    parseMessage (delivered headerText offset message) = (Normal event, []) /\
    Handler.isValidEvent event = true /\
    fst (handle d event st) = (Normal tt, st) /\
    Handler.sendCalls (snd (handle d event st)) = [].
Proof.
  intros Hround Hnow.
  assert (Htruthy : negb (String.eqb nowISO "") = true).
  { apply negb_true_iff. now apply String.eqb_neq. }
  eexists. eexists. split.
  { unfold OrderIntake.isHealthy, OrderIntake.publishEvent.
    destruct (send _) as [[|r rs]|m]; reflexivity. }
  split; [reflexivity|]. split.
  { unfold Consumer.parseMessage, delivered. simpl OrderIntake.msg_value.
    cbv [Consumer.value]. rewrite Hround.
    unfold OrderIntake.healthEvent. reflexivity. }
  match goal with
  | |- Handler.isValidEvent ?e = true /\ _ =>
      assert (Hvalid : Handler.isValidEvent e = true)
  end.
  { unfold Handler.isValidEvent. simpl. rewrite Htruthy. reflexivity. }
  split; [exact Hvalid|].
  match goal with
  | |- fst (handle d ?e st) = _ /\ _ =>
      assert (Hid : generateEventId d e
                    = Normal ("HEALTH_CHECK-unknown-" ++ nowISO)%string)
        by (unfold Handler.generateEventId, Handler.orElse; simpl;
            rewrite Htruthy; reflexivity);
      destruct (Handler.setHas ("HEALTH_CHECK-unknown-" ++ nowISO)%string
                  (Handler.processedEvents NS st))
        eqn:Hd;
      [ rewrite (HandlerFacts.handle_duplicate NS sendOrderConfirmation numToString
                   d e st _ Hvalid Hid Hd)
      | rewrite (HandlerFacts.handle_ignored NS sendOrderConfirmation numToString
                   d e st _ Hvalid Hid Hd eq_refl) ]
  end; split; reflexivity.
Qed.

End EndToEnd.

Lemma published_order_is_confirmed_once_witness :
  exists message event,
    sentMessages
      (snd (OrderIntake.publishOrderCreated _ fst OrderIntake.memoryEventData
              OrderIntake.ackSend "2024-01-01T00:00:00.000Z" "0" tagStringify
              OrderIntake.widgetSaved)) = [message] /\
    Consumer.parseMessage tagParse "t" Consumer.noTypeError
      (delivered headerAsText "7" message)
    = (Normal event, []) /\
    Handler.generateEventId renderInteger 0 event
    = Normal "ORDER_CREATED-order-1-2024-01-01T00:00:00.000Z" /\
    Handler.sendCalls (snd (Handler.sampleHandle 0 event Handler.freshState))
    = [OrderIntake.memoryEventData OrderIntake.widgetSaved].
Proof.
  destruct (published_order_is_confirmed_once _ fst OrderIntake.memoryEventData
              OrderIntake.ackSend "2024-01-01T00:00:00.000Z" "0" tagStringify
              headerAsText "7" tagParse "t"
              Consumer.noTypeError nat Handler.countingService renderInteger
              OrderIntake.widgetSaved _ 0 Handler.freshState "order-1" "a@b.com"
              eq_refl ltac:(discriminate) eq_refl eq_refl eq_refl)
    as (message & event & Hsent & Hparse & _ & Hid & Hcalls).
  exists message, event.
  split; [exact Hsent|]. split; [exact Hparse|]. split; [exact Hid|].
  apply Hcalls. reflexivity.
Defined.

Lemma health_probe_is_ignored_downstream_witness :
  exists message event,
    sentMessages
      (snd (OrderIntake.isHealthy OrderIntake.ackSend "2024-01-01T00:00:00.000Z" "0"
              tagStringify)) = [message] /\
    Consumer.parseMessage tagParse "t" Consumer.noTypeError
      (delivered headerAsText "8" message)
    = (Normal event, []) /\
    fst (Handler.sampleHandle 0 event Handler.freshState)
    = (Normal tt, Handler.freshState).
Proof.
  destruct (health_probe_is_ignored_downstream OrderIntake.ackSend
              "2024-01-01T00:00:00.000Z" "0" tagStringify
              headerAsText "8" tagParse "t"
              Consumer.noTypeError nat Handler.countingService renderInteger
              0 Handler.freshState eq_refl ltac:(discriminate))
    as (message & event & Hsent & _ & Hparse & _ & Hh & _).
  exists message, event. split; [exact Hsent|]. split; [exact Hparse | exact Hh].
Defined.

End PipelineFacts.

(** ** The cart *)

Module CartFacts.
Import Cart.

Lemma ltb_lt (a b : Q) : ltb a b = true <-> a < b.
Proof.
  unfold ltb. rewrite negb_true_iff. split.
  - intros H. apply Qnot_le_lt. intros Hle. apply Qle_bool_iff in Hle. congruence.
  - intros H. destruct (Qle_bool b a) eqn:E; [|reflexivity].
    apply Qle_bool_iff in E. exfalso. exact (Qlt_not_le _ _ H E).
Qed.

Lemma map_id_assign (i q : Q) (l : list CartItem) :
  map id (assignQuantity i q l) = map id l.
Proof.
  induction l as [|x l IH]; simpl; [reflexivity|].
  destruct (Qeq_bool (id x) i); simpl; [reflexivity|now rewrite IH].
Qed.

Lemma Forall_assign (P : CartItem -> Prop) (i q : Q) (l : list CartItem) :
  (forall item, P item -> P (withQuantity q item)) ->
  Forall P l -> Forall P (assignQuantity i q l).
Proof.
  intros HP. induction 1 as [|x l Hx Hl IH]; simpl; [constructor|].
  destruct (Qeq_bool (id x) i); constructor; auto.
Qed.

Lemma findItem_None (i : Q) (l : list CartItem) :
  findItem i l = None -> ~ InA Qeq i (map id l).
Proof.
  unfold findItem. induction l as [|x l IH]; simpl; intros H Hin.
  - inversion Hin.
  - destruct (Qeq_bool (id x) i) eqn:E; [discriminate|].
    inversion Hin as [? ? Heq|? ? Hin']; subst.
    + symmetry in Heq. apply Qeq_bool_iff in Heq. congruence.
    + exact (IH H Hin').
Qed.

Lemma findItem_Some (i : Q) (l : list CartItem) (item : CartItem) :
  findItem i l = Some item -> In item l /\ id item == i.
Proof.
  unfold findItem. intros H. apply find_some in H as [Hin Heq].
  split; [exact Hin|]. now apply Qeq_bool_iff.
Qed.

Lemma NoDupA_snoc (l : list Q) (x : Q) :
  NoDupA Qeq l -> ~ InA Qeq x l -> NoDupA Qeq (l ++ [x]).
Proof.
  intros Hl Hx. apply NoDupA_app; [exact Q_Setoid|exact Hl| |].
  - constructor; [intros H; inversion H|constructor].
  - intros y Hy Hy'. inversion Hy' as [? ? Heq|? ? H]; subst; [|inversion H].
    apply Hx. rewrite <- Heq. exact Hy.
Qed.

Lemma InA_filter_id (f : CartItem -> bool) (l : list CartItem) (x : Q) :
  InA Qeq x (map id (filter f l)) -> InA Qeq x (map id l).
Proof.
  induction l as [|y l IH]; simpl; [auto|].
  destruct (f y); simpl; intros H.
  - inversion H; subst; [now constructor|constructor 2; auto].
  - constructor 2; auto.
Qed.

Lemma NoDupA_filter_id (f : CartItem -> bool) (l : list CartItem) :
  NoDupA Qeq (map id l) -> NoDupA Qeq (map id (filter f l)).
Proof.
  induction l as [|y l IH]; simpl; intros H; [constructor|].
  inversion H as [|? ? Hy Hl]; subst.
  destruct (f y); simpl; [|auto].
  constructor; [|auto]. intros Hin. apply Hy. exact (InA_filter_id f l _ Hin).
Qed.

Lemma Forall_kept_by_filter (A : Type) (P : A -> Prop) (f : A -> bool) (l : list A) :
  Forall P l -> Forall P (filter f l).
Proof.
  induction 1 as [|x l Hx Hl IH]; simpl; [constructor|].
  destruct (f x); [constructor|]; auto.
Qed.

Lemma recalculated_consistent (l : list CartItem) (o : bool) :
  Forall (fun item => 0 < quantity item) l ->
  NoDupA Qeq (map id l) ->
  Consistent (fst (recalculated l o)).
Proof. intros H1 H2. constructor; simpl; auto. Qed.

Lemma reducer_consistent (state : CartState) (action : Action) :
  Consistent state -> Consistent (fst (reducer state action)).
Proof.
  intros [Hq Ha Hpos Hid].
  destruct action as [p|i|i q| | |b]; simpl.
  - unfold addToCart. apply recalculated_consistent.
    + destruct (findItem (p_id p) (items state)) as [e|] eqn:F.
      * destruct (ltb (quantity e) (stock e)); [|exact Hpos].
        apply Forall_assign; [|exact Hpos]. intros item _. simpl.
        apply findItem_Some in F as [Hin _].
        rewrite Forall_forall in Hpos. pose proof (Hpos e Hin) as He.
        apply Qlt_trans with (quantity e); [exact He|].
        rewrite <- (Qplus_0_r (quantity e)) at 1.
        apply Qplus_lt_r. reflexivity.
      * apply Forall_app. split; [exact Hpos|]. constructor; [|constructor].
        simpl. reflexivity.
    + destruct (findItem (p_id p) (items state)) as [e|] eqn:F.
      * destruct (ltb (quantity e) (stock e)); [|exact Hid].
        now rewrite map_id_assign.
      * rewrite map_app. simpl. apply NoDupA_snoc; [exact Hid|].
        now apply findItem_None.
  - unfold removeFromCart. apply recalculated_consistent.
    + now apply Forall_kept_by_filter.
    + now apply NoDupA_filter_id.
  - unfold updateQuantity. apply recalculated_consistent.
    + destruct (findItem i (items state)) as [e|] eqn:F; [|exact Hpos].
      destruct (ltb 0 q && Qle_bool q (stock e)) eqn:E; [|exact Hpos].
      apply andb_true_iff in E as [E _]. apply ltb_lt in E.
      apply Forall_assign; [|exact Hpos]. intros item _. exact E.
    + destruct (findItem i (items state)) as [e|] eqn:F; [|exact Hid].
      destruct (ltb 0 q && Qle_bool q (stock e)); [|exact Hid].
      now rewrite map_id_assign.
  - constructor; simpl; auto; constructor.
  - constructor; simpl; auto.
  - constructor; simpl; auto.
Qed.

Lemma dispatchAll_consistent (actions : list Action) :
  forall state, Consistent state -> Consistent (fst (dispatchAll actions state)).
Proof.
  induction actions as [|a rest IH]; intros state H; simpl; [exact H|].
  pose proof (reducer_consistent state a H) as H1.
  destruct (reducer state a) as [s1 w1]. specialize (IH s1 H1).
  destruct (dispatchAll rest s1) as [s2 w2]. exact IH.
Qed.

Lemma reducer_sellable (state : CartState) (action : Action) :
  SellableAction action -> Forall Sellable (items state) ->
  Forall Sellable (items (fst (reducer state action))).
Proof.
  intros Ha Hs. destruct action as [p|i|i q| | |b]; simpl; try exact Hs.
  - destruct (findItem (p_id p) (items state)) as [e|].
    + destruct (ltb (quantity e) (stock e)); [|exact Hs].
      apply Forall_assign; [|exact Hs]. intros item H. exact H.
    + apply Forall_app. split; [exact Hs|]. constructor; [exact Ha|constructor].
  - now apply Forall_kept_by_filter.
  - destruct (findItem i (items state)) as [e|]; [|exact Hs].
    destruct (ltb 0 q && Qle_bool q (stock e)); [|exact Hs].
    apply Forall_assign; [|exact Hs]. intros item H. exact H.
  - constructor.
Qed.

Lemma dispatchAll_sellable (actions : list Action) :
  forall state, Forall SellableAction actions ->
    Forall Sellable (items state) ->
    Forall Sellable (items (fst (dispatchAll actions state))).
Proof.
  induction actions as [|a rest IH]; intros state Ha Hs; simpl; [exact Hs|].
  inversion Ha as [|? ? Ha1 Ha2]; subst.
  pose proof (reducer_sellable state a Ha1 Hs) as H1.
  destruct (reducer state a) as [s1 w1]. specialize (IH s1 Ha2 H1).
  destruct (dispatchAll rest s1) as [s2 w2]. exact IH.
Qed.

Lemma dispatchAll_last_write (actions : list Action) :
  forall state w,
    last (snd (dispatchAll actions state)) (items state) = w ->
    items (fst (dispatchAll actions state)) = w.
Proof.
  induction actions as [|a rest IH]; intros state w; simpl; [auto|].
  destruct (reducer state a) as [s1 w1] eqn:R.
  specialize (IH s1). destruct (dispatchAll rest s1) as [s2 w2]. simpl in *.
  intros H. apply IH. rewrite <- H. clear H IH.
  assert (Hw1 : last w1 (items state) = items s1).
  { destruct a; simpl in R; injection R as <- <-; reflexivity. }
  rewrite <- Hw1. clear.
  induction w2 as [|x w2 IHw] using rev_ind.
  - now rewrite app_nil_r.
  - rewrite app_assoc, !last_last. reflexivity.
Qed.

(** Whatever is dispatched, the cart stays consistent: the two totals
    shown are those of the items held, also after actions that do not
    recalculate them; every line has a positive quantity; no two lines have
    the same product id; and what was written last to the storage is the
    items held (the storage is untouched when nothing was written). *)
Theorem reducer_keeps_the_cart_consistent
    (actions : list Action) (state : CartState) :
  Consistent state ->
  Consistent (fst (dispatchAll actions state)) /\
  items (fst (dispatchAll actions state))
  = last (snd (dispatchAll actions state)) (items state).
Proof.
  intros H. split.
  - now apply dispatchAll_consistent.
  - now apply dispatchAll_last_write.
Qed.

Lemma reducer_keeps_the_cart_consistent_witness :
  Consistent (initialState []) /\
  Consistent (fst (dispatchAll shopping (initialState []))) /\
  items (fst (dispatchAll shopping (initialState [])))
  = last (snd (dispatchAll shopping (initialState []))) [].
Proof.
  assert (H : Consistent (initialState [])).
  { constructor; simpl; try reflexivity; constructor. }
  split; [exact H|].
  exact (reducer_keeps_the_cart_consistent shopping (initialState []) H).
Defined.

End CartFacts.

(** ** From the cart to the order service *)

Module CheckoutFacts.
Import Cart.
Import OrderIntake.

Lemma validateItems_ok (l : list RawItem) :
  Forall ItemOk l -> forall i, validateItems i l = Normal tt.
Proof.
  induction 1 as [|x l Hx _ IH]; intros i; simpl; [reflexivity|].
  rewrite (OrderServiceFacts.validateItem_ok i x Hx). simpl. apply IH.
Qed.

Lemma orderItem_ok (item : CartItem) :
  Sellable item -> 0 < quantity item -> ItemOk (orderItem item).
Proof.
  intros (Hid & Ht & Hp) Hq. unfold ItemOk, orderItem. simpl. repeat split.
  - destruct (Qeq_bool (id item) 0) eqn:E; [|reflexivity].
    apply Qeq_bool_iff in E. contradiction.
  - destruct (String.eqb_spec (title item) ""); [contradiction|reflexivity].
  - exists (quantity item). split; [reflexivity|exact Hq].
  - exists (price item). split; [reflexivity|exact Hp].
Qed.

Lemma fold_amount_itemSum (l : list CartItem) :
  forall a,
    fold_left (fun sum item => sum + price item * quantity item) l a ==
    a + itemSum (map orderItem l).
Proof.
  induction l as [|x l IH]; intros a; simpl.
  - now rewrite Qplus_0_r.
  - rewrite IH. unfold lineAmount. simpl.
    rewrite (Qmult_comm (quantity x) (price x)). now rewrite Qplus_assoc.
Qed.

Section Checkout.
Variable nowMillis : string.

(** The cart and the order service agree. For a cart that started
    consistent and received only products with an id other than 0, a title
    and a positive price: an empty cart submits nothing; a cart with items
    submits an order that passes [validateOrderData], and the total that
    [calculateTotal] gives it is the [totalAmount] the cart shows. *)
Theorem checkout_order_is_accepted_with_the_cart_total
    (actions : list Action) (state : CartState) :
  Consistent state ->
  Forall Sellable (Cart.items state) ->
  Forall SellableAction actions ->
  (Cart.items (fst (dispatchAll actions state)) = [] ->
   onCheckout nowMillis (Cart.items (fst (dispatchAll actions state))) false
   = AlertEmptyCart) /\
  (Cart.items (fst (dispatchAll actions state)) <> [] ->
   exists orderData l t,
     onCheckout nowMillis (Cart.items (fst (dispatchAll actions state))) false
     = Submit orderData /\
     validateOrderData orderData = Normal l /\
     calculateTotal l = Some t /\
     t == Cart.totalAmount (fst (dispatchAll actions state))).
Proof.
  intros Hc Hs Ha.
  pose proof (CartFacts.dispatchAll_consistent actions state Hc) as [Hq Hamt Hpos Hid].
  pose proof (CartFacts.dispatchAll_sellable actions state Ha Hs) as Hsell.
  set (cart := fst (dispatchAll actions state)) in *.
  split.
  - intros E. rewrite E. reflexivity.
  - intros Hne.
    assert (Hok : Forall ItemOk (map orderItem (Cart.items cart))).
    { apply Forall_map. rewrite Forall_forall in *. intros x Hx.
      apply orderItem_ok; auto. }
    destruct (OrderIntakeFacts.calculateTotal_itemSum _ Hok) as (t & Ht & Heq).
    exists (checkoutOrder nowMillis (Cart.items cart)),
           (map orderItem (Cart.items cart)), t.
    split; [|split; [|split]].
    + unfold onCheckout. destruct (Cart.items cart); [contradiction|reflexivity].
    + unfold validateOrderData, checkoutOrder. simpl.
      destruct (map orderItem (Cart.items cart)) as [|r rs] eqn:M.
      * destruct (Cart.items cart); [contradiction|discriminate].
      * now rewrite (validateItems_ok _ Hok 0%nat).
    + exact Ht.
    + rewrite Heq, Hamt. unfold calculateTotals. simpl.
      rewrite fold_amount_itemSum. now rewrite Qplus_0_l.
Qed.

End Checkout.

Lemma checkout_order_is_accepted_with_the_cart_total_witness :
  exists orderData l t,
    onCheckout "1700000000000"
      (Cart.items (fst (dispatchAll shopping (initialState [])))) false
    = Submit orderData /\
    validateOrderData orderData = Normal l /\
    calculateTotal l = Some t /\
    t == Cart.totalAmount (fst (dispatchAll shopping (initialState []))).
Proof.
  assert (Hc : Consistent (initialState [])).
  { constructor; simpl; try reflexivity; constructor. }
  assert (Hs : Forall Sellable (Cart.items (initialState []))) by constructor.
  assert (Ha : Forall SellableAction shopping).
  { unfold shopping.
    repeat (constructor; try exact I);
      repeat split; simpl; try discriminate; try reflexivity. }
  destruct (checkout_order_is_accepted_with_the_cart_total "1700000000000"
              shopping (initialState []) Hc Hs Ha) as [_ H].
  apply H. vm_compute. discriminate.
Defined.

End CheckoutFacts.

(** ** The rate limiter *)

Module RateLimitFacts.
Import RateLimit.

Lemma mapGet_mapSet_same (key : string) (v : list Z) (m : Requests) :
  mapGet key (mapSet key v m) = Some v.
Proof.
  induction m as [|[k v0] m IH]; simpl.
  - now rewrite String.eqb_refl.
  - destruct (String.eqb k key) eqn:E; simpl; rewrite E; auto.
Qed.

Lemma mapGet_mapSet_other (key key' : string) (v : list Z) (m : Requests) :
  key' <> key -> mapGet key' (mapSet key v m) = mapGet key' m.
Proof.
  intros Hne. induction m as [|[k v0] m IH]; simpl.
  - destruct (String.eqb_spec key key'); [congruence|reflexivity].
  - destruct (String.eqb_spec k key); simpl.
    + subst. destruct (String.eqb_spec key key'); [congruence|reflexivity].
    + now rewrite IH.
Qed.

Lemma filter_filter_above (a b : Z) (l : list Z) :
  (a <= b)%Z ->
  filter (fun t => (b <? t)%Z) (filter (fun t => (a <? t)%Z) l)
  = filter (fun t => (b <? t)%Z) l.
Proof.
  intros H. induction l as [|x l IH]; simpl; [reflexivity|].
  destruct (a <? x)%Z eqn:E1; simpl; destruct (b <? x)%Z eqn:E2; simpl;
    rewrite ?IH; try reflexivity.
  apply Z.ltb_lt in E2. apply Z.ltb_ge in E1. lia.
Qed.

Section Window.
Variables windowMs maxRequests : Z.

Lemma serve_snoc (reqs : list (Z * string)) (now : Z) (key : string) :
  forall requests,
    serve windowMs maxRequests (reqs ++ [(now, key)]) requests =
    (fst (serve windowMs maxRequests reqs requests) ++
       [fst (rateLimit windowMs maxRequests now key
               (snd (serve windowMs maxRequests reqs requests)))],
     snd (rateLimit windowMs maxRequests now key
            (snd (serve windowMs maxRequests reqs requests)))).
Proof.
  induction reqs as [|[t k] reqs IH]; intros requests; simpl.
  - destruct (rateLimit windowMs maxRequests now key requests); reflexivity.
  - destruct (rateLimit windowMs maxRequests t k requests) as [o r1].
    rewrite IH. destruct (serve windowMs maxRequests reqs r1) as [os r2]. reflexivity.
Qed.

Lemma serve_length (reqs : list (Z * string)) :
  forall requests,
    List.length (fst (serve windowMs maxRequests reqs requests)) = List.length reqs.
Proof.
  induction reqs as [|[t k] reqs IH]; intros requests; simpl; [reflexivity|].
  destruct (rateLimit windowMs maxRequests t k requests) as [o r1].
  specialize (IH r1). destruct (serve windowMs maxRequests reqs r1). simpl in *.
  now rewrite IH.
Qed.

Lemma passed_snoc (key : string) (reqs : list (Z * string)) :
  forall outcomes t k o,
    List.length outcomes = List.length reqs ->
    passed key (reqs ++ [(t, k)]) (outcomes ++ [o]) =
    passed key reqs outcomes ++
    (if String.eqb k key && isNext o then [t] else []).
Proof.
  induction reqs as [|[t0 k0] reqs IH]; intros [|o0 outcomes] t k o Hlen;
    simpl in *; try discriminate.
  - destruct (String.eqb k key && isNext o); reflexivity.
  - injection Hlen as Hlen. rewrite (IH _ _ _ _ Hlen).
    destruct (String.eqb k0 key && isNext o0); reflexivity.
Qed.

(** What one request does to the times kept for a key. *)
Lemma rateLimit_kept (now : Z) (key key' : string) (requests : Requests) :
  kept key' (snd (rateLimit windowMs maxRequests now key requests)) =
  if String.eqb key key' then
    filter (fun t => (now - windowMs <? t)%Z) (kept key requests) ++
    (if isNext (fst (rateLimit windowMs maxRequests now key requests))
     then [now] else [])
  else kept key' requests.
Proof.
  unfold rateLimit, kept.
  destruct (String.eqb_spec key key') as [<-|Hne].
  - destruct (mapGet key requests) as [times|] eqn:G.
    + rewrite mapGet_mapSet_same.
      destruct (maxRequests <=? _)%Z; simpl.
      * rewrite mapGet_mapSet_same. now rewrite app_nil_r.
      * now rewrite mapGet_mapSet_same.
    + rewrite G. destruct (maxRequests <=? _)%Z; simpl.
      * now rewrite G.
      * now rewrite mapGet_mapSet_same.
  - assert (Hne' : key' <> key) by congruence.
    destruct (mapGet key requests) as [times|] eqn:G.
    + rewrite mapGet_mapSet_same.
      destruct (maxRequests <=? _)%Z; simpl;
        now rewrite ?mapGet_mapSet_other by exact Hne'.
    + rewrite G. destruct (maxRequests <=? _)%Z; simpl;
        now rewrite ?mapGet_mapSet_other by exact Hne'.
Qed.

Lemma rateLimit_decision (now : Z) (key : string) (requests : Requests) :
  isNext (fst (rateLimit windowMs maxRequests now key requests)) =
  (Z.of_nat (List.length (filter (fun t => (now - windowMs <? t)%Z) (kept key requests)))
   <? maxRequests)%Z.
Proof.
  unfold rateLimit, kept.
  destruct (mapGet key requests) as [times|] eqn:G.
  - rewrite mapGet_mapSet_same.
    destruct (maxRequests <=? _)%Z eqn:E; simpl; symmetry.
    + apply Z.ltb_ge. now apply Z.leb_le.
    + apply Z.ltb_lt. now apply Z.leb_gt.
  - rewrite G. simpl.
    destruct (maxRequests <=? 0)%Z eqn:E; simpl; symmetry.
    + apply Z.ltb_ge. now apply Z.leb_le.
    + apply Z.ltb_lt. now apply Z.leb_gt.
Qed.

(** Above every threshold that no request so far exceeds by more than the
    window, the times kept for a key are the times of its requests that were
    let through. *)
Lemma serve_kept (reqs : list (Z * string)) :
  forall key theta,
    (forall t, In t (map fst reqs) -> (t - windowMs <= theta)%Z) ->
    filter (fun t => (theta <? t)%Z) (kept key (snd (serve windowMs maxRequests reqs [])))
    = filter (fun t => (theta <? t)%Z)
        (passed key reqs (fst (serve windowMs maxRequests reqs []))).
Proof.
  induction reqs as [|[now k] reqs IH] using rev_ind; intros key theta Hth.
  - reflexivity.
  - rewrite serve_snoc. cbn [fst snd].
    rewrite passed_snoc by apply serve_length.
    rewrite rateLimit_kept.
    assert (Hpre : forall t, In t (map fst reqs) -> (t - windowMs <= theta)%Z).
    { intros t Ht. apply Hth. rewrite map_app. apply in_or_app. now left. }
    assert (Hnow : (now - windowMs <= theta)%Z).
    { apply Hth. rewrite map_app. apply in_or_app. right. now left. }
    destruct (String.eqb k key) eqn:E; simpl.
    + apply String.eqb_eq in E. subst k.
      rewrite !filter_app. rewrite filter_filter_above by exact Hnow.
      now rewrite IH by exact Hpre.
    + rewrite app_nil_r. now apply IH.
Qed.

(** The limiter counts a sliding window. When the clock never ran
    backwards, a request is let through exactly when fewer than
    [maxRequests] requests of the same key were let through during the
    [windowMs] milliseconds before it; refused requests do not count, and
    requests of other keys do not count. *)
Theorem rateLimit_counts_a_sliding_window
    (reqs : list (Z * string)) (now : Z) (key : string) :
  (forall t, In t (map fst reqs) -> (t <= now)%Z) ->
  (fst (rateLimit windowMs maxRequests now key
          (snd (serve windowMs maxRequests reqs []))) = Next <->
   (Z.of_nat
      (List.length
         (filter (fun t => (now - windowMs <? t)%Z)
            (passed key reqs (fst (serve windowMs maxRequests reqs [])))))
    < maxRequests)%Z).
Proof.
  intros Hclock.
  rewrite <- serve_kept by (intros t Ht; specialize (Hclock t Ht); lia).
  rewrite <- Z.ltb_lt, <- rateLimit_decision.
  destruct (fst (rateLimit _ _ _ _ _)); simpl; split; congruence.
Qed.

End Window.

Lemma rateLimit_counts_a_sliding_window_witness :
  (forall t, In t (map fst burst) -> (t <= 2300)%Z) /\
  (fst (rateLimit 1000 2 2300 "10.0.0.1" (snd (serve 1000 2 burst []))) = Next <->
   (Z.of_nat
      (List.length
         (filter (fun t => (2300 - 1000 <? t)%Z)
            (passed "10.0.0.1" burst (fst (serve 1000 2 burst [])))))
    < 2)%Z).
Proof.
  assert (H : forall t, In t (map fst burst) -> (t <= 2300)%Z).
  { simpl. intros t Ht. repeat (destruct Ht as [<-|Ht]; [lia|]). destruct Ht. }
  split; [exact H|].
  exact (rateLimit_counts_a_sliding_window 1000 2 burst 2300 "10.0.0.1" H).
Defined.

End RateLimitFacts.
